(** * ThreatWatch: the behavioural risk-analytics engine of [backend/app/test.py]

    A shallow embedding of the engine's pure core: the per-track bounded
    history ([PersonTracker]), the risk score ([RiskScoreCalculator]), the zone
    geometry ([SecurityZone]), the behaviour rules ([analyze_behavior] and its
    checks) and the alert dispatcher ([process_alerts]).

    Numbers.  Python [int]s are [Z].  Python [float]s are idealised as the
    real numbers [R] of the Standard Library, with [math.sqrt], [math.exp],
    [math.atan2] and [math.pi] read as [sqrt], [exp], [atan2] (below) and
    [PI]: rounding, infinities and NaN are outside the model.  Comparisons of
    floats are the library's decisions [Rlt_dec], [Rgt_dec], ..., as booleans.
    Where two quantities that are equal over the reals are compared after
    rounding (the angle of a 45-degree turn with [math.pi / 4], the scores of
    two events), the outcome depends on the doubles: for those places
    [get_movement_pattern_in] and [score_step_computed] take the computed
    values as parameters, with the exact arithmetic as one instance.

    Containers.  A [deque(maxlen=n)] is a list with its eviction written out;
    the dict [person_trackers] is the list of its values in insertion order
    (each value carries its key in [track_id]).

    Text.  [RiskEvent.description] and the log messages are only ever written
    by the engine, never read; they are left out. *)

From Stdlib Require Import String.
From Stdlib Require Import Reals Lra Lia ZArith Bool Arith List.
Import ListNotations.

Open Scope string_scope.
Open Scope list_scope.
Open Scope R_scope.

(** ** Python built-ins used by the engine *)

(** [d.get(k, default)] on a dict with string keys, as an association list. *)
Fixpoint dict_get {A : Type} (d : list (string * A)) (k : string) (default : A) : A :=
  match d with
  | [] => default
  | (k', v) :: d' => if String.eqb k' k then v else dict_get d' k default
  end.

(** [deque(maxlen=n).append(x)]: a full deque drops its oldest (leftmost)
    entry before the new one is added on the right. *)
Definition deque_append {A : Type} (maxlen : nat) (d : list A) (x : A) : list A :=
  match maxlen with
  | O => []
  | S _ => if (length d <? maxlen)%nat then d ++ [x] else tl d ++ [x]
  end.

(** [l[-n:]]: the last [n] entries (all of [l] when it is shorter). *)
Definition last_n {A : Type} (n : nat) (l : list A) : list A :=
  skipn (length l - n) l.

(** [l[-1]] for a non-empty list; [d] stands for the [IndexError] case, which
    every caller below guards against. *)
Definition py_last {A : Type} (l : list A) (d : A) : A := last l d.

(** Float comparisons [a < b], [a > b], [a <= b], [a >= b] as booleans. *)
Definition Rltb (a b : R) : bool := if Rlt_dec a b then true else false.
Definition Rgtb (a b : R) : bool := if Rgt_dec a b then true else false.
Definition Rleb (a b : R) : bool := if Rle_dec a b then true else false.
Definition Rgeb (a b : R) : bool := if Rge_dec a b then true else false.
Infix "<?" := Rltb (at level 70, no associativity) : R_scope.
Infix ">?" := Rgtb (at level 70, no associativity) : R_scope.
Infix "<=?" := Rleb (at level 70, no associativity) : R_scope.
Infix ">=?" := Rgeb (at level 70, no associativity) : R_scope.

(** [min(a, b)] and [max(a, b)] of two floats: Python returns the first
    argument unless the second is strictly smaller (larger). *)
Definition py_min (a b : R) : R := if b <? a then b else a.
Definition py_max (a b : R) : R := if b >? a then b else a.

(** [math.atan2(y, x)]: the angle of the point [(x, y)], in (-PI, PI].  The
    engine only calls it on differences of integer pixel coordinates, so
    signed zeros do not arise. *)
Definition atan2 (y x : R) : R :=
  if x >? 0 then atan (y / x)
  else if x <? 0 then
         if y >=? 0 then atan (y / x) + PI else atan (y / x) - PI
       else if y >? 0 then PI / 2
            else if y <? 0 then - (PI / 2) else 0.

(** Exceptions: a computation returns a value or raises. *)
Inductive result (A : Type) : Type :=
| Ok (a : A)
| Raise (msg : string).
Arguments Ok {A} a.
Arguments Raise {A} msg.

(** ** Data model *)

Definition Point : Type := (Z * Z)%type.

(** [@dataclass RiskEvent]. *)
Record RiskEvent : Type := mkRiskEvent {
  event_type : string;
  risk_score : R;
  confidence : R;
  timestamp : R;
  duration : R;
  location : Point
}.

(** An entry of [PersonTracker.detected_objects]: the dict
    [{'object': .., 'confidence': .., 'timestamp': ..}]. *)
Module DetectedObject.
Record t : Type := mk {
  object : string;
  confidence : R;
  timestamp : R
}.
End DetectedObject.

(** [@dataclass PersonTracker].  [positions], [timestamps] are
    [deque(maxlen=30)], [detected_objects] is [deque(maxlen=10)]. *)
Record PersonTracker : Type := mkPersonTracker {
  track_id : Z;
  positions : list Point;
  timestamps : list R;
  detected_objects : list DetectedObject.t;
  risk_events : list RiskEvent;
  total_risk_score : R;
  max_risk_score : R;
  status : string;
  last_seen : R;
  zone_entry_time : option R;
  stationary_start : option R;
  last_bbox : list Z;
  last_notified_threat : string
}.

(** [PersonTracker(track_id=tid)]: every other field takes its default. *)
Definition new_tracker (tid : Z) : PersonTracker :=
  mkPersonTracker tid [] [] [] [] 0 0 "normal" 0 None None [] "normal".

(** Field assignments [person.f = v]. *)
Definition set_history (p : PersonTracker) (ps : list Point) (ts : list R)
    (seen : R) (bbox : list Z) : PersonTracker :=
  mkPersonTracker (track_id p) ps ts (detected_objects p) (risk_events p)
    (total_risk_score p) (max_risk_score p) (status p) seen
    (zone_entry_time p) (stationary_start p) bbox (last_notified_threat p).

Definition set_detected_objects (p : PersonTracker) (objs : list DetectedObject.t) : PersonTracker :=
  mkPersonTracker (track_id p) (positions p) (timestamps p) objs (risk_events p)
    (total_risk_score p) (max_risk_score p) (status p) (last_seen p)
    (zone_entry_time p) (stationary_start p) (last_bbox p) (last_notified_threat p).

Definition set_risk_events (p : PersonTracker) (evs : list RiskEvent) : PersonTracker :=
  mkPersonTracker (track_id p) (positions p) (timestamps p) (detected_objects p) evs
    (total_risk_score p) (max_risk_score p) (status p) (last_seen p)
    (zone_entry_time p) (stationary_start p) (last_bbox p) (last_notified_threat p).

Definition set_status (p : PersonTracker) (s : string) : PersonTracker :=
  mkPersonTracker (track_id p) (positions p) (timestamps p) (detected_objects p)
    (risk_events p) (total_risk_score p) (max_risk_score p) s (last_seen p)
    (zone_entry_time p) (stationary_start p) (last_bbox p) (last_notified_threat p).

Definition set_stationary_start (p : PersonTracker) (s : option R) : PersonTracker :=
  mkPersonTracker (track_id p) (positions p) (timestamps p) (detected_objects p)
    (risk_events p) (total_risk_score p) (max_risk_score p) (status p) (last_seen p)
    (zone_entry_time p) s (last_bbox p) (last_notified_threat p).

Definition set_last_notified_threat (p : PersonTracker) (s : string) : PersonTracker :=
  mkPersonTracker (track_id p) (positions p) (timestamps p) (detected_objects p)
    (risk_events p) (total_risk_score p) (max_risk_score p) (status p) (last_seen p)
    (zone_entry_time p) (stationary_start p) (last_bbox p) s.

(** ** PersonTracker methods *)

(** [PersonTracker.add_position]. *)
Definition add_position (p : PersonTracker) (pos : Point) (ts : R) (bbox : list Z) : PersonTracker :=
  set_history p (deque_append 30 (positions p) pos)
                (deque_append 30 (timestamps p) ts) ts bbox.

(** The Euclidean length of the step from [a] to [b]:
    [math.sqrt(dx*dx + dy*dy)]. *)
Definition step_length (a b : Point) : R :=
  let dx := (fst b - fst a)%Z in
  let dy := (snd b - snd a)%Z in
  sqrt (IZR (dx * dx + dy * dy)).

(** One round of the loop of [get_speed], at index [i]; the accumulator is
    [(total_distance, total_time)].  [positions[i]] and [timestamps[i]] are read
    at the same index: Python raises [IndexError] where [nth] returns its
    default, which cannot happen while both deques have one length. *)
Definition speed_step (ps : list Point) (ts : list R) (acc : R * R) (i : nat) : R * R :=
  let distance := step_length (nth (i - 1) ps (0, 0)%Z) (nth i ps (0, 0)%Z) in
  let time_diff := nth i ts 0 - nth (i - 1) ts 0 in
  if time_diff >? 0
  then (fst acc + distance, snd acc + time_diff)
  else acc.

(** [PersonTracker.get_speed]. *)
Definition get_speed (p : PersonTracker) : R :=
  if (length (positions p) <? 2)%nat then 0
  else
    let '(total_distance, total_time) :=
      fold_left (speed_step (positions p) (timestamps p))
                (seq 1 (length (positions p) - 1)) (0, 0) in
    if total_time >? 0 then total_distance / total_time else 0.

(** The heading of the step from [a] to [b]: [math.atan2(dy, dx)]. *)
Definition heading (a b : Point) : R :=
  atan2 (IZR (snd b - snd a)) (IZR (fst b - fst a)).

(** The angle between the steps ending and starting at [positions[i-1]], as
    the loop of [get_movement_pattern] computes it: the absolute difference
    of the two headings, folded back when it exceeds [math.pi].  The
    arithmetic is exact here; where the exact angle equals [PI / 4] (a turn of
    45 degrees between integer steps) the doubles of the interpreter can fall
    on either side of [math.pi / 4], and [get_movement_pattern_in] below
    leaves the computed values open. *)
Definition angle_diff_at (ps : list Point) (i : nat) : R :=
  let prev_angle := heading (nth (i - 2) ps (0, 0)%Z) (nth (i - 1) ps (0, 0)%Z) in
  let curr_angle := heading (nth (i - 1) ps (0, 0)%Z) (nth i ps (0, 0)%Z) in
  let angle_diff := Rabs (curr_angle - prev_angle) in
  if angle_diff >? PI then 2 * PI - angle_diff else angle_diff.

(** One round of the loop of [get_movement_pattern]. *)
Definition direction_step (ps : list Point) (direction_changes : nat) (i : nat) : nat :=
  if angle_diff_at ps i >? PI / 4
  then S direction_changes else direction_changes.

(** The value of [direction_changes] after the loop over [range(2, len)]. *)
Definition direction_changes (p : PersonTracker) : nat :=
  fold_left (direction_step (positions p)) (seq 2 (length (positions p) - 2)) O.

(** [change_rate = direction_changes / len(self.positions)]. *)
Definition change_rate (p : PersonTracker) : R :=
  INR (direction_changes p) / INR (length (positions p)).

(** [PersonTracker.get_movement_pattern]. *)
Definition get_movement_pattern (p : PersonTracker) : string :=
  if (length (positions p) <? 5)%nat then "insufficient_data"
  else
    let speed := get_speed p in
    if speed <? 5 then "stationary"
    else if speed >? 50 then "running"
    else if change_rate p >? 0.3 then "erratic"
    else if change_rate p <? 0.1 then "linear"
    else "normal".

(** ** RiskScoreCalculator *)

(** The tables of [RiskScoreCalculator.__init__] that the score reads. *)
Definition base_risk_scores : list (string * R) :=
  [ ("intrusion", 15); ("armed_person", 20); ("suspicious_loitering", 8);
    ("erratic_movement", 6); ("running", 5); ("group_formation", 7) ].

Definition confidence_weights : list (string * R) :=
  [ ("high", 1); ("medium", 0.8); ("low", 0.5) ].

(** [RiskScoreCalculator._get_confidence_level]. *)
Definition _get_confidence_level (confidence : R) : string :=
  if confidence >=? 0.8 then "high"
  else if confidence >=? 0.6 then "medium"
  else "low".

(** [RiskScoreCalculator._calculate_time_factor] (both times are floats, so
    the [None] guard and the [except] clause are not taken). *)
Definition _calculate_time_factor (event_time current_time : R) : R :=
  let time_diff := current_time - event_time in
  if time_diff <? 10 then 1.5
  else if time_diff <? 30 then 1.2
  else if time_diff <? 120 then 1
  else py_max 0.3 (exp (- time_diff / 300)).

(** The body of the loop of [calculate_risk_score] up to the final
    [event_score] of one event. *)
Definition event_score (event : RiskEvent) (current_time : R) : R :=
  let base_score := dict_get base_risk_scores (event_type event) 0 in
  let confidence_factor :=
    dict_get confidence_weights (_get_confidence_level (confidence event)) 1 in
  let time_factor := _calculate_time_factor (timestamp event) current_time in
  let location_factor := 1 in
  let event_score := base_score * confidence_factor * time_factor * location_factor in
  if duration event >? 30
  then let duration_bonus := py_min (duration event / 60) 2 in
       event_score * (1 + duration_bonus * 0.3)
  else event_score.

(** One round of that loop on the accumulator
    [(total_score, primary_threat, max_event_score)].  The products are exact
    here; two events whose exact scores are equal can have computed scores one
    unit in the last place apart, and [score_step_computed] below leaves the
    computed values open. *)
Definition score_step (current_time : R) (acc : R * string * R) (event : RiskEvent)
    : R * string * R :=
  let '(total_score, primary_threat, max_event_score) := acc in
  let es := event_score event current_time in
  if es >? max_event_score
  then (total_score + es, event_type event, es)
  else (total_score + es, primary_threat, max_event_score).

(** The number of events of the last 60 seconds (the escalation test). *)
Definition recent_event_count (person : PersonTracker) (current_time : R) : nat :=
  length (filter (fun e => current_time - timestamp e <? 60) (risk_events person)).

(** [RiskScoreCalculator.calculate_risk_score]. *)
Definition calculate_risk_score (person : PersonTracker) (current_time : R) : R * string :=
  let '(total_score, primary_threat, _) :=
    fold_left (score_step current_time) (risk_events person) (0, "normal", 0) in
  let movement_pattern := get_movement_pattern person in
  let total_score :=
    if String.eqb movement_pattern "erratic" then total_score * 1.3
    else if String.eqb movement_pattern "running" then total_score * 1.2
    else if String.eqb movement_pattern "stationary"
            && (0 <? length (risk_events person))%nat then total_score * 1.1
    else total_score in
  let total_score :=
    if (2 <? recent_event_count person current_time)%nat
    then total_score * 1.4 else total_score in
  (py_min total_score 100, primary_threat).

(** ** SecurityZone *)

(** A zone after [SecurityZone.__init__]: [points] is the parsed vertex array
    (empty when the points could not be parsed). *)
Record SecurityZone : Type := mkSecurityZone {
  name : string;
  access_level : string;
  points : list Point
}.

(** OpenCV's [cv2.pointPolygonTest(contour, pt, measureDist=False)] on an
    integer contour and an integer point, the call [contains_point] makes.
    It is a library routine outside the repository; this is its integer
    branch: every edge [(v0, v)] of the closed contour is visited in order, a
    point on a vertex or an edge gives 0 at once, and otherwise the parity of
    the crossings of the ray to the right of the point decides between -1
    (outside) and 1 (inside).  Coordinates are pixel values, far from the
    bounds of the machine integers the routine computes with. *)
Fixpoint pointPolygonTest_loop (ip v0 : Point) (cnt : list Point) (counter : Z) : Z :=
  match cnt with
  | [] => if Z.even counter then (-1)%Z else 1%Z
  | v :: cnt' =>
      if ((snd v0 <=? snd ip)%Z && (snd v <=? snd ip)%Z)
         || ((snd v0 >? snd ip)%Z && (snd v >? snd ip)%Z)
         || ((fst v0 <? fst ip)%Z && (fst v <? fst ip)%Z)
      then
        if (snd ip =? snd v)%Z
           && ((fst ip =? fst v)%Z
               || ((snd ip =? snd v0)%Z
                   && (((fst v0 <=? fst ip)%Z && (fst ip <=? fst v)%Z)
                       || ((fst v <=? fst ip)%Z && (fst ip <=? fst v0)%Z))))
        then 0%Z
        else pointPolygonTest_loop ip v cnt' counter
      else
        let dist := ((snd ip - snd v0) * (fst v - fst v0)
                     - (fst ip - fst v0) * (snd v - snd v0))%Z in
        if (dist =? 0)%Z then 0%Z
        else
          let dist := if (snd v <? snd v0)%Z then (- dist)%Z else dist in
          pointPolygonTest_loop ip v cnt'
            (if (dist >? 0)%Z then counter + 1 else counter)%Z
  end.

Definition pointPolygonTest (contour : list Point) (pt : Point) : Z :=
  match contour with
  | [] => (-1)%Z
  | _ => pointPolygonTest_loop pt (last contour (0, 0)%Z) contour 0
  end.

(** [SecurityZone.contains_point]. *)
Definition contains_point (zone : SecurityZone) (point : Point) : bool :=
  match points zone with
  | [] => false
  | _ => (pointPolygonTest (points zone) point >=? 0)%Z
  end.

(** ** SecurityMonitoringSystem *)

(** An entry of the detector's output: the dict
    [{'bbox': .., 'confidence': .., 'class': .., 'center': ..}]. *)
Module Detection.
Record t : Type := mk {
  bbox : list Z;
  confidence : R;
  class : string;
  center : Point
}.
End Detection.

(** The fields of [SecurityMonitoringSystem] that the engine reads and writes
    ([self]).  The detector, the external tracker and the drawing are not
    part of the model. *)
Record SecurityMonitoringSystem : Type := mkSystem {
  person_trackers : list PersonTracker;
  loitering_threshold : R;
  risk_alert_threshold : R;
  critical_alert_threshold : R;
  frame_count : Z;
  fps_counter : list R;
  security_zones : list SecurityZone
}.

Definition set_person_trackers (self : SecurityMonitoringSystem)
    (ps : list PersonTracker) : SecurityMonitoringSystem :=
  mkSystem ps (loitering_threshold self) (risk_alert_threshold self)
    (critical_alert_threshold self) (frame_count self) (fps_counter self)
    (security_zones self).

(** [x in l] for a list of strings. *)
Definition str_in (x : string) (l : list string) : bool := existsb (String.eqb x) l.

Definition weapon_classes : list string :=
  ["knife"; "gun"; "weapon"; "scissors"; "bottle"].

(** [person.positions[-1] if person.positions else (0, 0)]. *)
Definition last_position (person : PersonTracker) : Point :=
  match positions person with [] => (0, 0)%Z | _ => py_last (positions person) (0, 0)%Z end.

(** The events of type [ty] younger than [window] seconds: the list
    comprehension every cooldown test of the checks below builds. *)
Definition recent_events (ty : string) (window : R) (person : PersonTracker) (current_time : R)
    : list RiskEvent :=
  filter (fun e => String.eqb (event_type e) ty && (current_time - timestamp e <? window))
         (risk_events person).

(** The loop of [check_intrusion] over the zones. *)
Fixpoint check_intrusion_loop (zones : list SecurityZone) (person : PersonTracker)
    (current_time : R) (current_pos : Point) : option RiskEvent :=
  match zones with
  | [] => None
  | zone :: zones' =>
      if contains_point zone current_pos
         && str_in (access_level zone) ["restricted"; "critical"]
         && match recent_events "intrusion" 60 person current_time with
            | [] => true | _ => false end
      then Some (mkRiskEvent "intrusion"
                   (if String.eqb (access_level zone) "critical" then 15 else 12)
                   0.9 current_time 0 current_pos)
      else check_intrusion_loop zones' person current_time current_pos
  end.

(** [SecurityMonitoringSystem.check_intrusion]. *)
Definition check_intrusion (self : SecurityMonitoringSystem) (person : PersonTracker)
    (current_time : R) : option RiskEvent :=
  match positions person with
  | [] => None
  | _ => check_intrusion_loop (security_zones self) person current_time
           (py_last (positions person) (0, 0)%Z)
  end.

(** [SecurityMonitoringSystem.check_weapons]. *)
Definition check_weapons (self : SecurityMonitoringSystem) (person : PersonTracker)
    (current_time : R) : option RiskEvent :=
  let recent_weapons :=
    filter (fun obj => (current_time - DetectedObject.timestamp obj <? 30)
                       && str_in (DetectedObject.object obj) weapon_classes)
           (detected_objects person) in
  match recent_weapons with
  | [] => None
  | w :: ws =>
      match recent_events "armed_person" 30 person current_time with
      | [] =>
          let max_confidence :=
            fold_left py_max (map DetectedObject.confidence ws) (DetectedObject.confidence w) in
          Some (mkRiskEvent "armed_person" 0 max_confidence current_time 0
                  (last_position person))
      | _ => None
      end
  end.

(** [total_movement] after the loop of [check_loitering] over
    [recent_positions]. *)
Definition total_movement (recent_positions : list Point) : R :=
  fold_left (fun acc i => acc + step_length (nth (i - 1) recent_positions (0, 0)%Z)
                                            (nth i recent_positions (0, 0)%Z))
            (seq 1 (length recent_positions - 1)) 0.

(** [avg_movement = total_movement / len(recent_positions)]. *)
Definition avg_movement (person : PersonTracker) : R :=
  let recent_positions := last_n 10 (positions person) in
  total_movement recent_positions / INR (length recent_positions).

(** [SecurityMonitoringSystem.check_loitering]: the person as the call leaves
    it ([stationary_start] is written) and the event returned. *)
Definition check_loitering (self : SecurityMonitoringSystem) (person : PersonTracker)
    (current_time : R) : PersonTracker * option RiskEvent :=
  if (length (positions person) <? 10)%nat then (person, None)
  else if avg_movement person <? 10 then
    match stationary_start person with
    | None => (set_stationary_start person (Some current_time), None)
    | Some start =>
        if current_time - start >? loitering_threshold self then
          match recent_events "suspicious_loitering" 60 person current_time with
          | [] =>
              let duration := current_time - start in
              (person, Some (mkRiskEvent "suspicious_loitering" 8 0.8 current_time
                               duration (py_last (positions person) (0, 0)%Z)))
          | _ => (person, None)
          end
        else (person, None)
    end
  else (set_stationary_start person None, None).

(** [SecurityMonitoringSystem.check_movement_patterns]. *)
Definition check_movement_patterns (self : SecurityMonitoringSystem) (person : PersonTracker)
    (current_time : R) : option RiskEvent :=
  let pattern := get_movement_pattern person in
  if String.eqb pattern "erratic" then
    match recent_events "erratic_movement" 30 person current_time with
    | [] => Some (mkRiskEvent "erratic_movement" 6 0.7 current_time 0 (last_position person))
    | _ => None
    end
  else if String.eqb pattern "running" then
    match recent_events "running" 20 person current_time with
    | [] => Some (mkRiskEvent "running" 5 0.8 current_time 0 (last_position person))
    | _ => None
    end
  else None.

(** [new_events.append(e)] when a check returned an event. *)
Definition opt_list {A : Type} (o : option A) : list A :=
  match o with Some a => [a] | None => [] end.

(** [SecurityMonitoringSystem.analyze_behavior]. *)
Definition analyze_behavior (self : SecurityMonitoringSystem) (person : PersonTracker)
    (current_time : R) : PersonTracker :=
  let intrusion_event := check_intrusion self person current_time in
  let weapon_event := check_weapons self person current_time in
  let '(person, loitering_event) := check_loitering self person current_time in
  let movement_event := check_movement_patterns self person current_time in
  let new_events := opt_list intrusion_event ++ opt_list weapon_event
                    ++ opt_list loitering_event ++ opt_list movement_event in
  set_risk_events person
    (filter (fun event => current_time - timestamp event <? 600)
            (risk_events person ++ new_events)).

(** The loop of [detect_carried_objects] (the second definition in the class,
    which is the one in force) over the detections; [clock k] is the reading
    of [time.time()] in round [k]. *)
Fixpoint detect_carried_loop (clock : nat -> R) (k : nat) (px1 py1 px2 py2 : Z)
    (tracker : PersonTracker) (detections : list Detection.t) : PersonTracker :=
  match detections with
  | [] => tracker
  | detection :: detections' =>
      let tracker :=
        if str_in (Detection.class detection) weapon_classes then
          match Detection.bbox detection with
          | [dx1; dy1; dx2; dy2] =>
              if negb ((dx2 <? px1)%Z || (dx1 >? px2)%Z || (dy2 <? py1)%Z || (dy1 >? py2)%Z)
              then set_detected_objects tracker
                     (deque_append 10 (detected_objects tracker)
                        (DetectedObject.mk (Detection.class detection)
                           (Detection.confidence detection) (clock k)))
              else tracker
          | _ => tracker
          end
        else tracker in
      detect_carried_loop clock (S k) px1 py1 px2 py2 tracker detections'
  end.

(** [SecurityMonitoringSystem.detect_carried_objects]; a box is a list of four
    integers (the unpacking raises on any other, which [add_position] never
    stores). *)
Definition detect_carried_objects (clock : nat -> R) (tracker : PersonTracker)
    (detections : list Detection.t) (person_bbox : list Z) : PersonTracker :=
  match person_bbox with
  | [px1; py1; px2; py2] =>
      let margin := 20%Z in
      detect_carried_loop clock 0 (px1 - margin) (py1 - margin) (px2 + margin) (py2 + margin)
        tracker detections
  | _ => tracker
  end.

(** The active-track test of [process_frame], [get_system_statistics] and
    [draw_system_info]: [current_time - person.last_seen < 5]. *)
Definition is_active (person : PersonTracker) (current_time : R) : bool :=
  current_time - last_seen person <? 5.

(** The body of the analysis loop of [process_frame] (step 3) for one
    person. *)
Definition analyze_person (self : SecurityMonitoringSystem) (clock : nat -> R)
    (detections : list Detection.t) (current_time : R) (person : PersonTracker)
    : PersonTracker :=
  if is_active person current_time then
    let person := analyze_behavior self person current_time in
    match last_bbox person with
    | [] => person
    | bbox => detect_carried_objects clock person detections bbox
    end
  else person.

(** A [for] loop whose body is not guarded by [try]: the first exception
    leaves the loop, and the persons after it are not visited. *)
Fixpoint for_each_unguarded (body : PersonTracker -> result PersonTracker)
    (persons : list PersonTracker) : result (list PersonTracker) :=
  match persons with
  | [] => Ok []
  | person :: persons' =>
      match body person with
      | Raise msg => Raise msg
      | Ok person' =>
          match for_each_unguarded body persons' with
          | Raise msg => Raise msg
          | Ok rest => Ok (person' :: rest)
          end
      end
  end.

(** Step 3 of [process_frame], for a per-person analysis [analyze] that may
    raise. *)
Definition process_frame_analysis_with (analyze : PersonTracker -> result PersonTracker)
    (self : SecurityMonitoringSystem) : result SecurityMonitoringSystem :=
  match for_each_unguarded analyze (person_trackers self) with
  | Raise msg => Raise msg
  | Ok ps => Ok (set_person_trackers self ps)
  end.

(** Step 3 of [process_frame] on the model above, in which no call raises. *)
Definition process_frame_analysis (self : SecurityMonitoringSystem) (clock : nat -> R)
    (detections : list Detection.t) (current_time : R) : result SecurityMonitoringSystem :=
  process_frame_analysis_with
    (fun person => Ok (analyze_person self clock detections current_time person)) self.

(** ** Alert / incident dispatch *)

(** The dict [incident_data]; [details] and [path_data] are the lists handed
    to [json.dumps]. *)
Module Incident.
Record t : Type := mk {
  timestamp : R;
  track_id : Z;
  risk_score : R;
  primary_threat : string;
  location_x : option Z;
  location_y : option Z;
  details : list string;
  path_data : list Point
}.
End Incident.

(** The dict [alert]. *)
Module Alert.
Record t : Type := mk {
  level : string;
  track_id : Z;
  risk_score : R;
  threat_type : string;
  location : Point;
  timestamp : R
}.
End Alert.

(** The [continue] test at the head of the loop of [process_alerts]:
    [current_time - person.last_seen > 5] ([last_seen] is a float, never
    [None]). *)
Definition alerts_skip (person : PersonTracker) (current_time : R) : bool :=
  current_time - last_seen person >? 5.

Definition make_incident (person : PersonTracker) (current_time risk : R)
    (primary_threat : string) : Incident.t :=
  Incident.mk current_time (track_id person) risk primary_threat
    (match positions person with
     | [] => None | _ => Some (fst (py_last (positions person) (0, 0)%Z)) end)
    (match positions person with
     | [] => None | _ => Some (snd (py_last (positions person) (0, 0)%Z)) end)
    (map event_type (risk_events person))
    (positions person).

Definition make_alert (self : SecurityMonitoringSystem) (person : PersonTracker)
    (current_time risk : R) (primary_threat : string) : Alert.t :=
  Alert.mk (if risk >=? critical_alert_threshold self then "CRITICAL" else "HIGH")
    (track_id person) risk primary_threat (last_position person) current_time.

(** The body of the loop of [process_alerts] for one person: the person as
    the round leaves it, and what the round appends to [incidents_to_log] and
    to [reportable_alerts].  [score] is the call of [calculate_risk_score],
    which the [try] guards: when it raises, the [except] clause logs and the
    loop continues.  The rest of the guarded block builds the two dicts from
    fields of the person and does not raise on the data modelled here. *)
Definition dispatch_person (score : PersonTracker -> R -> result (R * string))
    (self : SecurityMonitoringSystem) (current_time : R) (person : PersonTracker)
    : PersonTracker * list Incident.t * list Alert.t :=
  if alerts_skip person current_time then (person, [], [])
  else
    match score person current_time with
    | Raise _ => (person, [], [])
    | Ok (risk, primary_threat) =>
        let person := set_status person primary_threat in
        let is_significant_threat := risk >=? risk_alert_threshold self in
        if is_significant_threat then
          let incident_data := make_incident person current_time risk primary_threat in
          if negb (String.eqb primary_threat (last_notified_threat person)) then
            (set_last_notified_threat person primary_threat,
             [incident_data],
             [make_alert self person current_time risk primary_threat])
          else (person, [incident_data], [])
        else if negb (String.eqb (last_notified_threat person) "normal") then
          (set_last_notified_threat person "normal", [], [])
        else (person, [], [])
    end.

(** The loop of [process_alerts] over [self.person_trackers.values()]. *)
Fixpoint process_alerts_loop (score : PersonTracker -> R -> result (R * string))
    (self : SecurityMonitoringSystem) (current_time : R) (persons : list PersonTracker)
    : list PersonTracker * list Incident.t * list Alert.t :=
  match persons with
  | [] => ([], [], [])
  | person :: persons' =>
      let '(person', incidents, alerts) := dispatch_person score self current_time person in
      let '(rest, incidents_to_log, reportable_alerts) :=
        process_alerts_loop score self current_time persons' in
      (person' :: rest, incidents ++ incidents_to_log, alerts ++ reportable_alerts)
  end.

(** [process_alerts] for a scoring call that may raise: the system as the call
    leaves it, [incidents_to_log] and [reportable_alerts]. *)
Definition process_alerts_with (score : PersonTracker -> R -> result (R * string))
    (self : SecurityMonitoringSystem) (current_time : R)
    : SecurityMonitoringSystem * list Incident.t * list Alert.t :=
  let '(persons, incidents_to_log, reportable_alerts) :=
    process_alerts_loop score self current_time (person_trackers self) in
  (set_person_trackers self persons, incidents_to_log, reportable_alerts).

(** [SecurityMonitoringSystem.process_alerts] on the model above, in which
    [calculate_risk_score] always returns. *)
Definition process_alerts (self : SecurityMonitoringSystem) (current_time : R)
    : SecurityMonitoringSystem * list Incident.t * list Alert.t :=
  process_alerts_with (fun person t => Ok (calculate_risk_score person t)) self current_time.

(** ** System statistics *)

(** [SecurityMonitoringSystem.calculate_fps] (every entry of [fps_counter] is
    a float, so [valid_times] is the whole deque). *)
Definition calculate_fps (self : SecurityMonitoringSystem) : R :=
  match fps_counter self with
  | [] => 0
  | t0 :: ts =>
      if (length (fps_counter self) <? 2)%nat then 0
      else
        let time_diff := fold_left py_max ts t0 - fold_left py_min ts t0 in
        if time_diff <=? 0 then 0
        else INR (length (fps_counter self)) / time_diff
  end.

(** The dict [risk_distribution]. *)
Record RiskDistribution : Type := mkRiskDistribution {
  low : nat;
  medium : nat;
  high : nat;
  critical : nat
}.

(** One round of the loop of [get_system_statistics] over the active
    trackers. *)
Definition distribution_step (current_time : R) (d : RiskDistribution) (person : PersonTracker)
    : RiskDistribution :=
  let risk := fst (calculate_risk_score person current_time) in
  if risk <? 10 then mkRiskDistribution (S (low d)) (medium d) (high d) (critical d)
  else if risk <? 25 then mkRiskDistribution (low d) (S (medium d)) (high d) (critical d)
  else if risk <? 50 then mkRiskDistribution (low d) (medium d) (S (high d)) (critical d)
  else mkRiskDistribution (low d) (medium d) (high d) (S (critical d)).

(** The dict returned by [get_system_statistics]. *)
Module Statistics.
Record t : Type := mk {
  active_trackers : nat;
  total_trackers : nat;
  risk_distribution : RiskDistribution;
  fps : R;
  frame_count : Z;
  zones : nat
}.
End Statistics.

(** The list [active_trackers] of [get_system_statistics]. *)
Definition active_trackers (self : SecurityMonitoringSystem) (current_time : R)
    : list PersonTracker :=
  filter (fun p => is_active p current_time) (person_trackers self).

(** [SecurityMonitoringSystem.get_system_statistics]. *)
Definition get_system_statistics (self : SecurityMonitoringSystem) (current_time : R)
    : Statistics.t :=
  let active := active_trackers self current_time in
  let risk_distribution :=
    fold_left (distribution_step current_time) active (mkRiskDistribution 0 0 0 0) in
  Statistics.mk (length active) (length (person_trackers self)) risk_distribution
    (calculate_fps self) (frame_count self) (length (security_zones self)).

(** ** Runs of the engine, for the statements below *)

(** One call [person.add_position(pos, timestamp, bbox)]. *)
Definition position_call : Type := (Point * R * list Z)%type.

(** A sequence of [add_position] calls on one tracker, first call first. *)
Definition add_positions (p : PersonTracker) (calls : list position_call) : PersonTracker :=
  fold_left (fun p c => add_position p (fst (fst c)) (snd (fst c)) (snd c)) calls p.

(** The sum of the event scores, which the loop of [calculate_risk_score]
    accumulates in [total_score]. *)
Definition events_total (current_time : R) (events : list RiskEvent) : R :=
  fold_right (fun e acc => event_score e current_time + acc) 0 events.

(** The factor the movement pattern contributes to the total. *)
Definition pattern_multiplier (person : PersonTracker) : R :=
  let movement_pattern := get_movement_pattern person in
  if String.eqb movement_pattern "erratic" then 1.3
  else if String.eqb movement_pattern "running" then 1.2
  else if String.eqb movement_pattern "stationary"
          && (0 <? length (risk_events person))%nat then 1.1
  else 1.

(** The factor the escalation test contributes to the total. *)
Definition escalation_multiplier (person : PersonTracker) (current_time : R) : R :=
  if (2 <? recent_event_count person current_time)%nat then 1.4 else 1.

(** The event [e] with its confidence replaced by [c]. *)
Definition with_confidence (e : RiskEvent) (c : R) : RiskEvent :=
  mkRiskEvent (event_type e) (risk_score e) c (timestamp e) (duration e) (location e).

(** The event [e] with its stored [risk_score] replaced by [s]. *)
Definition with_risk_score (e : RiskEvent) (s : R) : RiskEvent :=
  mkRiskEvent (event_type e) s (confidence e) (timestamp e) (duration e) (location e).

(** The track [p] with the stored [risk_score] of every event blanked: two
    tracks with the same image differ at most in those values. *)
Definition forget_risk_scores (p : PersonTracker) : PersonTracker :=
  set_risk_events p (map (fun e => with_risk_score e 0) (risk_events p)).

(** The score of an event as a product: what depends on the confidence, times
    what does not. *)
Definition event_weight (event : RiskEvent) (current_time : R) : R :=
  dict_get base_risk_scores (event_type event) 0
  * _calculate_time_factor (timestamp event) current_time
  * (if duration event >? 30 then 1 + py_min (duration event / 60) 2 * 0.3 else 1).

(** [pt] lies on the closed segment from [a] to [b]: it is on their line and
    within their bounding box. *)
Definition on_segment (a b pt : Point) : Prop :=
  ((snd pt - snd a) * (fst b - fst a) - (fst pt - fst a) * (snd b - snd a) = 0)%Z
  /\ (Z.min (fst a) (fst b) <= fst pt <= Z.max (fst a) (fst b))%Z
  /\ (Z.min (snd a) (snd b) <= snd pt <= Z.max (snd a) (snd b))%Z.

(** The square zone of the containment test. *)
Definition unit_square : list Point := [(0, 0); (10, 0); (10, 10); (0, 10)]%Z.

(** ** The movement pattern in the words of the specification *)

(** The headings of the consecutive steps of a path, first step first. *)
Fixpoint headings (ps : list Point) : list R :=
  match ps with
  | a :: ((b :: _) as ps') => heading a b :: headings ps'
  | _ => []
  end.

(** An angle difference folded back into [0, PI]. *)
Definition wrap_angle (d : R) : R := if d >? PI then 2 * PI - d else d.

(** The consecutive angle deltas of a list of headings, wrapped. *)
Fixpoint angle_deltas (hs : list R) : list R :=
  match hs with
  | h1 :: ((h2 :: _) as hs') => wrap_angle (Rabs (h2 - h1)) :: angle_deltas hs'
  | _ => []
  end.

(** The wrapped angle deltas between the consecutive steps of a path. *)
Definition turn_angles (ps : list Point) : list R := angle_deltas (headings ps).




(** A walk of five samples, one per second: three steps of 10 px to the
    east, then one of 10 px to the north. *)
Definition walk : PersonTracker :=
  add_positions (new_tracker 7)
    [ ((0, 0)%Z, 0, [0; 0; 2; 2]%Z); ((10, 0)%Z, 1, [10; 0; 12; 2]%Z);
      ((20, 0)%Z, 2, [20; 0; 22; 2]%Z); ((30, 0)%Z, 3, [30; 0; 32; 2]%Z);
      ((30, 10)%Z, 4, [30; 10; 32; 12]%Z) ].

(** ** Loitering in the words of the specification *)

(** The average consecutive-step movement of a run of positions: the total
    length of its steps divided by their number. *)
Definition mean_step (recent_positions : list Point) : R :=
  total_movement recent_positions / INR (length recent_positions - 1).

(** [event_type == 'suspicious_loitering']. *)
Definition is_loitering (e : RiskEvent) : bool :=
  String.eqb (event_type e) "suspicious_loitering".

(** The monitoring system with its default thresholds (loitering 10 s, alert
    20, critical 40) and no zone. *)
Definition default_system : SecurityMonitoringSystem := mkSystem [] 10 20 40 0 [] [].

(** A person seen at the same spot once per second from time 0 to time 9, and
    found stationary by the loitering check at time 9. *)
Definition loiterer : PersonTracker :=
  fst (check_loitering default_system
         (add_positions (new_tracker 3)
            [ ((4, 4)%Z, 0, [3; 3; 5; 5]%Z); ((4, 4)%Z, 1, [3; 3; 5; 5]%Z);
              ((4, 4)%Z, 2, [3; 3; 5; 5]%Z); ((4, 4)%Z, 3, [3; 3; 5; 5]%Z);
              ((4, 4)%Z, 4, [3; 3; 5; 5]%Z); ((4, 4)%Z, 5, [3; 3; 5; 5]%Z);
              ((4, 4)%Z, 6, [3; 3; 5; 5]%Z); ((4, 4)%Z, 7, [3; 3; 5; 5]%Z);
              ((4, 4)%Z, 8, [3; 3; 5; 5]%Z); ((4, 4)%Z, 9, [3; 3; 5; 5]%Z) ])
         9).

(** ** A monitored scene, for the dispatch statements *)

(** A restricted square zone. *)
Definition lab_zone : SecurityZone := mkSecurityZone "lab" "restricted" unit_square.

(** A system with the default thresholds watching the zone, with the given
    trackers. *)
Definition lab_system (persons : list PersonTracker) : SecurityMonitoringSystem :=
  mkSystem persons 10 20 40 0 [] [lab_zone].

(** A person first seen at time 0 inside the zone, after the analysis of that
    frame: the track carries one intrusion event of time 0. *)
Definition intruder (tid : Z) : PersonTracker :=
  analyze_behavior (lab_system [])
    (add_position (new_tracker tid) (5, 5)%Z 0 [3; 3; 7; 7]%Z) 0.

(** ** Frames of the monitoring loop, for the dispatch statements *)

(** [self.person_trackers.get(tid)]. *)
Definition find_tracker (tid : Z) (persons : list PersonTracker) : option PersonTracker :=
  find (fun p => (track_id p =? tid)%Z) persons.

(** The keys of a dict are distinct. *)
Definition well_keyed (self : SecurityMonitoringSystem) : Prop :=
  NoDup (map track_id (person_trackers self)).

(** The incidents and the alerts of one track in the lists [process_alerts]
    returns. *)
Definition incidents_of (tid : Z) (l : list Incident.t) : list Incident.t :=
  filter (fun i => (Incident.track_id i =? tid)%Z) l.

Definition alerts_of (tid : Z) (l : list Alert.t) : list Alert.t :=
  filter (fun a => (Alert.track_id a =? tid)%Z) l.

(** One frame as [process_alerts] meets it: the frame time and the system at
    the call. *)
Record frame : Type := mkFrame {
  frame_time : R;
  frame_system : SecurityMonitoringSystem
}.

(** The call [process_alerts(frame_time)] of a frame. *)
Definition frame_dispatch (f : frame)
    : SecurityMonitoringSystem * list Incident.t * list Alert.t :=
  process_alerts (frame_system f) (frame_time f).

Definition frame_tracker (tid : Z) (f : frame) : option PersonTracker :=
  find_tracker tid (person_trackers (frame_system f)).

Definition frame_incidents (tid : Z) (f : frame) : list Incident.t :=
  incidents_of tid (snd (fst (frame_dispatch f))).

Definition frame_alerts (tid : Z) (f : frame) : list Alert.t :=
  alerts_of tid (snd (frame_dispatch f)).

(** The dedup state [last_notified_threat] of a track as a frame finds it and
    as its [process_alerts] call leaves it. *)
Definition notified_before (tid : Z) (f : frame) : option string :=
  option_map last_notified_threat (frame_tracker tid f).

Definition notified_after (tid : Z) (f : frame) : option string :=
  option_map last_notified_threat
    (find_tracker tid (person_trackers (fst (fst (frame_dispatch f))))).

(** Consecutive frames: [process_alerts] is the only writer of
    [last_notified_threat], so each frame finds the dedup state of a track as
    the frame before left it. *)
Fixpoint consecutive (tid : Z) (frames : list frame) : Prop :=
  match frames with
  | f :: ((g :: _) as frames') =>
      notified_before tid g = notified_after tid f /\ consecutive tid frames'
  | _ => True
  end.

(** In frame [f] the track [tid] is active, its total score is at or above
    [risk_alert_threshold] and its primary threat is [threat]. *)
Definition threat_in_frame (tid : Z) (threat : string) (f : frame) : Prop :=
  exists p,
    frame_tracker tid f = Some p
    /\ is_active p (frame_time f) = true
    /\ fst (calculate_risk_score p (frame_time f)) >= risk_alert_threshold (frame_system f)
    /\ snd (calculate_risk_score p (frame_time f)) = threat.

(** ** One iteration of the monitoring loop *)

(** A row of the external tracker's output [tracks]:
    [x1, y1, x2, y2, track_id]. *)
Module Track.
Record t : Type := mk {
  x1 : Z;
  y1 : Z;
  x2 : Z;
  y2 : Z;
  track_id : Z
}.
End Track.

(** The body of the loop of [update_trackers] for one row: the tracker is
    created when the id is new, and the centre of the box, [int((a + b) / 2)]
    on each axis, is added to its history. *)
Definition update_tracker_row (current_time : R) (persons : list PersonTracker)
    (track : Track.t) : list PersonTracker :=
  let tid := Track.track_id track in
  let persons :=
    match find_tracker tid persons with
    | None => persons ++ [new_tracker tid]
    | Some _ => persons
    end in
  let center := (Z.quot (Track.x1 track + Track.x2 track) 2,
                 Z.quot (Track.y1 track + Track.y2 track) 2) in
  let bbox := [Track.x1 track; Track.y1 track; Track.x2 track; Track.y2 track] in
  map (fun p => if (track_id p =? tid)%Z
                then add_position p center current_time bbox else p) persons.

(** [SecurityMonitoringSystem.update_trackers], from the rows [tracks] that
    the external tracker returned for the frame (none when there is no
    person detection or when the tracker failed). *)
Definition update_trackers (self : SecurityMonitoringSystem) (tracks : list Track.t)
    (current_time : R) : SecurityMonitoringSystem :=
  set_person_trackers self
    (fold_left (update_tracker_row current_time) tracks (person_trackers self)).

(** One iteration of [video_processing_loop]: [process_alerts], then
    [process_frame] (the tracker update and the analysis; detection and
    drawing are external).  The result is the system as the iteration leaves
    it with the incidents and alerts of the iteration. *)
Definition loop_iteration (self : SecurityMonitoringSystem) (current_time : R)
    (tracks : list Track.t) (detections : list Detection.t) (clock : nat -> R)
    : result (SecurityMonitoringSystem * list Incident.t * list Alert.t) :=
  let '(self, incidents_to_log, reportable_alerts) := process_alerts self current_time in
  match process_frame_analysis (update_trackers self tracks current_time)
          clock detections current_time with
  | Raise msg => Raise msg
  | Ok self => Ok (self, incidents_to_log, reportable_alerts)
  end.

(** The intruder once [process_alerts] has notified the intrusion. *)
Definition notified_intruder : PersonTracker :=
  set_last_notified_threat (set_status (intruder 1) "intrusion") "intrusion".

(** A knife detected over the intruder's box. *)
Definition knife : Detection.t := Detection.mk [4; 4; 6; 6]%Z 0.9 "knife" (5, 5)%Z.

(** The notified intruder after the knife was attached to the track (at wall
    clock 3) and the analysis of time 4 raised an armed-person event. *)
Definition armed_intruder : PersonTracker :=
  analyze_behavior (lab_system [])
    (detect_carried_objects (fun _ => 3) notified_intruder [knife]
       (last_bbox notified_intruder)) 4.

(** Five consecutive frames, at times 0 to 4, from the first sight of the
    intruder on; and the frame after them, in which the knife has been seen. *)
Definition intrusion_frames : list frame :=
  mkFrame 0 (lab_system [intruder 1])
  :: map (fun t => mkFrame t (lab_system [notified_intruder])) [1; 2; 3; 4].

Definition armed_frame : frame := mkFrame 4.5 (lab_system [armed_intruder]).

(** Five consecutive frames that begin after the intrusion was notified. *)
Definition later_frames : list frame :=
  map (fun t => mkFrame t (lab_system [notified_intruder])) [1; 2; 3; 4; 4.5].

(** The events of the scene: the intrusion of time 0 and the armed-person
    event of time 4. *)
Definition intrusion_event : RiskEvent := mkRiskEvent "intrusion" 12 0.9 0 0 (5, 5)%Z.
Definition armed_event : RiskEvent := mkRiskEvent "armed_person" 0 0.9 4 0 (5, 5)%Z.

(** A per-person call that raises on the track [tid] and behaves as [f] on
    every other track: a fault confined to one track.  (The model above is
    total; in the program [math.sqrt] raises [OverflowError] in [get_speed]
    and [check_loitering] when a step of a track is too long for a float,
    which the external tracker's boxes do not exclude.) *)
Definition raising_on {A : Type} (tid : Z) (msg : string) (f : PersonTracker -> A)
    (p : PersonTracker) : result A :=
  if (track_id p =? tid)%Z then Raise msg else Ok (f p).

(** ** The selection of the primary threat, whatever the arithmetic *)

(** One round of the loop of [calculate_risk_score] on the accumulator
    [(total_score, primary_threat, max_event_score)], for event scores as the
    interpreter computes them: [computed e] is the double that the body of the
    loop has in [event_score] for the event [e].  (A double is a real number,
    and [>] on doubles is [>] on those reals.)  [score_step] is the instance in
    which the products are carried out exactly. *)
Definition score_step_computed (computed : RiskEvent -> R) (acc : R * string * R)
    (event : RiskEvent) : R * string * R :=
  let '(total_score, primary_threat, max_event_score) := acc in
  let es := computed event in
  if es >? max_event_score
  then (total_score + es, event_type event, es)
  else (total_score + es, primary_threat, max_event_score).

(** [primary_threat] when the loop over [events] ends. *)
Definition primary_threat_computed (computed : RiskEvent -> R) (events : list RiskEvent)
    : string :=
  snd (fst (fold_left (score_step_computed computed) events (0, "normal", 0))).

(** What the loop has found after the events [seen]: no event with a computed
    score above 0, or the first of the events with the highest computed
    score. *)
Definition primary_of (computed : RiskEvent -> R) (seen : list RiskEvent) (threat : string)
    (best : R) : Prop :=
  (best = 0 /\ threat = "normal" /\ Forall (fun e => computed e <= 0) seen)
  \/ (exists before e after,
        seen = before ++ e :: after
        /\ threat = event_type e /\ best = computed e /\ 0 < best
        /\ Forall (fun e' => computed e' < computed e) before
        /\ Forall (fun e' => computed e' <= computed e) after).


(** ** The sightings a frame attaches to a track *)

(** The sightings the loop of [detect_carried_objects] appends, in order: one
    for every detection of a weapon class whose box meets the box
    [(px1, py1, px2, py2)], stamped with the clock reading of its round. *)
Fixpoint carried_sightings (clock : nat -> R) (k : nat) (px1 py1 px2 py2 : Z)
    (detections : list Detection.t) : list DetectedObject.t :=
  match detections with
  | [] => []
  | detection :: detections' =>
      (if str_in (Detection.class detection) weapon_classes then
         match Detection.bbox detection with
         | [dx1; dy1; dx2; dy2] =>
             if negb ((dx2 <? px1)%Z || (dx1 >? px2)%Z || (dy2 <? py1)%Z || (dy1 >? py2)%Z)
             then [DetectedObject.mk (Detection.class detection)
                     (Detection.confidence detection) (clock k)]
             else []
         | _ => []
         end
       else [])
      ++ carried_sightings clock (S k) px1 py1 px2 py2 detections'
  end.

(** ** The rows and the alerts of a call of [process_alerts] *)

(** An incident row of a call at time [now]: it belongs to a track of the
    dict that was not skipped, and carries the time of the call and the score
    and threat that [score] returned, which reached the alert threshold. *)
Definition logged_incident (score : PersonTracker -> R -> result (R * string))
    (self : SecurityMonitoringSystem) (now : R) (persons : list PersonTracker)
    (i : Incident.t) : Prop :=
  Incident.timestamp i = now
  /\ Incident.risk_score i >= risk_alert_threshold self
  /\ exists p, In p persons
       /\ Incident.track_id i = track_id p
       /\ alerts_skip p now = false
       /\ score p now = Ok (Incident.risk_score i, Incident.primary_threat i)
       /\ i = make_incident (set_status p (Incident.primary_threat i)) now
                (Incident.risk_score i) (Incident.primary_threat i).

(** An alert of the call: it repeats an incident row of the call, for a
    threat other than the one last notified for the track, and its level is
    "CRITICAL" from the critical threshold on and "HIGH" below. *)
Definition backed_alert (self : SecurityMonitoringSystem) (persons : list PersonTracker)
    (incidents : list Incident.t) (a : Alert.t) : Prop :=
  (exists i, In i incidents
     /\ Incident.track_id i = Alert.track_id a
     /\ Incident.risk_score i = Alert.risk_score a
     /\ Incident.primary_threat i = Alert.threat_type a
     /\ Incident.timestamp i = Alert.timestamp a)
  /\ (exists p, In p persons
        /\ Alert.track_id a = track_id p
        /\ Alert.threat_type a <> last_notified_threat p)
  /\ Alert.level a
     = (if Alert.risk_score a >=? critical_alert_threshold self then "CRITICAL" else "HIGH").

(** ** Risk bands *)

(** The band of a score in [get_system_statistics]: the chain of tests of its
    loop. *)
Definition risk_band (risk : R) : string :=
  if risk <? 10 then "low"
  else if risk <? 25 then "medium"
  else if risk <? 50 then "high"
  else "critical".

(** The number of the trackers of [persons] whose score at [current_time]
    falls in [band]. *)
Definition count_in_band (current_time : R) (band : string) (persons : list PersonTracker)
    : nat :=
  length (filter (fun p => String.eqb (risk_band (fst (calculate_risk_score p current_time)))
                                      band)
                 persons).

(** ** Trackers touched by an update *)

(** A tracker that the update of this frame has touched: seen at the time of
    the frame, with a position. *)
Definition seen_at (t : R) (p : PersonTracker) : Prop :=
  last_seen p = t /\ positions p <> [] /\ timestamps p <> [].

(** ** The state the monitoring loop maintains *)

(** The two histories of a tracker have one length, within the bound of
    their deques, and so have its sightings. *)
Definition tracker_bounded (p : PersonTracker) : Prop :=
  length (timestamps p) = length (positions p)
  /\ (length (positions p) <= 30)%nat
  /\ (length (detected_objects p) <= 10)%nat.

(** One tracker per id, each within its bounds. *)
Definition system_bounded (self : SecurityMonitoringSystem) : Prop :=
  well_keyed self /\ Forall tracker_bounded (person_trackers self).

(** ** Removal of inactive trackers *)

(** What [self.tracker.reset()] does when [cleanup_trackers] reaches it: the
    external tracker has no such method, the call returns, or it raises (the
    [try] of [cleanup_trackers] catches that). *)
Inductive tracker_reset : Type :=
  | NoResetMethod
  | ResetReturns
  | ResetRaises.

(** [del self.person_trackers[track_id]]. *)
Definition dict_del (persons : list PersonTracker) (tid : Z) : list PersonTracker :=
  filter (fun p => negb (track_id p =? tid)%Z) persons.

(** [SecurityMonitoringSystem.cleanup_trackers]: the system as the call
    leaves it, with the attribute [last_tracker_reset] ([None] also stands for
    the attribute not being set, which the method treats alike).
    [current_time] is [None] or a float; [last_seen] is a float, never
    [None]. *)
Definition cleanup_trackers (reset : tracker_reset) (last_tracker_reset : option R)
    (self : SecurityMonitoringSystem) (current_time : option R)
    : SecurityMonitoringSystem * option R :=
  match current_time with
  | None => (self, last_tracker_reset)
  | Some current_time =>
      let inactive_threshold := 30 in
      let last_tracker_reset :=
        match last_tracker_reset with
        | None => Some current_time
        | Some last =>
            if current_time - last >? 300 then
              match reset with
              | ResetRaises => Some last
              | _ => Some current_time
              end
            else Some last
        end in
      let inactive_ids :=
        map track_id
          (filter (fun tracker => current_time - last_seen tracker >? inactive_threshold)
                  (person_trackers self)) in
      (set_person_trackers self (fold_left dict_del inactive_ids (person_trackers self)),
       last_tracker_reset)
  end.

(** ** Fallback assignment of track ids *)

(** The distance of [assign_track_id] from the centre of a detection to the
    last position of a tracker:
    [math.sqrt((center[0] - last_pos[0])**2 + (center[1] - last_pos[1])**2)]. *)
Definition distance_to (center : Point) (tracker : PersonTracker) : R :=
  let last_pos := py_last (positions tracker) (0, 0)%Z in
  sqrt (IZR ((fst center - fst last_pos) ^ 2 + (snd center - snd last_pos) ^ 2)).

(** One round of the loop of [assign_track_id]; the accumulator is
    [(min_distance, best_id)], where [None] is [float('inf')] for the distance
    and Python's [None] for the id. *)
Definition assign_step (center : Point) (acc : option R * option Z) (tracker : PersonTracker)
    : option R * option Z :=
  match positions tracker with
  | [] => acc
  | _ =>
      let distance := distance_to center tracker in
      if match fst acc with
         | None => true
         | Some min_distance => distance <? min_distance
         end && (distance <? 100)
      then (Some distance, Some (track_id tracker))
      else acc
  end.

(** [max(self.person_trackers.keys(), default=0)]. *)
Definition max_key (persons : list PersonTracker) : Z :=
  match map track_id persons with
  | [] => 0%Z
  | k :: ks => fold_left Z.max ks k
  end.

(** [SecurityMonitoringSystem.assign_track_id]. *)
Definition assign_track_id (self : SecurityMonitoringSystem) (detection : Detection.t) : Z :=
  let center := Detection.center detection in
  match snd (fold_left (assign_step center) (person_trackers self) (None, None)) with
  | Some best_id => best_id
  | None => (max_key (person_trackers self) + 1)%Z
  end.

(** What the loop of [assign_track_id] holds after the trackers [seen]: no
    tracker with a position closer than 100 pixels, or the distance and the id
    of the first of the nearest such trackers. *)
Definition nearest_of (center : Point) (seen : list PersonTracker) (acc : option R * option Z)
    : Prop :=
  (acc = (None, None)
   /\ Forall (fun q => positions q = [] \/ 100 <= distance_to center q) seen)
  \/ (exists p, In p seen
        /\ acc = (Some (distance_to center p), Some (track_id p))
        /\ positions p <> []
        /\ distance_to center p < 100
        /\ Forall (fun q => positions q = [] \/ distance_to center p <= distance_to center q)
                  seen).

(** ** The overlay *)

(** [high_risk_count] of [draw_system_info]: the number behind the
    "ALERTS: n" line of the overlay. *)
Definition high_risk_count (self : SecurityMonitoringSystem) (current_time : R) : nat :=
  length (filter (fun p => (fst (calculate_risk_score p current_time)
                            >? risk_alert_threshold self)
                           && (current_time - last_seen p <? 5))
                 (person_trackers self)).

(** A tracker that [process_alerts] logs and the overlay does not count. *)
Definition logged_not_counted (self : SecurityMonitoringSystem) (current_time : R)
    (p : PersonTracker) : bool :=
  negb (alerts_skip p current_time)
  && (fst (calculate_risk_score p current_time) >=? risk_alert_threshold self)
  && negb ((fst (calculate_risk_score p current_time) >? risk_alert_threshold self)
           && (current_time - last_seen p <? 5)).

(** ** A person on the move *)


(** ** The notifications drawn on a frame *)

(** An entry of [active_alerts_to_draw] in [process_frame]. *)
Module Notification.
Record t : Type := mk {
  level : string;
  track_id : Z;
  threat_type : string;
  risk_score : R
}.
End Notification.

(** Step 5 of [process_frame]: the list [active_alerts_to_draw], built from
    the trackers as the analysis of the frame left them. *)
Definition active_alerts_to_draw (self : SecurityMonitoringSystem) (current_time : R)
    : list Notification.t :=
  flat_map
    (fun person =>
       if negb (String.eqb (status person) "normal") && (current_time - last_seen person <? 5)
       then
         let '(risk_score, primary_threat) := calculate_risk_score person current_time in
         if risk_score >=? risk_alert_threshold self
         then [Notification.mk
                 (if risk_score >=? critical_alert_threshold self then "CRITICAL" else "HIGH")
                 (track_id person) primary_threat risk_score]
         else []
       else [])
    (person_trackers self).

(** A tracker with no event and the status "normal": a new tracker, or one
    on which nothing was ever found. *)
Definition clean_tracker (p : PersonTracker) : Prop :=
  risk_events p = [] /\ status p = "normal".

(** ** The movement pattern, whatever the arithmetic *)

(** The doubles that [get_movement_pattern] compares, as the interpreter
    computes them: the value of [self.get_speed()], the value of [angle_diff]
    at a corner of the path after the fold at [math.pi] (from the three
    positions [positions[i-2]], [positions[i-1]], [positions[i]]), and the
    value of [math.pi / 4].  (A double is a real number, and the comparisons
    of doubles are those of the reals.) *)
Record pattern_arith : Type := mkPatternArith {
  computed_speed : PersonTracker -> R;
  computed_turn : Point -> Point -> Point -> R;
  computed_quarter_pi : R
}.

(** One round of the loop of [get_movement_pattern], on computed values. *)
Definition direction_step_in (A : pattern_arith) (ps : list Point) (direction_changes : nat)
    (i : nat) : nat :=
  if computed_turn A (nth (i - 2) ps (0, 0)%Z) (nth (i - 1) ps (0, 0)%Z) (nth i ps (0, 0)%Z)
     >? computed_quarter_pi A
  then S direction_changes else direction_changes.

(** The value of [direction_changes] after the loop over [range(2, len)]. *)
Definition direction_changes_in (A : pattern_arith) (p : PersonTracker) : nat :=
  fold_left (direction_step_in A (positions p)) (seq 2 (length (positions p) - 2)) O.

(** [change_rate = direction_changes / len(self.positions)]: the quotient of
    two integers of at most 30 (the deque of positions holds no more), which
    division rounds to the double nearest to it; its comparisons with the
    literals 0.3 and 0.1 come out as over the reals. *)
Definition change_rate_in (A : pattern_arith) (p : PersonTracker) : R :=
  INR (direction_changes_in A p) / INR (length (positions p)).

(** [PersonTracker.get_movement_pattern], on computed values. *)
Definition get_movement_pattern_in (A : pattern_arith) (p : PersonTracker) : string :=
  if (length (positions p) <? 5)%nat then "insufficient_data"
  else
    let speed := computed_speed A p in
    if speed <? 5 then "stationary"
    else if speed >? 50 then "running"
    else if change_rate_in A p >? 0.3 then "erratic"
    else if change_rate_in A p <? 0.1 then "linear"
    else "normal".

(** The arithmetic carried out exactly: [get_movement_pattern] is
    [get_movement_pattern_in exact_arith]. *)
Definition exact_arith : pattern_arith :=
  mkPatternArith get_speed
    (fun a b c => wrap_angle (Rabs (heading b c - heading a b)))
    (PI / 4).

(** The corners of a path: its runs of three consecutive positions. *)
Fixpoint corners (ps : list Point) : list (Point * Point * Point) :=
  match ps with
  | a :: ((b :: c :: _) as ps') => (a, b, c) :: corners ps'
  | _ => []
  end.

(** The angle deltas of a path as computed, corner by corner, and those of
    them that exceed the computed [math.pi / 4]. *)
Definition computed_turns (A : pattern_arith) (ps : list Point) : list R :=
  map (fun c => computed_turn A (fst (fst c)) (snd (fst c)) (snd c)) (corners ps).

Definition computed_sharp_turns (A : pattern_arith) (ps : list Point) : list R :=
  filter (fun a => a >? computed_quarter_pi A) (computed_turns A ps).

(** * Properties *)

(** ** Float comparisons *)

Lemma Rltb_true (a b : R) : (a <? b) = true <-> a < b.
Proof. unfold Rltb; destruct (Rlt_dec a b); split; intros; try discriminate; auto; contradiction. Qed.

Lemma Rltb_false (a b : R) : (a <? b) = false <-> b <= a.
Proof. unfold Rltb; destruct (Rlt_dec a b); split; intros; try discriminate; auto; lra. Qed.

Lemma Rgtb_true (a b : R) : (a >? b) = true <-> a > b.
Proof. unfold Rgtb; destruct (Rgt_dec a b); split; intros; try discriminate; auto; contradiction. Qed.

Lemma Rgtb_false (a b : R) : (a >? b) = false <-> a <= b.
Proof. unfold Rgtb; destruct (Rgt_dec a b); split; intros; try discriminate; auto; lra. Qed.

Lemma Rgeb_true (a b : R) : (a >=? b) = true <-> a >= b.
Proof. unfold Rgeb; destruct (Rge_dec a b); split; intros; try discriminate; auto; contradiction. Qed.

Lemma Rgeb_false (a b : R) : (a >=? b) = false <-> a < b.
Proof. unfold Rgeb; destruct (Rge_dec a b); split; intros; try discriminate; auto; lra. Qed.

Lemma Rleb_true (a b : R) : (a <=? b) = true <-> a <= b.
Proof. unfold Rleb; destruct (Rle_dec a b); split; intros; try discriminate; auto; contradiction. Qed.

Lemma Rleb_false (a b : R) : (a <=? b) = false <-> b < a.
Proof. unfold Rleb; destruct (Rle_dec a b); split; intros; try discriminate; auto; lra. Qed.

(** Case analysis on every float comparison in sight, with the facts it
    yields left in the context. *)
Ltac float_cases :=
  repeat match goal with
  | |- context [Rltb ?a ?b] =>
      let E := fresh "E" in
      destruct (Rltb a b) eqn:E;
      [apply Rltb_true in E | apply Rltb_false in E]
  | |- context [Rgtb ?a ?b] =>
      let E := fresh "E" in
      destruct (Rgtb a b) eqn:E;
      [apply Rgtb_true in E | apply Rgtb_false in E]
  | |- context [Rgeb ?a ?b] =>
      let E := fresh "E" in
      destruct (Rgeb a b) eqn:E;
      [apply Rgeb_true in E | apply Rgeb_false in E]
  | |- context [Rleb ?a ?b] =>
      let E := fresh "E" in
      destruct (Rleb a b) eqn:E;
      [apply Rleb_true in E | apply Rleb_false in E]
  end.

(** Rewriting of a float comparison whose outcome [lra] can decide. *)
Ltac float_decide :=
  repeat match goal with
  | |- context [Rltb ?a ?b] =>
      first [ replace (Rltb a b) with true by (symmetry; apply Rltb_true; lra)
            | replace (Rltb a b) with false by (symmetry; apply Rltb_false; lra) ]
  | |- context [Rgtb ?a ?b] =>
      first [ replace (Rgtb a b) with true by (symmetry; apply Rgtb_true; lra)
            | replace (Rgtb a b) with false by (symmetry; apply Rgtb_false; lra) ]
  | |- context [Rgeb ?a ?b] =>
      first [ replace (Rgeb a b) with true by (symmetry; apply Rgeb_true; lra)
            | replace (Rgeb a b) with false by (symmetry; apply Rgeb_false; lra) ]
  | |- context [Rleb ?a ?b] =>
      first [ replace (Rleb a b) with true by (symmetry; apply Rleb_true; lra)
            | replace (Rleb a b) with false by (symmetry; apply Rleb_false; lra) ]
  end.

(** ** The bounded history of a track *)

Lemma deque_append_length {A : Type} (n : nat) (d : list A) (x : A) :
  (length d <= S n)%nat ->
  length (deque_append (S n) d x) = Nat.min (S (length d)) (S n).
Proof.
  intros Hd. unfold deque_append.
  destruct (Nat.ltb_spec (length d) (S n)) as [Hlt | Hge].
  - rewrite length_app. cbn [length]. lia.
  - rewrite length_app. destruct d as [| a d']; cbn [length tl] in *; lia.
Qed.

Lemma deque_append_last_n {A : Type} (n : nat) (d : list A) (x : A) :
  (length d <= S n)%nat ->
  deque_append (S n) d x = last_n (S n) (d ++ [x]).
Proof.
  intros Hd. unfold deque_append, last_n. rewrite length_app. simpl length.
  destruct (Nat.ltb_spec (length d) (S n)) as [Hlt | Hge].
  - replace (length d + 1 - S n)%nat with O by lia. reflexivity.
  - replace (length d + 1 - S n)%nat with 1%nat by lia.
    destruct d as [| a d']; cbn [length tl skipn] in *; [lia | reflexivity].
Qed.

Lemma last_n_length {A : Type} (n : nat) (l : list A) :
  length (last_n n l) = Nat.min (length l) n.
Proof. unfold last_n. rewrite length_skipn. lia. Qed.

Lemma last_n_all {A : Type} (n : nat) (l : list A) :
  (length l <= n)%nat -> last_n n l = l.
Proof.
  intros H. unfold last_n. replace (length l - n)%nat with O by lia. reflexivity.
Qed.

Lemma last_n_app_l {A : Type} (n : nat) (l r : list A) :
  last_n n (last_n n l ++ r) = last_n n (l ++ r).
Proof.
  destruct (Nat.le_gt_cases (length l) n) as [Hle | Hgt].
  - rewrite (last_n_all n l) by exact Hle. reflexivity.
  - unfold last_n at 1 3. rewrite !length_app, last_n_length.
    replace (Nat.min (length l) n + length r - n)%nat with (length r) by lia.
    replace (length l + length r - n)%nat with (length r + (length l - n))%nat by lia.
    rewrite <- skipn_skipn. f_equal.
    rewrite skipn_app.
    replace (length l - n - length l)%nat with O by lia.
    reflexivity.
Qed.

Lemma add_positions_history (p : PersonTracker) (calls : list position_call) :
  (length (positions p) <= 30)%nat ->
  (length (timestamps p) <= 30)%nat ->
  positions (add_positions p calls)
    = last_n 30 (positions p ++ map (fun c => fst (fst c)) calls)
  /\ timestamps (add_positions p calls)
    = last_n 30 (timestamps p ++ map (fun c => snd (fst c)) calls).
Proof.
  revert p. induction calls as [| c calls IH]; intros p Hp Ht.
  - cbn [add_positions fold_left map]. rewrite !app_nil_r.
    rewrite !last_n_all by assumption. split; reflexivity.
  - cbn [add_positions fold_left map].
    change (fold_left _ calls ?q) with (add_positions q calls).
    destruct (IH (add_position p (fst (fst c)) (snd (fst c)) (snd c))) as [IHp IHt].
    + unfold add_position, set_history; cbn [positions].
      rewrite deque_append_length by exact Hp. lia.
    + unfold add_position, set_history; cbn [timestamps].
      rewrite deque_append_length by exact Ht. lia.
    + rewrite IHp, IHt. unfold add_position, set_history; cbn [positions timestamps].
      rewrite !deque_append_last_n by assumption.
      rewrite !last_n_app_l, <- !app_assoc. split; reflexivity.
Qed.

(** C10.  After any sequence of [add_position] calls on a new tracker, the
    two history deques hold the positions and the timestamps of the same (at
    most 30) latest calls: they have one length, never above 30, every index
    of [positions] is an index of [timestamps] (so the pairing in [get_speed]
    is defined), and a further call on full deques drops the oldest entry of
    both. *)
Theorem add_position_keeps_histories_aligned :
  forall (tid : Z) (calls : list position_call),
    let p := add_positions (new_tracker tid) calls in
    positions p = last_n 30 (map (fun c => fst (fst c)) calls)
    /\ timestamps p = last_n 30 (map (fun c => snd (fst c)) calls)
    /\ length (positions p) = length (timestamps p)
    /\ (length (positions p) <= 30)%nat
    /\ (forall i, (i < length (positions p))%nat ->
          exists pos ts, nth_error (positions p) i = Some pos
                         /\ nth_error (timestamps p) i = Some ts)
    /\ (forall pos ts bbox, length (positions p) = 30%nat ->
          positions (add_position p pos ts bbox) = tl (positions p) ++ [pos]
          /\ timestamps (add_position p pos ts bbox) = tl (timestamps p) ++ [ts]).
Proof.
  intros tid calls p.
  destruct (add_positions_history (new_tracker tid) calls) as [Hp Ht];
    [simpl; lia | simpl; lia |].
  cbn [new_tracker positions timestamps app] in Hp, Ht. fold p in Hp, Ht.
  assert (Hlen : length (positions p) = length (timestamps p)).
  { rewrite Hp, Ht, !last_n_length, !length_map. reflexivity. }
  assert (Hle : (length (positions p) <= 30)%nat).
  { rewrite Hp, last_n_length. lia. }
  repeat split; try assumption.
  - intros i Hi.
    destruct (nth_error (positions p) i) as [pos |] eqn:Epos.
    + destruct (nth_error (timestamps p) i) as [ts |] eqn:Ets.
      * exists pos, ts. split; reflexivity.
      * apply nth_error_None in Ets. lia.
    + apply nth_error_None in Epos. lia.
  - unfold add_position, set_history; cbn [positions]. unfold deque_append.
    replace (length (positions p) <? 30)%nat with false
      by (symmetry; apply Nat.ltb_ge; lia). reflexivity.
  - unfold add_position, set_history; cbn [timestamps]. unfold deque_append.
    replace (length (timestamps p) <? 30)%nat with false
      by (symmetry; apply Nat.ltb_ge; lia). reflexivity.
Qed.

(** An instance: thirty calls fill both deques; the thirty-first drops the
    oldest position and the oldest timestamp together. *)
Lemma add_position_keeps_histories_aligned_witness :
  let calls := map (fun k => ((Z.of_nat k, 0%Z), INR k, [0; 0; 1; 1]%Z)) (seq 0 30) in
  let p := add_positions (new_tracker 1) calls in
  length (positions p) = 30%nat
  /\ positions (add_position p (30, 0)%Z 30 [0; 0; 1; 1]%Z) = tl (positions p) ++ [(30, 0)%Z]
  /\ timestamps (add_position p (30, 0)%Z 30 [0; 0; 1; 1]%Z) = tl (timestamps p) ++ [30].
Proof.
  intros calls p.
  assert (length (positions p) = 30%nat) as Hlen by reflexivity.
  split; [exact Hlen |].
  destruct (add_position_keeps_histories_aligned 1 calls) as (_ & _ & _ & _ & _ & Hfull).
  exact (Hfull (30, 0)%Z 30 [0; 0; 1; 1]%Z Hlen).
Defined.

(** ** The risk score *)

Lemma base_score_nonneg (ty : string) : 0 <= dict_get base_risk_scores ty 0.
Proof.
  unfold base_risk_scores. cbn [dict_get].
  repeat match goal with
  | |- context [String.eqb ?a ?b] => destruct (String.eqb a b); [lra |]
  end. lra.
Qed.

Lemma confidence_factor_cases (c : R) :
  dict_get confidence_weights (_get_confidence_level c) 1
  = if c >=? 0.8 then 1 else if c >=? 0.6 then 0.8 else 0.5.
Proof.
  unfold _get_confidence_level.
  destruct (c >=? 0.8); [reflexivity |].
  destruct (c >=? 0.6); reflexivity.
Qed.

Lemma confidence_factor_pos (c : R) :
  0 < dict_get confidence_weights (_get_confidence_level c) 1.
Proof. rewrite confidence_factor_cases. float_cases; lra. Qed.

Lemma confidence_factor_mono (c c' : R) :
  c <= c' ->
  dict_get confidence_weights (_get_confidence_level c) 1
  <= dict_get confidence_weights (_get_confidence_level c') 1.
Proof. intros H. rewrite !confidence_factor_cases. float_cases; lra. Qed.

Lemma py_max_ge_l (a b : R) : a <= py_max a b.
Proof. unfold py_max. float_cases; lra. Qed.

Lemma time_factor_pos (event_time current_time : R) :
  0 < _calculate_time_factor event_time current_time.
Proof.
  unfold _calculate_time_factor.
  pose proof (py_max_ge_l 0.3 (exp (- (current_time - event_time) / 300))).
  float_cases; lra.
Qed.

Lemma duration_factor_pos (d : R) : d > 30 -> 0 < 1 + py_min (d / 60) 2 * 0.3.
Proof. intros H. unfold py_min. float_cases; lra. Qed.

Lemma event_score_factored (e : RiskEvent) (now : R) :
  event_score e now
  = dict_get confidence_weights (_get_confidence_level (confidence e)) 1
    * event_weight e now.
Proof. unfold event_score, event_weight. destruct (duration e >? 30); ring. Qed.

Lemma event_weight_nonneg (e : RiskEvent) (now : R) : 0 <= event_weight e now.
Proof.
  unfold event_weight.
  pose proof (base_score_nonneg (event_type e)).
  pose proof (time_factor_pos (timestamp e) now).
  apply Rmult_le_pos; [apply Rmult_le_pos; lra |].
  destruct (duration e >? 30) eqn:E; [| lra].
  apply Rgtb_true in E. pose proof (duration_factor_pos _ E). lra.
Qed.

Lemma event_score_nonneg (e : RiskEvent) (now : R) : 0 <= event_score e now.
Proof.
  rewrite event_score_factored. apply Rmult_le_pos.
  - pose proof (confidence_factor_pos (confidence e)). lra.
  - apply event_weight_nonneg.
Qed.

Lemma events_total_nonneg (now : R) (events : list RiskEvent) :
  0 <= events_total now events.
Proof.
  induction events as [| e events IH]; simpl; [lra |].
  pose proof (event_score_nonneg e now). lra.
Qed.

Lemma score_loop_total (now : R) (events : list RiskEvent) (t : R) (th : string) (m : R) :
  fst (fst (fold_left (score_step now) events (t, th, m))) = t + events_total now events.
Proof.
  revert t th m. induction events as [| e events IH]; intros t th m.
  - simpl. lra.
  - cbn [fold_left events_total fold_right].
    assert (exists th' m', score_step now (t, th, m) e = (t + event_score e now, th', m'))
      as (th' & m' & E).
    { unfold score_step. destruct (event_score e now >? m); eauto. }
    rewrite E, IH. fold (events_total now events). lra.
Qed.

Lemma calculate_risk_score_total (p : PersonTracker) (now : R) :
  fst (calculate_risk_score p now)
  = py_min (events_total now (risk_events p) * pattern_multiplier p
            * escalation_multiplier p now) 100.
Proof.
  unfold calculate_risk_score, pattern_multiplier, escalation_multiplier.
  pose proof (score_loop_total now (risk_events p) 0 "normal" 0) as Ht.
  destruct (fold_left (score_step now) (risk_events p) (0, "normal", 0)) as [[t th] m].
  cbn [fst] in Ht. subst t. cbn [fst]. f_equal.
  destruct (String.eqb (get_movement_pattern p) "erratic");
    [| destruct (String.eqb (get_movement_pattern p) "running");
       [| destruct (String.eqb (get_movement_pattern p) "stationary"
                    && (0 <? length (risk_events p))%nat)]];
    destruct (2 <? recent_event_count p now)%nat; ring.
Qed.

Lemma pattern_multiplier_pos (p : PersonTracker) : 0 < pattern_multiplier p.
Proof.
  unfold pattern_multiplier.
  repeat match goal with
  | |- context [if ?b then _ else _] => destruct b; [lra |]
  end. lra.
Qed.

Lemma escalation_multiplier_pos (p : PersonTracker) (now : R) :
  0 < escalation_multiplier p now.
Proof. unfold escalation_multiplier. destruct (2 <? _)%nat; lra. Qed.

Lemma py_min_mono (a b c : R) : a <= b -> py_min a c <= py_min b c.
Proof. intros H. unfold py_min. float_cases; lra. Qed.

(** C7.  Whatever the events of a track (their number, types, confidences,
    timestamps and durations) and whatever the current time, the total score
    returned by [calculate_risk_score] lies in the interval [0, 100]. *)
Theorem calculate_risk_score_in_0_100 :
  forall (p : PersonTracker) (now : R),
    0 <= fst (calculate_risk_score p now) <= 100.
Proof.
  intros p now. rewrite calculate_risk_score_total.
  pose proof (events_total_nonneg now (risk_events p)) as Ht.
  pose proof (pattern_multiplier_pos p) as Hp.
  pose proof (escalation_multiplier_pos p now) as He.
  assert (0 <= events_total now (risk_events p) * pattern_multiplier p
               * escalation_multiplier p now) as Hprod.
  { apply Rmult_le_pos; [apply Rmult_le_pos |]; lra. }
  unfold py_min. float_cases; lra.
Qed.

Lemma events_total_app (now : R) (l r : list RiskEvent) :
  events_total now (l ++ r) = events_total now l + events_total now r.
Proof.
  induction l as [| e l IH]; simpl; [lra |].
  fold (events_total now (l ++ r)) (events_total now l). rewrite IH. lra.
Qed.

Lemma event_score_confidence_mono (e : RiskEvent) (c now : R) :
  confidence e <= c -> event_score e now <= event_score (with_confidence e c) now.
Proof.
  intros H. rewrite !event_score_factored.
  change (event_weight (with_confidence e c) now) with (event_weight e now).
  apply Rmult_le_compat_r; [apply event_weight_nonneg |].
  apply confidence_factor_mono. exact H.
Qed.

Lemma filter_length_replace {A : Type} (f : A -> bool) (l r : list A) (a b : A) :
  f a = f b -> length (filter f (l ++ a :: r)) = length (filter f (l ++ b :: r)).
Proof.
  intros H. rewrite !filter_app, !length_app. cbn [filter]. rewrite H.
  destruct (f b); reflexivity.
Qed.

(** C8.  Replacing the confidence of one event of a track by a larger value,
    with every event type, timestamp and duration and the position history
    unchanged, never decreases the total score returned by
    [calculate_risk_score]. *)
Theorem score_monotone_in_confidence :
  forall (p : PersonTracker) (now : R) (before after : list RiskEvent)
         (e : RiskEvent) (c : R),
    risk_events p = before ++ e :: after ->
    confidence e <= c ->
    fst (calculate_risk_score p now)
    <= fst (calculate_risk_score
              (set_risk_events p (before ++ with_confidence e c :: after)) now).
Proof.
  intros p now before after e c Hev Hc.
  rewrite !calculate_risk_score_total.
  set (p' := set_risk_events p (before ++ with_confidence e c :: after)).
  assert (pattern_multiplier p' = pattern_multiplier p) as Hpat.
  { unfold pattern_multiplier.
    change (get_movement_pattern p') with (get_movement_pattern p).
    replace (length (risk_events p')) with (length (risk_events p)); [reflexivity |].
    rewrite Hev. subst p'. cbn [risk_events set_risk_events].
    rewrite !length_app. reflexivity. }
  assert (escalation_multiplier p' now = escalation_multiplier p now) as Hesc.
  { unfold escalation_multiplier, recent_event_count.
    rewrite Hev. subst p'. cbn [risk_events set_risk_events].
    rewrite (filter_length_replace _ before after (with_confidence e c) e);
      reflexivity. }
  rewrite Hpat, Hesc. apply py_min_mono.
  pose proof (pattern_multiplier_pos p). pose proof (escalation_multiplier_pos p now).
  apply Rmult_le_compat_r; [lra |]. apply Rmult_le_compat_r; [lra |].
  rewrite Hev. subst p'. cbn [risk_events set_risk_events].
  rewrite !events_total_app. cbn [events_total fold_right].
  pose proof (event_score_confidence_mono e c now Hc). lra.
Qed.

(** An instance: an intrusion event seen 5 seconds ago, its confidence raised
    from 0.5 to 0.9. *)
Lemma score_monotone_in_confidence_witness :
  let e := mkRiskEvent "intrusion" 15 0.5 0 0 (0, 0)%Z in
  let p := set_risk_events (new_tracker 1) [e] in
  fst (calculate_risk_score p 5)
  <= fst (calculate_risk_score (set_risk_events p [with_confidence e 0.9]) 5).
Proof.
  intros e p.
  apply (score_monotone_in_confidence p 5 [] [] e 0.9).
  - reflexivity.
  - simpl. lra.
Defined.

(** ** The stored seed of an event *)

Lemma score_loop_forget (now : R) (events : list RiskEvent) (acc : R * string * R) :
  fold_left (score_step now) (map (fun e => with_risk_score e 0) events) acc
  = fold_left (score_step now) events acc.
Proof.
  revert acc. induction events as [| e events IH]; intros acc; [reflexivity |].
  cbn [map fold_left]. rewrite IH. reflexivity.
Qed.

Lemma filter_map_length {A : Type} (g : A -> bool) (f : A -> A) (l : list A) :
  (forall a, g (f a) = g a) -> length (filter g (map f l)) = length (filter g l).
Proof.
  intros H. induction l as [| a l IH]; [reflexivity |].
  cbn [map filter]. rewrite H. destruct (g a); cbn [length]; rewrite IH; reflexivity.
Qed.

Lemma calculate_risk_score_forget (p : PersonTracker) (now : R) :
  calculate_risk_score (forget_risk_scores p) now = calculate_risk_score p now.
Proof.
  unfold calculate_risk_score.
  change (get_movement_pattern (forget_risk_scores p)) with (get_movement_pattern p).
  unfold recent_event_count.
  cbn [forget_risk_scores risk_events set_risk_events].
  rewrite score_loop_forget, length_map, filter_map_length by reflexivity.
  reflexivity.
Qed.

Lemma check_intrusion_loop_event (zones : list SecurityZone) (q : PersonTracker)
    (t : R) (pos : Point) (e : RiskEvent) :
  check_intrusion_loop zones q t pos = Some e ->
  exists seed, (seed = 12 \/ seed = 15) /\ e = mkRiskEvent "intrusion" seed 0.9 t 0 pos.
Proof.
  induction zones as [| zone zones IH]; cbn [check_intrusion_loop]; [discriminate |].
  destruct (_ && _ && _).
  - intros H. injection H as <-.
    destruct (String.eqb (access_level zone) "critical"); eauto.
  - exact IH.
Qed.

Lemma check_intrusion_event (self : SecurityMonitoringSystem) (q : PersonTracker)
    (t : R) (e : RiskEvent) :
  check_intrusion self q t = Some e ->
  exists seed, (seed = 12 \/ seed = 15)
    /\ e = mkRiskEvent "intrusion" seed 0.9 t 0 (py_last (positions q) (0, 0)%Z).
Proof.
  unfold check_intrusion. destruct (positions q) as [| a l] eqn:E; [discriminate |].
  apply check_intrusion_loop_event.
Qed.

(** C9.  The pair (total score, primary threat) returned by
    [calculate_risk_score] does not depend on the [risk_score] stored on the
    events: two tracks that differ at most in those values get equal results.
    In particular the intrusion events that [check_intrusion] creates for one
    person under two zone configurations (seed 12 for a restricted zone, 15
    for a critical one) are equal up to the seed and score the same. *)
Theorem score_ignores_stored_risk_score :
  forall (p p' : PersonTracker) (now : R),
    forget_risk_scores p = forget_risk_scores p' ->
    calculate_risk_score p now = calculate_risk_score p' now
    /\ (forall (self self' : SecurityMonitoringSystem) (q : PersonTracker)
               (t : R) (e e' : RiskEvent),
          check_intrusion self q t = Some e ->
          check_intrusion self' q t = Some e' ->
          with_risk_score e 0 = with_risk_score e' 0
          /\ event_score e now = event_score e' now).
Proof.
  intros p p' now H. split.
  - rewrite <- (calculate_risk_score_forget p), <- (calculate_risk_score_forget p'), H.
    reflexivity.
  - intros self self' q t e e' He He'.
    destruct (check_intrusion_event _ _ _ _ He) as (s & _ & ->).
    destruct (check_intrusion_event _ _ _ _ He') as (s' & _ & ->).
    split; reflexivity.
Qed.

(** An instance: one person inside a square zone, the zone restricted in one
    configuration (seed 12) and critical in the other (seed 15). *)
Lemma score_ignores_stored_risk_score_witness :
  let square := [(0, 0); (10, 0); (10, 10); (0, 10)]%Z in
  let sys_r := mkSystem [] 10 20 40 0 [] [mkSecurityZone "lab" "restricted" square] in
  let sys_c := mkSystem [] 10 20 40 0 [] [mkSecurityZone "lab" "critical" square] in
  let q := add_position (new_tracker 1) (5, 5)%Z 0 [0; 0; 10; 10]%Z in
  let e_r := mkRiskEvent "intrusion" 12 0.9 0 0 (5, 5)%Z in
  let e_c := mkRiskEvent "intrusion" 15 0.9 0 0 (5, 5)%Z in
  check_intrusion sys_r q 0 = Some e_r
  /\ check_intrusion sys_c q 0 = Some e_c
  /\ calculate_risk_score (set_risk_events q [e_r]) 1
     = calculate_risk_score (set_risk_events q [e_c]) 1.
Proof.
  intros square sys_r sys_c q e_r e_c.
  split; [reflexivity | split; [reflexivity |]].
  apply (score_ignores_stored_risk_score
           (set_risk_events q [e_r]) (set_risk_events q [e_c]) 1).
  reflexivity.
Defined.

(** ** Zone geometry *)

(** A point that is a vertex of the contour is reported as lying on it, from
    whatever edge the loop starts. *)
Lemma pointPolygonTest_loop_vertex (cnt : list Point) (v v0 : Point) (counter : Z) :
  In v cnt -> pointPolygonTest_loop v v0 cnt counter = 0%Z.
Proof.
  revert v0 counter. induction cnt as [| w cnt IH]; intros v0 counter Hin; [contradiction |].
  cbn [pointPolygonTest_loop].
  destruct (Z.eq_dec (fst v) (fst w)) as [Ex | Ex];
  destruct (Z.eq_dec (snd v) (snd w)) as [Ey | Ey].
  - (* v is the end of this edge *)
    rewrite <- Ex, <- Ey.
    destruct ((snd v0 <=? snd v)%Z) eqn:E0.
    + rewrite Z.leb_refl, !Z.eqb_refl. reflexivity.
    + rewrite Z.leb_refl.
      replace (snd v0 >? snd v)%Z with true
        by (symmetry; apply Z.gtb_lt; apply Z.leb_gt in E0; lia).
      replace (snd v >? snd v)%Z with false
        by (symmetry; rewrite Z.gtb_ltb; apply Z.ltb_irrefl).
      rewrite Z.ltb_irrefl, !andb_false_r. cbn [andb orb].
      replace ((snd v - snd v0) * (fst v - fst v0)
               - (fst v - fst v0) * (snd v - snd v0))%Z with 0%Z by ring.
      rewrite Z.eqb_refl. reflexivity.
  - assert (In v cnt) as Hin'.
    { destruct Hin as [<- | Hin]; [contradiction | exact Hin]. }
    repeat match goal with
    | |- context [if ?b then _ else _] => destruct b
    end; try reflexivity; apply IH; exact Hin'.
  - assert (In v cnt) as Hin'.
    { destruct Hin as [<- | Hin]; [contradiction | exact Hin]. }
    repeat match goal with
    | |- context [if ?b then _ else _] => destruct b
    end; try reflexivity; apply IH; exact Hin'.
  - assert (In v cnt) as Hin'.
    { destruct Hin as [<- | Hin]; [contradiction | exact Hin]. }
    repeat match goal with
    | |- context [if ?b then _ else _] => destruct b
    end; try reflexivity; apply IH; exact Hin'.
Qed.

Lemma contains_point_vertex (zone : SecurityZone) (v : Point) :
  In v (points zone) -> contains_point zone v = true.
Proof.
  intros Hin. unfold contains_point, pointPolygonTest.
  destruct (points zone) as [| w cnt] eqn:E; [contradiction |].
  rewrite pointPolygonTest_loop_vertex by exact Hin. reflexivity.
Qed.

(** Case analysis on every integer comparison of the goal. *)
Ltac int_cases :=
  repeat match goal with
  | |- context [(?a >? ?b)%Z] => rewrite (Z.gtb_ltb a b)
  | |- context [(?a <=? ?b)%Z] => destruct (Z.leb_spec a b)
  | |- context [(?a <? ?b)%Z] => destruct (Z.ltb_spec a b)
  | |- context [(?a =? ?b)%Z] => destruct (Z.eqb_spec a b)
  end.

Lemma contains_point_single (nm lvl : string) (v pt : Point) :
  contains_point (mkSecurityZone nm lvl [v]) pt = true <-> pt = v.
Proof.
  split.
  - unfold contains_point, pointPolygonTest. cbn [points last pointPolygonTest_loop].
    destruct pt as [x y], v as [vx vy]. cbn [fst snd].
    int_cases; cbn; intros Hres; first [discriminate Hres | f_equal; lia].
  - intros ->. apply contains_point_vertex. left. reflexivity.
Qed.


Ltac int_cases_pruned :=
  repeat match goal with
  | |- context [(?a >? ?b)%Z] => rewrite (Z.gtb_ltb a b)
  | |- context [(?a <=? ?b)%Z] => destruct (Z.leb_spec a b); try lia
  | |- context [(?a <? ?b)%Z] => destruct (Z.ltb_spec a b); try lia
  | |- context [(?a =? ?b)%Z] => destruct (Z.eqb_spec a b); try lia
  end.

Lemma contains_point_pair (nm lvl : string) (a b pt : Point) :
  contains_point (mkSecurityZone nm lvl [a; b]) pt = true <-> on_segment a b pt.
Proof.
  unfold contains_point, pointPolygonTest, on_segment.
  cbn [points last pointPolygonTest_loop].
  destruct pt as [x y], a as [ax ay], b as [bx by']. cbn [fst snd].
  assert (((y - by') * (ax - bx) - (x - bx) * (ay - by'))%Z
          = (- ((y - ay) * (bx - ax) - (x - ax) * (by' - ay)))%Z) as Hd by ring.
  rewrite Hd. clear Hd.
  set (d := ((y - ay) * (bx - ax) - (x - ax) * (by' - ay))%Z).
  assert (Hdef : d = ((y - ay) * (bx - ax) - (x - ax) * (by' - ay))%Z) by reflexivity.
  clearbody d.
  destruct (Z.ltb_spec by' ay), (Z.ltb_spec ay by'); try lia.
  all: split.
  all: try (intros (H0' & Hx & Hy); int_cases_pruned; cbn; try reflexivity;
            exfalso; nia).
  all: int_cases_pruned; cbn; intros Hres; try discriminate Hres.
  all: try (split; [ try lia | lia ]).
  all: try (subst; nia).
Qed.

(** C4 (failing input).  A zone with no vertex contains no point, and the
    square zone with vertices (0,0), (10,0), (10,10), (0,10) contains (5,5)
    and does not contain (15,15).  But a zone with one vertex contains that
    vertex, and a zone with two vertices contains the points of the closed
    segment between them: [contains_point] guards only the empty array and
    accepts the result 0 ("on the contour") of [pointPolygonTest], where the
    specification wants a zone with fewer than 3 vertices to contain nothing.
    So a restricted zone with the single vertex (3, 3) raises an intrusion
    for a person standing on (3, 3). *)
Theorem zone_containment :
  forall (nm lvl : string),
    (forall pt, contains_point (mkSecurityZone nm lvl []) pt = false)
    /\ (forall v pt, contains_point (mkSecurityZone nm lvl [v]) pt = true <-> pt = v)
    /\ (forall a b pt,
          contains_point (mkSecurityZone nm lvl [a; b]) pt = true <-> on_segment a b pt)
    /\ contains_point (mkSecurityZone nm lvl unit_square) (5, 5)%Z = true
    /\ contains_point (mkSecurityZone nm lvl unit_square) (15, 15)%Z = false
    /\ check_intrusion
         (mkSystem [] 10 20 40 0 [] [mkSecurityZone nm "restricted" [(3, 3)%Z]])
         (add_position (new_tracker 1) (3, 3)%Z 0 [2; 2; 4; 4]%Z) 0
       = Some (mkRiskEvent "intrusion" 12 0.9 0 0 (3, 3)%Z).
Proof.
  intros nm lvl. split; [| split; [| split; [| split; [| split]]]].
  - intros pt. reflexivity.
  - intros v pt. apply contains_point_single.
  - intros a b pt. apply contains_point_pair.
  - reflexivity.
  - reflexivity.
  - reflexivity.
Qed.

(** A zone with a single vertex (so with "2 or fewer points") contains that
    vertex: [pointPolygonTest] reports 0, "on the contour", and
    [contains_point] accepts every result [>= 0]. *)
Lemma zone_containment_counterexample :
  let zone := mkSecurityZone "door" "restricted" [(3, 3)%Z] in
  (length (points zone) <= 2)%nat
  /\ pointPolygonTest (points zone) (3, 3)%Z = 0%Z
  /\ contains_point zone (3, 3)%Z = true.
Proof.
  intros zone. split; [simpl; lia | split; reflexivity].
Qed.

(** ** The movement pattern *)








Lemma headings_length (ps : list Point) : length (headings ps) = (length ps - 1)%nat.
Proof.
  induction ps as [| a ps IH]; [reflexivity |].
  destruct ps as [| b ps]; [reflexivity |].
  cbn [headings length] in *. lia.
Qed.

Lemma angle_deltas_length (hs : list R) : length (angle_deltas hs) = (length hs - 1)%nat.
Proof.
  induction hs as [| a hs IH]; [reflexivity |].
  destruct hs as [| b hs]; [reflexivity |].
  cbn [angle_deltas length] in *. lia.
Qed.

Lemma turn_angles_length (ps : list Point) : length (turn_angles ps) = (length ps - 2)%nat.
Proof. unfold turn_angles. rewrite angle_deltas_length, headings_length. lia. Qed.




Lemma step_length_sq (a b : Point) (k : Z) :
  (0 <= k)%Z ->
  ((fst b - fst a) * (fst b - fst a) + (snd b - snd a) * (snd b - snd a) = k * k)%Z ->
  step_length a b = IZR k.
Proof.
  intros Hk H. unfold step_length. cbv zeta. rewrite H, mult_IZR.
  apply sqrt_square. apply IZR_le in Hk. exact Hk.
Qed.




Lemma walk_positions : positions walk = [(0, 0); (10, 0); (20, 0); (30, 0); (30, 10)]%Z.
Proof. reflexivity. Qed.

Lemma walk_timestamps : timestamps walk = [0; 1; 2; 3; 4].
Proof. reflexivity. Qed.







Lemma corners_by_index (ps : list Point) :
  corners ps
  = map (fun i => (nth (i - 2) ps (0, 0)%Z, nth (i - 1) ps (0, 0)%Z, nth i ps (0, 0)%Z))
        (seq 2 (length ps - 2)).
Proof.
  induction ps as [| a [| b [| c ps]] IH]; try reflexivity.
  change (corners (a :: b :: c :: ps)) with ((a, b, c) :: corners (b :: c :: ps)).
  rewrite IH.
  replace (length (a :: b :: c :: ps) - 2)%nat with (S (length (b :: c :: ps) - 2))
    by (cbn [length]; lia).
  cbn [seq map]. f_equal.
  rewrite <- (seq_shift (length (b :: c :: ps) - 2) 2), map_map. apply map_ext_in.
  intros i Hi. apply in_seq in Hi.
  destruct i as [| [| i]]; try lia.
  cbn [Nat.sub nth]. rewrite ?Nat.sub_0_r. reflexivity.
Qed.

Lemma count_loop {A : Type} (g : A -> bool) (l : list A) (acc : nat) :
  fold_left (fun n a => if g a then S n else n) l acc = (acc + length (filter g l))%nat.
Proof.
  revert acc. induction l as [| a l IH]; intros acc; cbn [fold_left filter length]; [lia |].
  rewrite IH. destruct (g a); cbn [length]; lia.
Qed.

Lemma direction_changes_in_corners (A : pattern_arith) (p : PersonTracker) :
  direction_changes_in A p = length (computed_sharp_turns A (positions p)).
Proof.
  unfold direction_changes_in, computed_sharp_turns, computed_turns.
  rewrite corners_by_index, map_map. cbn [fst snd].
  unfold direction_step_in.
  rewrite (count_loop
             (fun i => computed_turn A (nth (i - 2) (positions p) (0, 0)%Z)
                         (nth (i - 1) (positions p) (0, 0)%Z) (nth i (positions p) (0, 0)%Z)
                       >? computed_quarter_pi A)).
  cbn [Nat.add].
  induction (seq 2 (length (positions p) - 2)) as [| i l IH]; [reflexivity |].
  cbn [map filter]. destruct (_ >? _); cbn [length]; rewrite IH; reflexivity.
Qed.

Lemma get_movement_pattern_exact (p : PersonTracker) :
  get_movement_pattern p = get_movement_pattern_in exact_arith p.
Proof. reflexivity. Qed.




(** A path of integer steps with three turns of 45 degrees, and an
    arithmetic in which the computed angle delta at each corner is the double
    0.7853981633974487, just above the double 0.7853981633974483 of
    [math.pi / 4], and the computed speed lies between 5 and 50: every corner
    counts as a direction change, the rate is 3/5 and the pattern is
    "erratic". *)
Lemma rounded_diagonal_turns :
  let p := set_history (new_tracker 9)
             [(30, 20); (20, 18); (16, 12); (6, 10); (2, 4)]%Z [0; 1; 2; 3; 4] 4
             [1; 3; 3; 5]%Z in
  let doubles := mkPatternArith (fun _ => 8.7) (fun _ _ _ => 0.7853981633974487)
                   0.7853981633974483 in
  length (computed_sharp_turns doubles (positions p)) = 3%nat
  /\ change_rate_in doubles p = 3 / 5
  /\ get_movement_pattern_in doubles p = "erratic".
Proof.
  intros p doubles.
  assert (length (computed_sharp_turns doubles (positions p)) = 3%nat) as Hc.
  { unfold computed_sharp_turns, computed_turns. subst p doubles.
    cbn [positions set_history corners map computed_turn computed_quarter_pi filter].
    float_decide. reflexivity. }
  assert (change_rate_in doubles p = 3 / 5) as Hr.
  { unfold change_rate_in. rewrite direction_changes_in_corners, Hc.
    subst p. cbn [positions set_history length]. simpl INR. lra. }
  split; [exact Hc |]. split; [exact Hr |].
  unfold get_movement_pattern_in. rewrite Hr. subst p doubles.
  cbn [positions set_history length Nat.ltb Nat.leb computed_speed]. cbv zeta.
  float_decide. reflexivity.
Qed.

(** The exact arithmetic predicts the pattern wherever the computed values
    decide the comparisons of [get_movement_pattern] as the exact ones do: the
    two tests of the speed, and at every corner the test against
    [math.pi / 4]. *)
Lemma exact_pattern_when_comparisons_agree (A : pattern_arith) (p : PersonTracker) :
  (computed_speed A p <? 5) = (get_speed p <? 5) ->
  (computed_speed A p >? 50) = (get_speed p >? 50) ->
  Forall (fun c => (computed_turn A (fst (fst c)) (snd (fst c)) (snd c)
                    >? computed_quarter_pi A)
                   = (computed_turn exact_arith (fst (fst c)) (snd (fst c)) (snd c)
                      >? computed_quarter_pi exact_arith))
         (corners (positions p)) ->
  get_movement_pattern_in A p = get_movement_pattern p.
Proof.
  intros Hlow Hhigh Hturns. rewrite get_movement_pattern_exact.
  assert (change_rate_in A p = change_rate_in exact_arith p) as Hrate.
  { unfold change_rate_in. rewrite !direction_changes_in_corners.
    assert (length (computed_sharp_turns A (positions p))
            = length (computed_sharp_turns exact_arith (positions p))) as ->;
      [| reflexivity].
    unfold computed_sharp_turns, computed_turns.
    set (cs := corners (positions p)) in *. clearbody cs.
    induction Hturns as [| c l Hc _ IH]; [reflexivity |].
    cbn [map filter]. rewrite Hc.
    destruct (computed_turn exact_arith _ _ _ >? _); cbn [length]; rewrite IH; reflexivity. }
  unfold get_movement_pattern_in. rewrite Hrate, Hlow, Hhigh. reflexivity.
Qed.


(** ** Loitering *)

Lemma step_length_nonneg (a b : Point) : 0 <= step_length a b.
Proof. unfold step_length. apply sqrt_pos. Qed.

Lemma movement_loop_ge (ps : list Point) (l : list nat) (acc : R) :
  acc <= fold_left (fun acc i => acc + step_length (nth (i - 1) ps (0, 0)%Z)
                                                   (nth i ps (0, 0)%Z)) l acc.
Proof.
  revert acc. induction l as [| i l IH]; intros acc; cbn [fold_left]; [lra |].
  eapply Rle_trans; [| apply IH].
  pose proof (step_length_nonneg (nth (i - 1) ps (0, 0)%Z) (nth i ps (0, 0)%Z)). lra.
Qed.

Lemma total_movement_nonneg (ps : list Point) : 0 <= total_movement ps.
Proof. unfold total_movement. apply movement_loop_ge. Qed.

(** The quotient the code computes (the total over the number of samples) is
    at most the average step (the total over the number of steps). *)
Lemma avg_movement_le_mean_step (p : PersonTracker) :
  (10 <= length (positions p))%nat ->
  avg_movement p <= mean_step (last_n 10 (positions p)).
Proof.
  intros Hn. unfold avg_movement, mean_step. cbv zeta.
  rewrite last_n_length. replace (Nat.min (length (positions p)) 10) with 10%nat by lia.
  pose proof (total_movement_nonneg (last_n 10 (positions p))) as Ht.
  replace (INR 10) with 10 by (simpl; lra).
  replace (INR (10 - 1)) with 9 by (simpl; lra).
  lra.
Qed.

Lemma recent_events_In (ty : string) (window : R) (p : PersonTracker) (now : R)
    (e : RiskEvent) :
  In e (risk_events p) -> event_type e = ty -> now - timestamp e < window ->
  recent_events ty window p now <> [].
Proof.
  intros Hin Hty Ht Hnil.
  assert (In e (recent_events ty window p now)) as H.
  { unfold recent_events. apply filter_In. split; [exact Hin |].
    rewrite Hty, String.eqb_refl. apply Rltb_true in Ht. rewrite Ht. reflexivity. }
  rewrite Hnil in H. exact H.
Qed.

(** While a loitering event younger than 60 seconds is on the track, the
    check returns no event. *)
Lemma check_loitering_cooldown (self : SecurityMonitoringSystem) (p : PersonTracker)
    (now : R) (e : RiskEvent) :
  In e (risk_events p) -> event_type e = "suspicious_loitering" ->
  now - timestamp e < 60 ->
  snd (check_loitering self p now) = None.
Proof.
  intros Hin Hty Ht. unfold check_loitering.
  pose proof (recent_events_In _ _ _ _ _ Hin Hty Ht) as Hne.
  destruct (length (positions p) <? 10)%nat; [reflexivity |].
  destruct (avg_movement p <? 10); [| reflexivity].
  destruct (stationary_start p) as [start |]; [| reflexivity].
  destruct (now - start >? loitering_threshold self); [| reflexivity].
  destruct (recent_events "suspicious_loitering" 60 p now); [contradiction | reflexivity].
Qed.

Lemma check_loitering_fires (self : SecurityMonitoringSystem) (p : PersonTracker)
    (now start : R) :
  (10 <= length (positions p))%nat ->
  avg_movement p < 10 ->
  stationary_start p = Some start ->
  now - start > loitering_threshold self ->
  recent_events "suspicious_loitering" 60 p now = [] ->
  check_loitering self p now
  = (p, Some (mkRiskEvent "suspicious_loitering" 8 0.8 now (now - start)
                (py_last (positions p) (0, 0)%Z))).
Proof.
  intros Hn Havg Hst Hthr Hrec. unfold check_loitering.
  replace (length (positions p) <? 10)%nat with false
    by (symmetry; apply Nat.ltb_ge; exact Hn).
  apply Rltb_true in Havg. rewrite Havg, Hst.
  apply Rgtb_true in Hthr. rewrite Hthr, Hrec. reflexivity.
Qed.

Lemma filter_loitering_intrusion (self : SecurityMonitoringSystem) (q : PersonTracker) (t : R) :
  filter is_loitering (opt_list (check_intrusion self q t)) = [].
Proof.
  destruct (check_intrusion self q t) as [e |] eqn:E; [| reflexivity].
  destruct (check_intrusion_event _ _ _ _ E) as (s & _ & ->). reflexivity.
Qed.

Lemma filter_loitering_weapons (self : SecurityMonitoringSystem) (q : PersonTracker) (t : R) :
  filter is_loitering (opt_list (check_weapons self q t)) = [].
Proof.
  unfold check_weapons. cbv zeta.
  destruct (filter _ (detected_objects q)); [reflexivity |].
  destruct (recent_events "armed_person" 30 q t); reflexivity.
Qed.

Lemma filter_loitering_movement (self : SecurityMonitoringSystem) (q : PersonTracker) (t : R) :
  filter is_loitering (opt_list (check_movement_patterns self q t)) = [].
Proof.
  unfold check_movement_patterns. cbv zeta.
  destruct (String.eqb (get_movement_pattern q) "erratic").
  - destruct (recent_events "erratic_movement" 30 q t); reflexivity.
  - destruct (String.eqb (get_movement_pattern q) "running"); [| reflexivity].
    destruct (recent_events "running" 20 q t); reflexivity.
Qed.

Lemma filter_filter_comm {A : Type} (f g : A -> bool) (l : list A) :
  filter f (filter g l) = filter g (filter f l).
Proof.
  induction l as [| a l IH]; [reflexivity |].
  cbn [filter]. destruct (f a) eqn:Ef, (g a) eqn:Eg; cbn [filter];
    rewrite ?Ef, ?Eg, IH; reflexivity.
Qed.

(** C3 (as the code has it).  For a track with at least 10 position
    samples whose last 10 have an average consecutive-step movement below
    10 px, whose stationary window has lasted strictly longer than
    [loitering_threshold] seconds and which carries no loitering event of the
    last 60 seconds, the check returns one "suspicious_loitering" event (seed
    8.0, confidence 0.8, duration the elapsed stationary time);
    [analyze_behavior] adds exactly that one loitering event to the track;
    and while the event is on the track, running the check again less than
    60 seconds later returns no event. *)
Theorem loitering_event_once :
  forall (self : SecurityMonitoringSystem) (p : PersonTracker) (now start : R),
    (10 <= length (positions p))%nat ->
    mean_step (last_n 10 (positions p)) < 10 ->
    stationary_start p = Some start ->
    now - start > loitering_threshold self ->
    recent_events "suspicious_loitering" 60 p now = [] ->
    let e := mkRiskEvent "suspicious_loitering" 8 0.8 now (now - start)
               (py_last (positions p) (0, 0)%Z) in
    check_loitering self p now = (p, Some e)
    /\ filter is_loitering (risk_events (analyze_behavior self p now))
       = filter is_loitering
           (filter (fun ev => now - timestamp ev <? 600) (risk_events p)) ++ [e]
    /\ (forall (p' : PersonTracker) (now' : R),
          In e (risk_events p') -> now' - now < 60 ->
          snd (check_loitering self p' now') = None).
Proof.
  intros self p now start Hn Hmean Hst Hthr Hrec e.
  assert (avg_movement p < 10) as Havg.
  { pose proof (avg_movement_le_mean_step p Hn). lra. }
  pose proof (check_loitering_fires self p now start Hn Havg Hst Hthr Hrec) as Hfire.
  fold e in Hfire.
  split; [exact Hfire |]. split.
  - unfold analyze_behavior. rewrite Hfire. cbv zeta. cbn [set_risk_events risk_events].
    rewrite filter_filter_comm, !filter_app.
    rewrite filter_loitering_intrusion, filter_loitering_weapons, filter_loitering_movement.
    cbn [opt_list filter app]. change (is_loitering e) with true. cbn [app].
    rewrite app_nil_r. cbn [filter].
    replace (now - timestamp e <? 600) with true
      by (symmetry; apply Rltb_true; subst e; cbn [timestamp]; lra).
    rewrite (filter_filter_comm _ is_loitering). reflexivity.
  - intros p' now' Hin Hlt.
    apply (check_loitering_cooldown self p' now' e Hin); [reflexivity |].
    subst e; cbn [timestamp]; lra.
Qed.

Lemma loiterer_state :
  positions loiterer = repeat (4, 4)%Z 10 /\ stationary_start loiterer = Some 9
  /\ risk_events loiterer = [] /\ avg_movement loiterer = 0.
Proof.
  set (p0 := add_positions (new_tracker 3)
            [ ((4, 4)%Z, 0, [3; 3; 5; 5]%Z); ((4, 4)%Z, 1, [3; 3; 5; 5]%Z);
              ((4, 4)%Z, 2, [3; 3; 5; 5]%Z); ((4, 4)%Z, 3, [3; 3; 5; 5]%Z);
              ((4, 4)%Z, 4, [3; 3; 5; 5]%Z); ((4, 4)%Z, 5, [3; 3; 5; 5]%Z);
              ((4, 4)%Z, 6, [3; 3; 5; 5]%Z); ((4, 4)%Z, 7, [3; 3; 5; 5]%Z);
              ((4, 4)%Z, 8, [3; 3; 5; 5]%Z); ((4, 4)%Z, 9, [3; 3; 5; 5]%Z) ]).
  assert (positions p0 = repeat (4, 4)%Z 10) as Hpos by reflexivity.
  assert (avg_movement p0 = 0) as Havg.
  { unfold avg_movement. rewrite Hpos. cbv zeta.
    unfold last_n, total_movement. cbn [repeat length Nat.sub skipn seq fold_left nth].
    rewrite !(step_length_sq _ _ 0) by (try lia; reflexivity).
    simpl INR. lra. }
  assert (loiterer = set_stationary_start p0 (Some 9)) as Hl.
  { unfold loiterer. fold p0. unfold check_loitering.
    rewrite Hpos. cbn [repeat length Nat.ltb Nat.leb].
    rewrite Havg. float_decide. reflexivity. }
  rewrite Hl. repeat split; try reflexivity. exact Havg.
Qed.

Lemma loiterer_mean_step : mean_step (last_n 10 (positions loiterer)) = 0.
Proof.
  destruct loiterer_state as (Hpos & _ & _ & Havg).
  unfold avg_movement in Havg. cbv zeta in Havg. unfold mean_step.
  rewrite Hpos in *. rewrite last_n_length in *.
  cbn [repeat length Nat.min Nat.sub] in *. simpl INR in *. lra.
Qed.

(** An instance: the person found stationary at time 9 is checked at time
    20, after 11 seconds (threshold 10): one event of duration 11. *)
Lemma loitering_event_once_witness :
  (10 <= length (positions loiterer))%nat
  /\ mean_step (last_n 10 (positions loiterer)) < 10
  /\ stationary_start loiterer = Some 9
  /\ 20 - 9 > loitering_threshold default_system
  /\ check_loitering default_system loiterer 20
     = (loiterer, Some (mkRiskEvent "suspicious_loitering" 8 0.8 20 (20 - 9)
                          (py_last (positions loiterer) (0, 0)%Z))).
Proof.
  destruct loiterer_state as (Hpos & Hst & Hev & _).
  assert (10 <= length (positions loiterer))%nat as Hn by (rewrite Hpos; simpl; lia).
  assert (mean_step (last_n 10 (positions loiterer)) < 10) as Hm
    by (rewrite loiterer_mean_step; lra).
  assert (20 - 9 > loitering_threshold default_system) as Ht by (simpl; lra).
  assert (recent_events "suspicious_loitering" 60 loiterer 20 = []) as Hr
    by (unfold recent_events; rewrite Hev; reflexivity).
  repeat split; try assumption.
  exact (proj1 (loitering_event_once default_system loiterer 20 9 Hn Hm Hst Ht Hr)).
Defined.

(** Checked at time 19, exactly [loitering_threshold] = 10 seconds after the
    stationary window began at time 9, the same person gets no event: the
    code asks for strictly more than the threshold. *)
Lemma loitering_counterexample :
  (10 <= length (positions loiterer))%nat
  /\ mean_step (last_n 10 (positions loiterer)) < 10
  /\ stationary_start loiterer = Some 9
  /\ 19 - 9 = loitering_threshold default_system
  /\ recent_events "suspicious_loitering" 60 loiterer 19 = []
  /\ check_loitering default_system loiterer 19 = (loiterer, None).
Proof.
  destruct loiterer_state as (Hpos & Hst & Hev & Havg).
  split; [rewrite Hpos; simpl; lia |].
  split; [rewrite loiterer_mean_step; lra |].
  split; [exact Hst |].
  split; [simpl; lra |].
  split; [unfold recent_events; rewrite Hev; reflexivity |].
  unfold check_loitering. rewrite Hpos. cbn [repeat length Nat.ltb Nat.leb].
  rewrite Havg, Hst. cbn [default_system loitering_threshold].
  float_decide. reflexivity.
Qed.

(** ** Dispatch *)

Lemma intruder_state (tid : Z) :
  intruder tid
  = mkPersonTracker tid [(5, 5)%Z] [0] [] [mkRiskEvent "intrusion" 12 0.9 0 0 (5, 5)%Z]
      0 0 "normal" 0 None None [3; 3; 7; 7]%Z "normal".
Proof.
  unfold intruder, analyze_behavior.
  assert (check_intrusion (lab_system []) (add_position (new_tracker tid) (5, 5)%Z 0 [3; 3; 7; 7]%Z) 0
          = Some (mkRiskEvent "intrusion" 12 0.9 0 0 (5, 5)%Z)) as -> by reflexivity.
  assert (check_weapons (lab_system []) (add_position (new_tracker tid) (5, 5)%Z 0 [3; 3; 7; 7]%Z) 0
          = None) as -> by reflexivity.
  assert (check_loitering (lab_system []) (add_position (new_tracker tid) (5, 5)%Z 0 [3; 3; 7; 7]%Z) 0
          = (add_position (new_tracker tid) (5, 5)%Z 0 [3; 3; 7; 7]%Z, None)) as -> by reflexivity.
  assert (check_movement_patterns (lab_system []) (add_position (new_tracker tid) (5, 5)%Z 0 [3; 3; 7; 7]%Z) 0
          = None) as -> by reflexivity.
  cbn [opt_list app add_position new_tracker set_history risk_events filter timestamp
       set_risk_events positions timestamps deque_append length Nat.ltb Nat.leb
       track_id detected_objects total_risk_score max_risk_score status last_seen
       zone_entry_time stationary_start last_bbox last_notified_threat].
  float_decide. reflexivity.
Qed.

Section DispatchLoop.

Variable score : PersonTracker -> R -> result (R * string).
Variable self : SecurityMonitoringSystem.
Variable now : R.

Lemma dispatch_person_track_id (p : PersonTracker) :
  track_id (fst (fst (dispatch_person score self now p))) = track_id p.
Proof.
  unfold dispatch_person.
  destruct (alerts_skip p now); [reflexivity |].
  destruct (score p now) as [[risk threat] | msg]; [| reflexivity].
  cbv zeta.
  destruct (risk >=? risk_alert_threshold self).
  - destruct (negb _); reflexivity.
  - destruct (negb _); reflexivity.
Qed.

Lemma dispatch_person_incident_ids (p : PersonTracker) :
  Forall (fun i => Incident.track_id i = track_id p)
         (snd (fst (dispatch_person score self now p))).
Proof.
  unfold dispatch_person.
  destruct (alerts_skip p now); [constructor |].
  destruct (score p now) as [[risk threat] | msg]; [| constructor].
  cbv zeta.
  destruct (risk >=? risk_alert_threshold self).
  - destruct (negb _); repeat constructor.
  - destruct (negb _); constructor.
Qed.

Lemma dispatch_person_alert_ids (p : PersonTracker) :
  Forall (fun a => Alert.track_id a = track_id p)
         (snd (dispatch_person score self now p)).
Proof.
  unfold dispatch_person.
  destruct (alerts_skip p now); [constructor |].
  destruct (score p now) as [[risk threat] | msg]; [| constructor].
  cbv zeta.
  destruct (risk >=? risk_alert_threshold self).
  - destruct (negb _); repeat constructor.
  - destruct (negb _); constructor.
Qed.

Lemma incidents_of_own (tid : Z) (l : list Incident.t) :
  Forall (fun i => Incident.track_id i = tid) l -> incidents_of tid l = l.
Proof.
  induction 1 as [| i l Hi _ IH]; [reflexivity |].
  unfold incidents_of in *. cbn [filter]. rewrite Hi, Z.eqb_refl, IH. reflexivity.
Qed.

Lemma incidents_of_other (tid tid' : Z) (l : list Incident.t) :
  tid' <> tid -> Forall (fun i => Incident.track_id i = tid') l -> incidents_of tid l = [].
Proof.
  intros Hne. induction 1 as [| i l Hi _ IH]; [reflexivity |].
  unfold incidents_of in *. cbn [filter]. rewrite Hi.
  destruct (Z.eqb_spec tid' tid); [contradiction | exact IH].
Qed.

Lemma alerts_of_own (tid : Z) (l : list Alert.t) :
  Forall (fun a => Alert.track_id a = tid) l -> alerts_of tid l = l.
Proof.
  induction 1 as [| a l Ha _ IH]; [reflexivity |].
  unfold alerts_of in *. cbn [filter]. rewrite Ha, Z.eqb_refl, IH. reflexivity.
Qed.

Lemma alerts_of_other (tid tid' : Z) (l : list Alert.t) :
  tid' <> tid -> Forall (fun a => Alert.track_id a = tid') l -> alerts_of tid l = [].
Proof.
  intros Hne. induction 1 as [| a l Ha _ IH]; [reflexivity |].
  unfold alerts_of in *. cbn [filter]. rewrite Ha.
  destruct (Z.eqb_spec tid' tid); [contradiction | exact IH].
Qed.

(** A track the dict does not hold gets no incident and no alert. *)
Lemma process_alerts_loop_absent (tid : Z) (persons : list PersonTracker) :
  ~ In tid (map track_id persons) ->
  find_tracker tid (fst (fst (process_alerts_loop score self now persons))) = None
  /\ incidents_of tid (snd (fst (process_alerts_loop score self now persons))) = []
  /\ alerts_of tid (snd (process_alerts_loop score self now persons)) = [].
Proof.
  induction persons as [| q persons IH]; intros Hnot; [repeat split |].
  cbn [process_alerts_loop].
  pose proof (dispatch_person_track_id q) as Hid.
  pose proof (dispatch_person_incident_ids q) as Hinc.
  pose proof (dispatch_person_alert_ids q) as Hal.
  destruct (dispatch_person score self now q) as [[q' incs] als].
  cbn [fst snd] in Hid, Hinc, Hal.
  destruct IH as (IH1 & IH2 & IH3).
  { intros Hin. apply Hnot. right. exact Hin. }
  destruct (process_alerts_loop score self now persons) as [[rest incs'] als'].
  cbn [fst snd] in *.
  assert (track_id q <> tid) as Hne by (intros Heq; apply Hnot; left; exact Heq).
  repeat split.
  - unfold find_tracker in *. cbn [find]. rewrite Hid.
    destruct (Z.eqb_spec (track_id q) tid); [contradiction | exact IH1].
  - unfold incidents_of in *. rewrite filter_app.
    fold (incidents_of tid incs). rewrite (incidents_of_other tid _ incs Hne Hinc), IH2.
    reflexivity.
  - unfold alerts_of in *. rewrite filter_app.
    fold (alerts_of tid als). rewrite (alerts_of_other tid _ als Hne Hal), IH3.
    reflexivity.
Qed.

(** What [process_alerts] returns for one track of the dict is what the round
    of the loop on that track produces. *)
Lemma process_alerts_loop_track (tid : Z) (persons : list PersonTracker) (p : PersonTracker) :
  NoDup (map track_id persons) ->
  find_tracker tid persons = Some p ->
  find_tracker tid (fst (fst (process_alerts_loop score self now persons)))
    = Some (fst (fst (dispatch_person score self now p)))
  /\ incidents_of tid (snd (fst (process_alerts_loop score self now persons)))
     = snd (fst (dispatch_person score self now p))
  /\ alerts_of tid (snd (process_alerts_loop score self now persons))
     = snd (dispatch_person score self now p).
Proof.
  induction persons as [| q persons IH]; intros Hnd Hfind; [discriminate |].
  cbn [process_alerts_loop].
  pose proof (dispatch_person_track_id q) as Hid.
  pose proof (dispatch_person_incident_ids q) as Hinc.
  pose proof (dispatch_person_alert_ids q) as Hal.
  inversion Hnd as [| ? ? Hnotin Hnd']; subst.
  unfold find_tracker in Hfind. cbn [find] in Hfind.
  destruct (Z.eqb_spec (track_id q) tid) as [Heq | Hne].
  - injection Hfind as <-.
    rewrite Heq in Hnotin.
    destruct (process_alerts_loop_absent tid persons Hnotin) as (A1 & A2 & A3).
    destruct (dispatch_person score self now q) as [[q' incs] als].
    destruct (process_alerts_loop score self now persons) as [[rest incs'] als'].
    cbn [fst snd] in *. rewrite Heq in *.
    repeat split.
    + unfold find_tracker. cbn [find]. rewrite Hid, Z.eqb_refl. reflexivity.
    + unfold incidents_of in *. rewrite filter_app, A2, app_nil_r.
      apply incidents_of_own. exact Hinc.
    + unfold alerts_of in *. rewrite filter_app, A3, app_nil_r.
      apply alerts_of_own. exact Hal.
  - destruct (IH Hnd' Hfind) as (IH1 & IH2 & IH3).
    destruct (dispatch_person score self now q) as [[q' incs] als].
    destruct (process_alerts_loop score self now persons) as [[rest incs'] als'].
    cbn [fst snd] in *.
    repeat split.
    + unfold find_tracker in *. cbn [find]. rewrite Hid.
      destruct (Z.eqb_spec (track_id q) tid); [contradiction | exact IH1].
    + unfold incidents_of in *. rewrite filter_app.
      fold (incidents_of tid incs). rewrite (incidents_of_other tid _ incs Hne Hinc).
      exact IH2.
    + unfold alerts_of in *. rewrite filter_app.
      fold (alerts_of tid als). rewrite (alerts_of_other tid _ als Hne Hal).
      exact IH3.
Qed.

End DispatchLoop.

Lemma active_not_skipped (p : PersonTracker) (now : R) :
  is_active p now = true -> alerts_skip p now = false.
Proof.
  unfold is_active, alerts_skip. intros H. apply Rltb_true in H.
  apply Rgtb_false. lra.
Qed.

(** The round of [process_alerts] on a person that is not skipped and whose
    score is at or above the alert threshold. *)
Lemma dispatch_significant (self : SecurityMonitoringSystem) (now : R) (p : PersonTracker) :
  alerts_skip p now = false ->
  fst (calculate_risk_score p now) >= risk_alert_threshold self ->
  let risk := fst (calculate_risk_score p now) in
  let threat := snd (calculate_risk_score p now) in
  let p1 := set_status p threat in
  dispatch_person (fun q t => Ok (calculate_risk_score q t)) self now p
  = if String.eqb threat (last_notified_threat p)
    then (p1, [make_incident p1 now risk threat], [])
    else (set_last_notified_threat p1 threat,
          [make_incident p1 now risk threat],
          [make_alert self p1 now risk threat]).
Proof.
  intros Hskip Hsig risk threat p1. unfold dispatch_person. rewrite Hskip.
  subst risk threat p1.
  destruct (calculate_risk_score p now) as [risk threat]. cbn [fst snd] in *.
  apply Rgeb_true in Hsig. rewrite Hsig.
  cbn [set_status last_notified_threat].
  destruct (String.eqb threat (last_notified_threat p)); reflexivity.
Qed.

(** One frame in which the track is active with a significant threat: one
    incident, an alert exactly when the threat differs from the one last
    notified, and the threat recorded as notified. *)
Lemma frame_significant (tid : Z) (f : frame) (p : PersonTracker) :
  well_keyed (frame_system f) ->
  frame_tracker tid f = Some p ->
  is_active p (frame_time f) = true ->
  fst (calculate_risk_score p (frame_time f)) >= risk_alert_threshold (frame_system f) ->
  let risk := fst (calculate_risk_score p (frame_time f)) in
  let threat := snd (calculate_risk_score p (frame_time f)) in
  notified_after tid f = Some threat
  /\ frame_incidents tid f = [make_incident (set_status p threat) (frame_time f) risk threat]
  /\ frame_alerts tid f
     = if String.eqb threat (last_notified_threat p) then []
       else [make_alert (frame_system f) (set_status p threat) (frame_time f) risk threat].
Proof.
  intros Hkeys Hfind Hact Hsig risk threat.
  unfold notified_after, frame_incidents, frame_alerts, frame_dispatch,
    process_alerts, process_alerts_with.
  destruct (process_alerts_loop_track (fun q t => Ok (calculate_risk_score q t))
              (frame_system f) (frame_time f) tid _ p Hkeys Hfind) as (H1 & H2 & H3).
  destruct (process_alerts_loop _ (frame_system f) (frame_time f)
              (person_trackers (frame_system f))) as [[persons incs] als].
  cbn [fst snd set_person_trackers person_trackers] in *.
  rewrite H1, H2, H3.
  rewrite (dispatch_significant (frame_system f) (frame_time f) p
             (active_not_skipped _ _ Hact) Hsig).
  fold risk threat.
  destruct (String.eqb threat (last_notified_threat p)) eqn:E; cbn [fst snd option_map];
    repeat split; try reflexivity.
  (* no alert was due: the state already names the threat *)
  apply String.eqb_eq in E. cbn [set_status last_notified_threat]. rewrite E. reflexivity.
Qed.

(** ** The dedup state between two frames *)

(** Outside [process_alerts] nothing writes [last_notified_threat]. *)
Lemma add_position_notified (p : PersonTracker) (pos : Point) (t : R) (bbox : list Z) :
  track_id (add_position p pos t bbox) = track_id p
  /\ last_notified_threat (add_position p pos t bbox) = last_notified_threat p.
Proof. split; reflexivity. Qed.

Lemma analyze_behavior_notified (self : SecurityMonitoringSystem) (p : PersonTracker) (t : R) :
  track_id (analyze_behavior self p t) = track_id p
  /\ last_notified_threat (analyze_behavior self p t) = last_notified_threat p.
Proof.
  unfold analyze_behavior.
  assert (track_id (fst (check_loitering self p t)) = track_id p
          /\ last_notified_threat (fst (check_loitering self p t)) = last_notified_threat p)
    as [H1 H2].
  { unfold check_loitering.
    repeat match goal with
    | |- context [if ?b then _ else _] => destruct b
    | |- context [match ?o with Some _ => _ | None => _ end] => destruct o
    | |- context [match ?l with [] => _ | _ :: _ => _ end] => destruct l
    end; split; reflexivity. }
  destruct (check_loitering self p t) as [q ev]. cbn [fst] in H1, H2.
  cbv zeta. cbn [set_risk_events track_id last_notified_threat].
  split; assumption.
Qed.

Lemma detect_carried_loop_notified (clock : nat -> R) (detections : list Detection.t)
    (k : nat) (a b c d : Z) (p : PersonTracker) :
  track_id (detect_carried_loop clock k a b c d p detections) = track_id p
  /\ last_notified_threat (detect_carried_loop clock k a b c d p detections)
     = last_notified_threat p.
Proof.
  revert k p. induction detections as [| det detections IH]; intros k p; [split; reflexivity |].
  cbn [detect_carried_loop].
  match goal with
  | |- context [detect_carried_loop clock (S k) a b c d ?q detections] =>
      destruct (IH (S k) q) as [H1 H2]; rewrite H1, H2
  end.
  repeat match goal with
  | |- context [if ?b then _ else _] => destruct b
  | |- context [match ?l with [] => _ | _ :: _ => _ end] => destruct l
  end; split; reflexivity.
Qed.

Lemma analyze_person_notified (self : SecurityMonitoringSystem) (clock : nat -> R)
    (detections : list Detection.t) (t : R) (p : PersonTracker) :
  track_id (analyze_person self clock detections t p) = track_id p
  /\ last_notified_threat (analyze_person self clock detections t p)
     = last_notified_threat p.
Proof.
  unfold analyze_person. destruct (is_active p t); [| split; reflexivity].
  destruct (analyze_behavior_notified self p t) as [H1 H2].
  cbv zeta. destruct (last_bbox (analyze_behavior self p t)) as [| x l] eqn:E;
    [split; assumption |].
  unfold detect_carried_objects.
  repeat match goal with
  | |- context [match ?l with [] => _ | _ :: _ => _ end] => destruct l
  end; try (split; assumption).
  match goal with
  | |- context [detect_carried_loop ?ck ?k ?a ?b ?c ?d ?q ?ds] =>
      destruct (detect_carried_loop_notified ck ds k a b c d q) as [H3 H4];
      rewrite H3, H4
  end.
  split; assumption.
Qed.

(** A step that keeps the id and the dedup state of every person keeps what
    a lookup by id finds, up to that state. *)
Lemma find_tracker_map (g : PersonTracker -> PersonTracker) (tid : Z)
    (persons : list PersonTracker) :
  (forall p, track_id (g p) = track_id p) ->
  find_tracker tid (map g persons) = option_map g (find_tracker tid persons).
Proof.
  intros Hid. induction persons as [| q persons IH]; [reflexivity |].
  unfold find_tracker in *. cbn [map find]. rewrite Hid.
  destruct (track_id q =? tid)%Z; [reflexivity | exact IH].
Qed.

Lemma find_tracker_app_l (tid : Z) (persons more : list PersonTracker) (p : PersonTracker) :
  find_tracker tid persons = Some p -> find_tracker tid (persons ++ more) = Some p.
Proof.
  induction persons as [| q persons IH]; [discriminate |].
  unfold find_tracker in *. cbn [app find].
  destruct (track_id q =? tid)%Z; [intros H; exact H | exact IH].
Qed.

Lemma update_tracker_row_notified (t : R) (persons : list PersonTracker) (track : Track.t)
    (tid : Z) (p : PersonTracker) :
  find_tracker tid persons = Some p ->
  exists p', find_tracker tid (update_tracker_row t persons track) = Some p'
             /\ last_notified_threat p' = last_notified_threat p.
Proof.
  intros Hfind. unfold update_tracker_row. cbv zeta.
  rewrite find_tracker_map
    by (intros q; destruct (track_id q =? Track.track_id track)%Z; reflexivity).
  assert (find_tracker tid
            match find_tracker (Track.track_id track) persons with
            | Some _ => persons
            | None => persons ++ [new_tracker (Track.track_id track)]
            end = Some p) as ->.
  { destruct (find_tracker (Track.track_id track) persons);
      [exact Hfind | apply find_tracker_app_l; exact Hfind]. }
  cbn [option_map]. eexists. split; [reflexivity |].
  destruct (track_id p =? Track.track_id track)%Z; reflexivity.
Qed.

Lemma update_trackers_notified (t : R) (tracks : list Track.t) (persons : list PersonTracker)
    (tid : Z) (p : PersonTracker) :
  find_tracker tid persons = Some p ->
  exists p', find_tracker tid (fold_left (update_tracker_row t) tracks persons) = Some p'
             /\ last_notified_threat p' = last_notified_threat p.
Proof.
  revert persons p. induction tracks as [| track tracks IH]; intros persons p Hfind.
  - exists p. split; [exact Hfind | reflexivity].
  - cbn [fold_left].
    destruct (update_tracker_row_notified t persons track tid p Hfind) as (p1 & H1 & E1).
    destruct (IH _ _ H1) as (p2 & H2 & E2).
    exists p2. split; [exact H2 | congruence].
Qed.

Lemma for_each_unguarded_total (g : PersonTracker -> PersonTracker)
    (persons : list PersonTracker) :
  for_each_unguarded (fun p => Ok (g p)) persons = Ok (map g persons).
Proof.
  induction persons as [| q persons IH]; [reflexivity |].
  cbn [for_each_unguarded map]. rewrite IH. reflexivity.
Qed.

(** The frames that [video_processing_loop] produces are consecutive: the
    next frame finds the dedup state of every known track as the
    [process_alerts] call of this frame left it. *)
Lemma loop_iteration_consecutive (f : frame) (tracks : list Track.t)
    (detections : list Detection.t) (clock : nat -> R) (tid : Z) (t' : R)
    (self' : SecurityMonitoringSystem) (incidents : list Incident.t) (alerts : list Alert.t) :
  loop_iteration (frame_system f) (frame_time f) tracks detections clock
    = Ok (self', incidents, alerts) ->
  notified_after tid f <> None ->
  incidents = snd (fst (frame_dispatch f))
  /\ alerts = snd (frame_dispatch f)
  /\ consecutive tid [f; mkFrame t' self'].
Proof.
  unfold loop_iteration, notified_after.
  destruct (frame_dispatch f) as [[self1 incs] als] eqn:E.
  unfold frame_dispatch in E. rewrite E. cbn [fst snd].
  unfold process_frame_analysis, process_frame_analysis_with.
  rewrite for_each_unguarded_total.
  intros H Hknown. injection H as <- <- <-.
  split; [reflexivity |]. split; [reflexivity |].
  cbn [consecutive]. split; [| exact I].
  unfold notified_before, notified_after, frame_tracker, frame_dispatch.
  rewrite E.
  cbn [fst frame_system set_person_trackers person_trackers update_trackers].
  destruct (find_tracker tid (person_trackers self1)) as [p1 |] eqn:E1;
    [| contradiction].
  destruct (update_trackers_notified (frame_time f) tracks _ tid p1 E1) as (p2 & H2 & E2).
  rewrite find_tracker_map by (intros q; apply analyze_person_notified).
  rewrite H2. cbn [option_map]. f_equal.
  rewrite (proj2 (analyze_person_notified _ _ _ _ p2)). exact E2.
Qed.

(** A run of frames in which the track is active with one significant threat
    throughout: one incident per frame, one alert in all unless the threat
    was the one already notified, and the threat is the notified one in the
    frame that follows. *)
Lemma same_threat_run (tid : Z) (threat : string) (frames : list frame) :
  forall (g : frame) (notified : string),
    frames <> [] ->
    Forall (fun f => well_keyed (frame_system f)) frames ->
    consecutive tid (frames ++ [g]) ->
    Forall (threat_in_frame tid threat) frames ->
    (forall f, hd_error frames = Some f -> notified_before tid f = Some notified) ->
    Forall (fun f => length (frame_incidents tid f) = 1%nat) frames
    /\ length (concat (map (frame_alerts tid) frames))
       = (if String.eqb threat notified then 0%nat else 1%nat)
    /\ notified_before tid g = Some threat.
Proof.
  induction frames as [| f frames IH]; intros g notified Hne Hkeys Hcons Hthreat Hhead;
    [contradiction |].
  inversion Hkeys as [| ? ? Hk Hkeys']; subst.
  inversion Hthreat as [| ? ? Hf Hthreat']; subst.
  destruct Hf as (p & Hfind & Hact & Hsig & Hth).
  destruct (frame_significant tid f p Hk Hfind Hact Hsig) as (Hafter & Hinc & Hal).
  rewrite Hth in Hafter, Hinc, Hal.
  assert (last_notified_threat p = notified) as Hn.
  { specialize (Hhead f eq_refl). unfold notified_before in Hhead.
    rewrite Hfind in Hhead. cbn [option_map] in Hhead. congruence. }
  rewrite Hn in Hal.
  destruct frames as [| f2 frames].
  - cbn [app consecutive] in Hcons. destruct Hcons as [Hg _].
    split; [constructor; [rewrite Hinc; reflexivity | constructor] |].
    split; [| congruence].
    cbn [map concat]. rewrite app_nil_r, Hal.
    destruct (String.eqb threat notified); reflexivity.
  - cbn [app consecutive] in Hcons. destruct Hcons as [H2 Hcons].
    destruct (IH g threat) as (IHinc & IHal & IHg);
      [discriminate | exact Hkeys' | exact Hcons | exact Hthreat' | |].
    { intros f' Hf'. cbn [hd_error] in Hf'. injection Hf' as <-. congruence. }
    rewrite String.eqb_refl in IHal.
    split; [constructor; [rewrite Hinc; reflexivity | exact IHinc] |].
    split; [| exact IHg].
    cbn [map concat] in *. rewrite length_app, IHal, Hal.
    destruct (String.eqb threat notified); reflexivity.
Qed.

Lemma concat_length_ones {A B : Type} (f : A -> list B) (l : list A) :
  Forall (fun a => length (f a) = 1%nat) l -> length (concat (map f l)) = length l.
Proof.
  induction 1 as [| a l Ha _ IH]; [reflexivity |].
  cbn [map concat length]. rewrite length_app, Ha, IH. reflexivity.
Qed.

Lemma consecutive_app_l (tid : Z) (frames : list frame) (g : frame) :
  consecutive tid (frames ++ [g]) -> consecutive tid frames.
Proof.
  induction frames as [| f frames IH]; intros H; [exact I |].
  destruct frames as [| f2 frames]; [exact I |].
  cbn [app consecutive] in *. destruct H as [H1 H2]. split; [exact H1 |].
  apply IH. exact H2.
Qed.

(** C1 (as the code has it).  Let a track be active, with a total score at or
    above [risk_alert_threshold] and primary threat "intrusion", in each of 5
    consecutive frames, and not yet notified of "intrusion" when the first of
    them begins.  Then [process_alerts] emits one incident for it in every
    frame (5 in all) and exactly one alert over the 5 frames.  If in the 6th
    frame the track is still active and at or above the threshold but its
    primary threat is "armed_person", that frame emits a second alert, for
    "armed_person", of level CRITICAL if the score is at or above
    [critical_alert_threshold] and HIGH otherwise, and leaves
    [last_notified_threat] at "armed_person". *)
Theorem alert_dedup_over_frames :
  forall (tid : Z) (frames : list frame) (f6 : frame),
    length frames = 5%nat ->
    Forall (fun f => well_keyed (frame_system f)) (frames ++ [f6]) ->
    consecutive tid (frames ++ [f6]) ->
    Forall (threat_in_frame tid "intrusion") frames ->
    (forall f, hd_error frames = Some f -> notified_before tid f <> Some "intrusion") ->
    Forall (fun f => length (frame_incidents tid f) = 1%nat) frames
    /\ length (concat (map (frame_incidents tid) frames)) = 5%nat
    /\ length (concat (map (frame_alerts tid) frames)) = 1%nat
    /\ (threat_in_frame tid "armed_person" f6 ->
        exists (p : PersonTracker) (risk : R) (a : Alert.t),
          frame_tracker tid f6 = Some p
          /\ risk = fst (calculate_risk_score p (frame_time f6))
          /\ length (frame_incidents tid f6) = 1%nat
          /\ frame_alerts tid f6 = [a]
          /\ Alert.threat_type a = "armed_person"
          /\ Alert.risk_score a = risk
          /\ Alert.level a
             = (if risk >=? critical_alert_threshold (frame_system f6)
                then "CRITICAL" else "HIGH")
          /\ notified_after tid f6 = Some "armed_person").
Proof.
  intros tid frames f6 Hlen Hkeys Hcons Hthreat Hfirst.
  apply Forall_app in Hkeys. destruct Hkeys as [Hkeys Hk6].
  inversion Hk6 as [| ? ? Hk6' _]; subst.
  destruct frames as [| f1 frames]; [discriminate |].
  assert (exists notified, notified_before tid f1 = Some notified
                           /\ notified <> "intrusion") as (notified & Hn & Hnot).
  { inversion Hthreat as [| ? ? H1 _]; subst. destruct H1 as (p & Hfind & _).
    exists (last_notified_threat p). unfold notified_before. rewrite Hfind.
    split; [reflexivity |]. intros Heq. apply (Hfirst f1 eq_refl).
    unfold notified_before. rewrite Hfind. cbn [option_map]. rewrite Heq. reflexivity. }
  destruct (same_threat_run tid "intrusion" (f1 :: frames) f6 notified)
    as (Hinc & Hal & Hg); try assumption; [discriminate | |].
  { intros f Hf. cbn [hd_error] in Hf. injection Hf as <-. exact Hn. }
  split; [exact Hinc |].
  split; [rewrite (concat_length_ones _ _ Hinc); exact Hlen |].
  split.
  { rewrite Hal. destruct (String.eqb_spec "intrusion" notified) as [E | E];
      [symmetry in E; contradiction | reflexivity]. }
  intros (p & Hfind & Hact & Hsig & Hth).
  destruct (frame_significant tid f6 p Hk6' Hfind Hact Hsig) as (Hafter & Hinc6 & Hal6).
  rewrite Hth in Hafter, Hinc6, Hal6.
  assert (last_notified_threat p = "intrusion") as Hl.
  { unfold notified_before in Hg. rewrite Hfind in Hg. cbn [option_map] in Hg. congruence. }
  rewrite Hl in Hal6. cbn [String.eqb Ascii.eqb Bool.eqb] in Hal6.
  eexists p, _, _. split; [exact Hfind |]. split; [reflexivity |].
  split; [rewrite Hinc6; reflexivity |].
  split; [exact Hal6 |].
  repeat split. exact Hafter.
Qed.

(** *** A concrete scene *)

(** Evaluation of the comparisons of closed strings in the goal. *)
Ltac string_decide :=
  repeat match goal with
  | |- context [String.eqb ?a ?b] =>
      let v := eval vm_compute in (String.eqb a b) in
      match v with
      | true => change (String.eqb a b) with true
      | false => change (String.eqb a b) with false
      end
  end.

(** Evaluation of the engine on closed data: record fields and list
    functions by computation, comparisons of strings and of floats by
    decision. *)
Ltac engine_eval :=
  repeat (progress (
    cbn [event_type risk_score confidence timestamp duration location
         track_id positions timestamps detected_objects risk_events total_risk_score
         max_risk_score status last_seen zone_entry_time stationary_start last_bbox
         last_notified_threat
         DetectedObject.object DetectedObject.confidence DetectedObject.timestamp
         Detection.bbox Detection.confidence Detection.class Detection.center
         person_trackers loitering_threshold risk_alert_threshold
         critical_alert_threshold security_zones
         set_history set_detected_objects set_risk_events set_status
         set_stationary_start set_last_notified_threat set_person_trackers
         filter map app fold_left length existsb str_in opt_list
         andb orb negb fst snd Nat.ltb Nat.leb];
    string_decide; float_decide)).

Lemma intrusion_event_score (now : R) :
  now < 10 -> event_score intrusion_event now = 22.5.
Proof.
  intros H. unfold event_score, intrusion_event.
  cbn [event_type confidence timestamp duration].
  rewrite confidence_factor_cases.
  change (dict_get base_risk_scores "intrusion" 0) with 15.
  unfold _calculate_time_factor. float_decide. lra.
Qed.

Lemma armed_event_score (now : R) :
  now < 14 -> event_score armed_event now = 30.
Proof.
  intros H. unfold event_score, armed_event.
  cbn [event_type confidence timestamp duration].
  rewrite confidence_factor_cases.
  change (dict_get base_risk_scores "armed_person" 0) with 20.
  unfold _calculate_time_factor. float_decide. lra.
Qed.

Lemma notified_intruder_state :
  notified_intruder
  = mkPersonTracker 1 [(5, 5)%Z] [0] [] [intrusion_event]
      0 0 "intrusion" 0 None None [3; 3; 7; 7]%Z "intrusion".
Proof. unfold notified_intruder. rewrite intruder_state. reflexivity. Qed.

Lemma armed_intruder_state :
  armed_intruder
  = mkPersonTracker 1 [(5, 5)%Z] [0] [DetectedObject.mk "knife" 0.9 3]
      [intrusion_event; armed_event]
      0 0 "intrusion" 0 None None [3; 3; 7; 7]%Z "intrusion".
Proof.
  unfold armed_intruder. rewrite notified_intruder_state.
  cbn [last_bbox].
  assert (detect_carried_objects (fun _ => 3)
            (mkPersonTracker 1 [(5, 5)%Z] [0] [] [intrusion_event]
               0 0 "intrusion" 0 None None [3; 3; 7; 7]%Z "intrusion")
            [knife] [3; 3; 7; 7]%Z
          = mkPersonTracker 1 [(5, 5)%Z] [0] [DetectedObject.mk "knife" 0.9 3]
              [intrusion_event] 0 0 "intrusion" 0 None None [3; 3; 7; 7]%Z "intrusion")
    as -> by reflexivity.
  set (q := mkPersonTracker 1 [(5, 5)%Z] [0] [DetectedObject.mk "knife" 0.9 3]
              [intrusion_event] 0 0 "intrusion" 0 None None [3; 3; 7; 7]%Z "intrusion").
  assert (check_intrusion (lab_system []) q 4 = None) as Hi.
  { unfold check_intrusion, q, lab_system.
    cbn [positions security_zones check_intrusion_loop].
    unfold recent_events, intrusion_event. engine_eval.
    rewrite andb_false_r. reflexivity. }
  assert (check_weapons (lab_system []) q 4 = Some armed_event) as Hw.
  { unfold check_weapons, q, recent_events, intrusion_event, weapon_classes, last_position.
    engine_eval. reflexivity. }
  assert (check_loitering (lab_system []) q 4 = (q, None)) as Hl by reflexivity.
  assert (check_movement_patterns (lab_system []) q 4 = None) as Hm by reflexivity.
  unfold analyze_behavior. rewrite Hi, Hw, Hl, Hm.
  unfold q, intrusion_event, armed_event. engine_eval. reflexivity.
Qed.

(** The score of a track with fewer than 5 samples carrying the intrusion
    event alone, and with the armed-person event added. *)
Lemma intrusion_only_score (p : PersonTracker) (now : R) :
  positions p = [(5, 5)%Z] -> risk_events p = [intrusion_event] ->
  0 <= now < 10 ->
  calculate_risk_score p now = (22.5, "intrusion").
Proof.
  intros Hpos Hev Hnow.
  unfold calculate_risk_score, recent_event_count, get_movement_pattern.
  rewrite Hpos, Hev. cbn [fold_left]. unfold score_step.
  rewrite (intrusion_event_score now) by lra.
  unfold intrusion_event. engine_eval. unfold py_min. float_decide.
  f_equal. lra.
Qed.

Lemma intrusion_armed_score (p : PersonTracker) (now : R) :
  positions p = [(5, 5)%Z] -> risk_events p = [intrusion_event; armed_event] ->
  4 <= now < 10 ->
  calculate_risk_score p now = (52.5, "armed_person").
Proof.
  intros Hpos Hev Hnow.
  unfold calculate_risk_score, recent_event_count, get_movement_pattern.
  rewrite Hpos, Hev. cbn [fold_left]. unfold score_step.
  rewrite (intrusion_event_score now), (armed_event_score now) by lra.
  unfold intrusion_event, armed_event. engine_eval. unfold py_min. float_decide.
  f_equal. lra.
Qed.

Lemma lab_frame_tracker (p : PersonTracker) (t : R) (tid : Z) :
  track_id p = tid -> frame_tracker tid (mkFrame t (lab_system [p])) = Some p.
Proof.
  intros H. unfold frame_tracker, find_tracker.
  cbn [frame_system lab_system person_trackers find]. rewrite H, Z.eqb_refl. reflexivity.
Qed.

Lemma lab_frame_keys (p : PersonTracker) (t : R) :
  well_keyed (frame_system (mkFrame t (lab_system [p]))).
Proof. unfold well_keyed. cbn. constructor; [intros [] | constructor]. Qed.

Lemma lab_frame_threat (p : PersonTracker) (t score : R) (tid : Z) (threat : string) :
  track_id p = tid -> t - last_seen p < 5 ->
  calculate_risk_score p t = (score, threat) -> score >= 20 ->
  threat_in_frame tid threat (mkFrame t (lab_system [p])).
Proof.
  intros Hid Hact Hscore Hsig. exists p.
  split; [apply lab_frame_tracker; exact Hid |].
  cbn [frame_time frame_system lab_system risk_alert_threshold].
  split; [unfold is_active; apply Rltb_true; exact Hact |].
  rewrite Hscore. split; [exact Hsig | reflexivity].
Qed.

Lemma lab_frame_notified_before (p : PersonTracker) (t : R) (tid : Z) :
  track_id p = tid ->
  notified_before tid (mkFrame t (lab_system [p])) = Some (last_notified_threat p).
Proof.
  intros Hid. unfold notified_before. rewrite (lab_frame_tracker p t tid Hid). reflexivity.
Qed.

Lemma lab_frame_notified_after (p : PersonTracker) (t score : R) (tid : Z) (threat : string) :
  track_id p = tid -> t - last_seen p < 5 ->
  calculate_risk_score p t = (score, threat) -> score >= 20 ->
  notified_after tid (mkFrame t (lab_system [p])) = Some threat.
Proof.
  intros Hid Hact Hscore Hsig.
  destruct (frame_significant tid (mkFrame t (lab_system [p])) p) as (H & _).
  - apply lab_frame_keys.
  - apply lab_frame_tracker; exact Hid.
  - unfold is_active. apply Rltb_true. exact Hact.
  - cbn [frame_time frame_system lab_system risk_alert_threshold]. rewrite Hscore. exact Hsig.
  - cbn [frame_time] in H. rewrite Hscore in H. exact H.
Qed.

Lemma intruder_score (t : R) :
  0 <= t < 10 -> calculate_risk_score (intruder 1) t = (22.5, "intrusion").
Proof. intros H. apply intrusion_only_score; [rewrite intruder_state; reflexivity .. | exact H]. Qed.

Lemma notified_intruder_score (t : R) :
  0 <= t < 10 -> calculate_risk_score notified_intruder t = (22.5, "intrusion").
Proof.
  intros H. apply intrusion_only_score;
    [rewrite notified_intruder_state; reflexivity .. | exact H].
Qed.

Lemma armed_intruder_score (t : R) :
  4 <= t < 10 -> calculate_risk_score armed_intruder t = (52.5, "armed_person").
Proof.
  intros H. apply intrusion_armed_score;
    [rewrite armed_intruder_state; reflexivity .. | exact H].
Qed.

Lemma first_frame_facts (t : R) :
  0 <= t < 5 ->
  threat_in_frame 1 "intrusion" (mkFrame t (lab_system [intruder 1]))
  /\ notified_before 1 (mkFrame t (lab_system [intruder 1])) = Some "normal"
  /\ notified_after 1 (mkFrame t (lab_system [intruder 1])) = Some "intrusion".
Proof.
  intros H.
  assert (track_id (intruder 1) = 1%Z) as Hid by (rewrite intruder_state; reflexivity).
  assert (t - last_seen (intruder 1) < 5) as Hact
    by (rewrite intruder_state; cbn [last_seen]; lra).
  assert (22.5 >= 20) as Hsig by lra.
  split; [exact (lab_frame_threat _ t 22.5 1 _ Hid Hact (intruder_score t ltac:(lra)) Hsig) |].
  split; [rewrite (lab_frame_notified_before _ t 1 Hid), intruder_state; reflexivity |].
  exact (lab_frame_notified_after _ t 22.5 1 _ Hid Hact (intruder_score t ltac:(lra)) Hsig).
Qed.

Lemma later_frame_facts (t : R) :
  0 <= t < 5 ->
  threat_in_frame 1 "intrusion" (mkFrame t (lab_system [notified_intruder]))
  /\ notified_before 1 (mkFrame t (lab_system [notified_intruder])) = Some "intrusion"
  /\ notified_after 1 (mkFrame t (lab_system [notified_intruder])) = Some "intrusion".
Proof.
  intros H.
  assert (track_id notified_intruder = 1%Z) as Hid
    by (rewrite notified_intruder_state; reflexivity).
  assert (t - last_seen notified_intruder < 5) as Hact
    by (rewrite notified_intruder_state; cbn [last_seen]; lra).
  assert (22.5 >= 20) as Hsig by lra.
  split; [exact (lab_frame_threat _ t 22.5 1 _ Hid Hact
                   (notified_intruder_score t ltac:(lra)) Hsig) |].
  split; [rewrite (lab_frame_notified_before _ t 1 Hid), notified_intruder_state;
          reflexivity |].
  exact (lab_frame_notified_after _ t 22.5 1 _ Hid Hact
           (notified_intruder_score t ltac:(lra)) Hsig).
Qed.

Lemma armed_frame_facts :
  threat_in_frame 1 "armed_person" armed_frame
  /\ notified_before 1 armed_frame = Some "intrusion"
  /\ frame_tracker 1 armed_frame = Some armed_intruder.
Proof.
  assert (track_id armed_intruder = 1%Z) as Hid
    by (rewrite armed_intruder_state; reflexivity).
  assert (4.5 - last_seen armed_intruder < 5) as Hact
    by (rewrite armed_intruder_state; cbn [last_seen]; lra).
  assert (52.5 >= 20) as Hsig by lra.
  unfold armed_frame.
  split; [exact (lab_frame_threat _ 4.5 52.5 1 _ Hid Hact
                   (armed_intruder_score 4.5 ltac:(lra)) Hsig) |].
  split; [rewrite (lab_frame_notified_before _ 4.5 1 Hid), armed_intruder_state;
          reflexivity |].
  apply lab_frame_tracker. exact Hid.
Qed.

(** An instance: the intruder is first seen at time 0 and stays for the
    frames of times 0 to 4; the frame of time 4.5 finds the knife.  Five
    incidents and one alert, then a CRITICAL alert at score 52.5. *)
Lemma alert_dedup_over_frames_witness :
  length intrusion_frames = 5%nat
  /\ Forall (threat_in_frame 1 "intrusion") intrusion_frames
  /\ threat_in_frame 1 "armed_person" armed_frame
  /\ length (concat (map (frame_incidents 1) intrusion_frames)) = 5%nat
  /\ length (concat (map (frame_alerts 1) intrusion_frames)) = 1%nat
  /\ exists a, frame_alerts 1 armed_frame = [a]
               /\ Alert.threat_type a = "armed_person"
               /\ Alert.level a = "CRITICAL".
Proof.
  assert (Forall (threat_in_frame 1 "intrusion") intrusion_frames) as Hthreat.
  { unfold intrusion_frames. cbn [map].
    apply Forall_cons; [apply first_frame_facts; lra |].
    repeat (apply Forall_cons; [apply later_frame_facts; lra |]). apply Forall_nil. }
  assert (Forall (fun f => well_keyed (frame_system f)) (intrusion_frames ++ [armed_frame]))
    as Hkeys.
  { unfold intrusion_frames, armed_frame. cbn [map app].
    repeat (apply Forall_cons; [apply lab_frame_keys |]). apply Forall_nil. }
  assert (consecutive 1 (intrusion_frames ++ [armed_frame])) as Hcons.
  { unfold intrusion_frames. cbn [map app consecutive].
    destruct (first_frame_facts 0 ltac:(lra)) as (_ & _ & A0).
    destruct (later_frame_facts 1 ltac:(lra)) as (_ & B1 & A1).
    destruct (later_frame_facts 2 ltac:(lra)) as (_ & B2 & A2).
    destruct (later_frame_facts 3 ltac:(lra)) as (_ & B3 & A3).
    destruct (later_frame_facts 4 ltac:(lra)) as (_ & B4 & A4).
    destruct armed_frame_facts as (_ & B5 & _).
    rewrite A0, A1, A2, A3, A4, B1, B2, B3, B4, B5. repeat split. }
  assert (forall f, hd_error intrusion_frames = Some f ->
                    notified_before 1 f <> Some "intrusion") as Hfirst.
  { intros f Hf. unfold intrusion_frames in Hf. cbn [hd_error] in Hf. injection Hf as <-.
    destruct (first_frame_facts 0 ltac:(lra)) as (_ & B0 & _). rewrite B0. discriminate. }
  destruct (alert_dedup_over_frames 1 intrusion_frames armed_frame
              eq_refl Hkeys Hcons Hthreat Hfirst) as (_ & Hinc & Hal & H6).
  destruct armed_frame_facts as (Harmed & _ & Hfind).
  split; [reflexivity |]. split; [exact Hthreat |]. split; [exact Harmed |].
  split; [exact Hinc |]. split; [exact Hal |].
  destruct (H6 Harmed) as (p & risk & a & Hp & Hrisk & _ & Ha & Hty & _ & Hlvl & _).
  exists a. split; [exact Ha |]. split; [exact Hty |].
  rewrite Hlvl, Hrisk. rewrite Hfind in Hp. injection Hp as <-.
  cbn [armed_frame frame_time frame_system lab_system critical_alert_threshold].
  rewrite (armed_intruder_score 4.5) by lra. cbn [fst]. float_decide. reflexivity.
Defined.

(** Five consecutive frames of a sustained intrusion that begin after the
    intrusion was notified: the track is active with a significant
    "intrusion" threat in each, five incidents are logged, and no alert at
    all is emitted over them. *)
Lemma alert_dedup_counterexample :
  length later_frames = 5%nat
  /\ Forall (fun f => well_keyed (frame_system f)) later_frames
  /\ consecutive 1 later_frames
  /\ Forall (threat_in_frame 1 "intrusion") later_frames
  /\ length (concat (map (frame_incidents 1) later_frames)) = 5%nat
  /\ length (concat (map (frame_alerts 1) later_frames)) = 0%nat.
Proof.
  destruct (later_frame_facts 1 ltac:(lra)) as (T1 & B1 & A1).
  destruct (later_frame_facts 2 ltac:(lra)) as (T2 & B2 & A2).
  destruct (later_frame_facts 3 ltac:(lra)) as (T3 & B3 & A3).
  destruct (later_frame_facts 4 ltac:(lra)) as (T4 & B4 & A4).
  destruct (later_frame_facts 4.5 ltac:(lra)) as (T5 & B5 & A5).
  assert (Forall (fun f => well_keyed (frame_system f)) later_frames) as Hkeys.
  { unfold later_frames. cbn [map].
    repeat (apply Forall_cons; [apply lab_frame_keys |]). apply Forall_nil. }
  assert (Forall (threat_in_frame 1 "intrusion") later_frames) as Hthreat.
  { unfold later_frames. cbn [map].
    repeat (apply Forall_cons; [assumption |]). apply Forall_nil. }
  assert (consecutive 1 (later_frames ++ [mkFrame 4.75 (lab_system [notified_intruder])]))
    as Hcons.
  { unfold later_frames. cbn [map app consecutive].
    destruct (later_frame_facts 4.75 ltac:(lra)) as (_ & B6 & _).
    rewrite A1, A2, A3, A4, A5, B2, B3, B4, B5, B6. repeat split. }
  destruct (same_threat_run 1 "intrusion" later_frames
              (mkFrame 4.75 (lab_system [notified_intruder])) "intrusion")
    as (Hinc & Hal & _); try assumption.
  { discriminate. }
  { intros f Hf. unfold later_frames in Hf. cbn [hd_error map] in Hf.
    injection Hf as <-. exact B1. }
  split; [reflexivity |]. split; [exact Hkeys |].
  split; [exact (consecutive_app_l _ _ _ Hcons) |].
  split; [exact Hthreat |].
  split; [rewrite (concat_length_ones _ _ Hinc); reflexivity |].
  exact Hal.
Qed.

(** ** The active-track criterion *)

(** Off the boundary the two tests of the code agree: a track is skipped by
    [process_alerts] exactly when it is not active, unless
    [now - last_seen] is exactly 5. *)
Lemma active_iff_not_skipped (p : PersonTracker) (now : R) :
  now - last_seen p <> 5 -> alerts_skip p now = negb (is_active p now).
Proof.
  intros H. unfold alerts_skip, is_active. float_cases; try reflexivity; lra.
Qed.

(** A track last seen more than 5 seconds ago gets no incident and no alert. *)
Lemma dispatch_person_stale (score : PersonTracker -> R -> result (R * string))
    (self : SecurityMonitoringSystem) (now : R) (p : PersonTracker) :
  now - last_seen p > 5 -> dispatch_person score self now p = (p, [], []).
Proof.
  intros H. unfold dispatch_person, alerts_skip.
  apply Rgtb_true in H. rewrite H. reflexivity.
Qed.

(** C5 (failing input).  The intruder was last seen at time 0 and is looked
    at again at time 5, so [now - last_seen] is exactly 5 and the track is
    inactive by the criterion [now - last_seen < 5]: [get_system_statistics]
    counts no active tracker and leaves the risk distribution empty.  But
    [process_alerts] skips a track only when [now - last_seen > 5], and emits
    an incident and a HIGH alert (score 22.5) for it. *)
Theorem boundary_track_dispatched_not_counted :
  let sys := lab_system [intruder 1] in
  let p := set_status (intruder 1) "intrusion" in
  5 - last_seen (intruder 1) = 5
  /\ is_active (intruder 1) 5 = false
  /\ Statistics.active_trackers (get_system_statistics sys 5) = 0%nat
  /\ Statistics.risk_distribution (get_system_statistics sys 5) = mkRiskDistribution 0 0 0 0
  /\ snd (fst (process_alerts sys 5)) = [make_incident p 5 22.5 "intrusion"]
  /\ snd (process_alerts sys 5) = [make_alert sys p 5 22.5 "intrusion"]
  /\ Alert.level (make_alert sys p 5 22.5 "intrusion") = "HIGH".
Proof.
  intros sys p.
  assert (last_seen (intruder 1) = 0) as Hseen by (rewrite intruder_state; reflexivity).
  assert (is_active (intruder 1) 5 = false) as Hact.
  { unfold is_active. rewrite Hseen. apply Rltb_false. lra. }
  assert (alerts_skip (intruder 1) 5 = false) as Hskip.
  { unfold alerts_skip. rewrite Hseen. apply Rgtb_false. lra. }
  pose proof (intruder_score 5 ltac:(lra)) as Hscore.
  assert (dispatch_person (fun q t => Ok (calculate_risk_score q t)) sys 5 (intruder 1)
          = (set_last_notified_threat p "intrusion",
             [make_incident p 5 22.5 "intrusion"],
             [make_alert sys p 5 22.5 "intrusion"])) as Hd.
  { rewrite (dispatch_significant sys 5 (intruder 1) Hskip)
      by (rewrite Hscore; cbn [fst sys lab_system risk_alert_threshold]; lra).
    rewrite Hscore. cbn [fst snd]. rewrite intruder_state at 1.
    cbn [last_notified_threat]. reflexivity. }
  split; [rewrite Hseen; lra |].
  split; [exact Hact |].
  assert (active_trackers sys 5 = []) as Hnone.
  { unfold active_trackers. cbn [sys lab_system person_trackers filter].
    rewrite Hact. reflexivity. }
  split; [unfold get_system_statistics; rewrite Hnone; reflexivity |].
  split; [unfold get_system_statistics; rewrite Hnone; reflexivity |].
  unfold process_alerts, process_alerts_with.
  cbn [sys lab_system person_trackers process_alerts_loop].
  fold sys. rewrite Hd. cbn [fst snd app].
  split; [reflexivity |]. split; [reflexivity |].
  unfold make_alert. cbn [Alert.level sys lab_system critical_alert_threshold].
  float_decide. reflexivity.
Qed.

(** ** Faults of one track *)

(** An unguarded loop stops at the first person on which its body raises. *)
Lemma for_each_unguarded_raises (body : PersonTracker -> result PersonTracker)
    (before after : list PersonTracker) (p : PersonTracker) (msg : string) :
  (forall q, In q before -> exists q', body q = Ok q') ->
  body p = Raise msg ->
  for_each_unguarded body (before ++ p :: after) = Raise msg.
Proof.
  intros Hok Hp. induction before as [| q before IH]; cbn [app for_each_unguarded].
  - rewrite Hp. reflexivity.
  - destruct (Hok q (or_introl eq_refl)) as [q' ->].
    rewrite IH; [reflexivity |]. intros r Hr. apply Hok. right. exact Hr.
Qed.

(** C6 (failing input).  Two intruders are active in one frame, and the
    evaluation of track 1 raises.  In [process_alerts] the exception is caught:
    track 2 still gets its incident and its alert.  In the analysis loop of
    [process_frame], which has no [try], the same exception leaves the loop:
    the call raises and track 2 is not analysed, although without the fault
    the loop analyses both tracks. *)
Theorem analysis_loop_not_fault_isolated :
  let sys := lab_system [intruder 1; intruder 2] in
  let msg := "OverflowError: int too large to convert to float" in
  let p2 := set_status (intruder 2) "intrusion" in
  snd (fst (process_alerts_with
              (fun p t => raising_on 1 msg (fun q => calculate_risk_score q t) p) sys 1))
    = [make_incident p2 1 22.5 "intrusion"]
  /\ snd (process_alerts_with
            (fun p t => raising_on 1 msg (fun q => calculate_risk_score q t) p) sys 1)
    = [make_alert sys p2 1 22.5 "intrusion"]
  /\ process_frame_analysis_with
       (raising_on 1 msg (analyze_person sys (fun _ => 1) [] 1)) sys
     = Raise msg
  /\ process_frame_analysis sys (fun _ => 1) [] 1
     = Ok (set_person_trackers sys
             [analyze_person sys (fun _ => 1) [] 1 (intruder 1);
              analyze_person sys (fun _ => 1) [] 1 (intruder 2)]).
Proof.
  intros sys msg p2.
  assert (forall tid, track_id (intruder tid) = tid) as Hid
    by (intros tid; rewrite intruder_state; reflexivity).
  assert (dispatch_person
            (fun p t => raising_on 1 msg (fun q => calculate_risk_score q t) p) sys 1
            (intruder 1)
          = (intruder 1, [], [])) as H1.
  { unfold dispatch_person, raising_on, alerts_skip. rewrite Hid.
    rewrite intruder_state at 1. cbn [last_seen]. float_decide. reflexivity. }
  assert (dispatch_person
            (fun p t => raising_on 1 msg (fun q => calculate_risk_score q t) p) sys 1
            (intruder 2)
          = (set_last_notified_threat p2 "intrusion",
             [make_incident p2 1 22.5 "intrusion"],
             [make_alert sys p2 1 22.5 "intrusion"])) as H2.
  { unfold dispatch_person, raising_on, alerts_skip. rewrite Hid.
    rewrite intruder_state at 1. cbn [last_seen]. float_decide.
    cbn [Z.eqb Pos.eqb].
    rewrite (intrusion_only_score (intruder 2) 1)
      by (try (rewrite intruder_state; reflexivity); lra).
    cbn [sys lab_system risk_alert_threshold]. float_decide.
    fold sys. fold p2.
    assert (last_notified_threat p2 = "normal") as ->
      by (unfold p2; rewrite intruder_state; reflexivity).
    reflexivity. }
  unfold process_alerts_with, process_frame_analysis, process_frame_analysis_with.
  cbn [sys lab_system person_trackers process_alerts_loop for_each_unguarded].
  fold sys. rewrite H1, H2. cbn [fst snd app].
  split; [reflexivity |]. split; [reflexivity |].
  split; [| reflexivity].
  unfold raising_on at 1. rewrite Hid. reflexivity.
Qed.

(** * More of the engine *)

(** ** More on the risk score *)

(** X1.  A track without risk events scores (0.0, "normal"), whatever its
    position history and the current time. *)
Theorem no_events_score_zero :
  forall (p : PersonTracker) (now : R),
    calculate_risk_score (set_risk_events p []) now = (0, "normal").
Proof.
  intros p now. unfold calculate_risk_score, recent_event_count.
  cbn [set_risk_events risk_events fold_left filter length Nat.ltb Nat.leb].
  rewrite andb_false_r.
  assert (py_min 0 100 = 0) as H0 by (unfold py_min; float_decide; reflexivity).
  destruct (String.eqb _ "erratic");
    [| destruct (String.eqb _ "running")];
    rewrite ?Rmult_0_l, H0; reflexivity.
Qed.

(** The state of the loop after the events [seen]: either no event has a
    computed score above 0, or the primary threat is the type of the first
    event with the highest computed score. *)
Lemma score_loop_primary (computed : RiskEvent -> R) (rest seen : list RiskEvent)
    (t : R) (th : string) (m : R) :
  primary_of computed seen th m ->
  primary_of computed (seen ++ rest)
    (snd (fst (fold_left (score_step_computed computed) rest (t, th, m))))
    (snd (fold_left (score_step_computed computed) rest (t, th, m))).
Proof.
  revert seen t th m. induction rest as [| e rest IH]; intros seen t th m Hinv.
  - rewrite app_nil_r. exact Hinv.
  - cbn [fold_left]. replace (seen ++ e :: rest) with ((seen ++ [e]) ++ rest)
      by (rewrite <- app_assoc; reflexivity).
    unfold score_step_computed at 2 4. cbv zeta.
    destruct (computed e >? m) eqn:E.
    + apply Rgtb_true in E. apply IH. right.
      destruct Hinv as [(Hm & _ & Hall) | (b & e0 & a & Hs & _ & Hm & Hpos & Hb & Ha)].
      * exists seen, e, []. repeat split; try reflexivity; try lra; [| constructor].
        eapply Forall_impl; [| exact Hall]. cbn beta. intros; lra.
      * exists seen, e, []. repeat split; try reflexivity; try lra; [| constructor].
        rewrite Hs. apply Forall_app. split.
        -- eapply Forall_impl; [| exact Hb]. cbn beta. intros; lra.
        -- constructor; [lra |]. eapply Forall_impl; [| exact Ha]. cbn beta. intros; lra.
    + apply Rgtb_false in E. apply IH.
      destruct Hinv as [(Hm & Hth & Hall) | (b & e0 & a & Hs & Hth & Hm & Hpos & Hb & Ha)].
      * left. repeat split; try assumption. apply Forall_app. split; [exact Hall |].
        constructor; [lra | constructor].
      * right. exists b, e0, (a ++ [e]). repeat split; try assumption.
        -- rewrite Hs, <- app_assoc. reflexivity.
        -- apply Forall_app. split; [exact Ha |]. constructor; [lra | constructor].
Qed.

Lemma event_score_pos_base (e : RiskEvent) (now : R) :
  0 < event_score e now -> 0 < dict_get base_risk_scores (event_type e) 0.
Proof.
  intros H. rewrite event_score_factored in H. unfold event_weight in H.
  pose proof (base_score_nonneg (event_type e)) as [Hb | Hb]; [exact Hb |].
  rewrite <- Hb in H. rewrite !Rmult_0_l, Rmult_0_r in H. lra.
Qed.

(** With the products carried out exactly, the loop is the one of
    [calculate_risk_score]. *)
Lemma score_step_exact (now : R) :
  score_step now = score_step_computed (fun e => event_score e now).
Proof. reflexivity. Qed.

Lemma primary_threat_exact (p : PersonTracker) (now : R) :
  snd (calculate_risk_score p now)
  = primary_threat_computed (fun e => event_score e now) (risk_events p).
Proof.
  unfold calculate_risk_score, primary_threat_computed. rewrite score_step_exact.
  destruct (fold_left _ (risk_events p) (0, "normal", 0)) as [[t th] m]. reflexivity.
Qed.

(** X2.  Whatever values the event scores evaluate to (in double precision
    or exactly), the primary threat that the loop of [calculate_risk_score]
    selects is "normal" when no event has a computed score above 0, and
    otherwise the type of the first event, in list order, whose computed score
    is the highest: strictly above the computed score of every earlier event
    and at least that of every later one.  Two events whose exact scores are
    equal are told apart by their computed scores.  The primary threat of the
    model, which multiplies exactly, is the instance for the exact scores. *)
Theorem primary_threat_is_first_highest :
  forall (computed : RiskEvent -> R) (events : list RiskEvent)
         (p : PersonTracker) (now : R),
    ((primary_threat_computed computed events = "normal"
      /\ Forall (fun e => computed e <= 0) events)
     \/ (exists before e after,
           events = before ++ e :: after
           /\ primary_threat_computed computed events = event_type e
           /\ 0 < computed e
           /\ Forall (fun e' => computed e' < computed e) before
           /\ Forall (fun e' => computed e' <= computed e) after))
    /\ snd (calculate_risk_score p now)
       = primary_threat_computed (fun e => event_score e now) (risk_events p).
Proof.
  intros computed events p now. split; [| apply primary_threat_exact].
  assert (primary_of computed [] "normal" 0) as H0
    by (left; repeat split; constructor).
  pose proof (score_loop_primary computed events [] 0 "normal" 0 H0) as H.
  cbn [app] in H. unfold primary_threat_computed.
  destruct H as [(_ & Hth & Hall) | (b & e & a & Hev & Hth & Hm & Hpos & Hb & Ha)].
  - left. split; assumption.
  - right. exists b, e, a. rewrite Hm in Hpos. repeat split; assumption.
Qed.

(** Two events whose exact scores are equal, looked at at time 15: an
    "armed_person" event of confidence 0.7 and time 0 (20 x 0.8 x 1.2), then a
    "suspicious_loitering" event of confidence 0.8, time 14 and duration 130
    (8 x 1.0 x 1.5 x 1.6).  With exact products both score 19.2 and the first
    stays the primary threat; when the computed scores are the doubles 19.2
    and 19.200000000000003, the second one is selected. *)
Lemma equal_scores_told_apart :
  let armed := mkRiskEvent "armed_person" 0 0.7 0 0 (5, 5)%Z in
  let loitering := mkRiskEvent "suspicious_loitering" 8 0.8 14 130 (5, 5)%Z in
  let doubles := fun e => if String.eqb (event_type e) "armed_person"
                          then 19.2 else 19.200000000000003 in
  event_score armed 15 = 19.2
  /\ event_score loitering 15 = 19.2
  /\ primary_threat_computed (fun e => event_score e 15) [armed; loitering] = "armed_person"
  /\ primary_threat_computed doubles [armed; loitering] = "suspicious_loitering".
Proof.
  intros armed loitering doubles.
  assert (event_score armed 15 = 19.2) as Ha.
  { unfold event_score, armed. cbn [event_type confidence timestamp duration].
    rewrite confidence_factor_cases.
    change (dict_get base_risk_scores "armed_person" 0) with 20.
    unfold _calculate_time_factor. float_decide. lra. }
  assert (event_score loitering 15 = 19.2) as Hl.
  { unfold event_score, loitering. cbn [event_type confidence timestamp duration].
    rewrite confidence_factor_cases.
    change (dict_get base_risk_scores "suspicious_loitering" 0) with 8.
    unfold _calculate_time_factor, py_min. float_decide. lra. }
  split; [exact Ha |]. split; [exact Hl |]. split.
  - unfold primary_threat_computed. cbn [fold_left]. unfold score_step_computed.
    cbv zeta. rewrite Ha, Hl. engine_eval. reflexivity.
  - unfold primary_threat_computed, doubles, armed, loitering.
    cbn [fold_left]. unfold score_step_computed. cbn [event_type]. string_decide.
    cbv zeta. engine_eval. reflexivity.
Qed.

Lemma pattern_multiplier_bounds (p : PersonTracker) : 1 <= pattern_multiplier p <= 1.3.
Proof.
  unfold pattern_multiplier.
  repeat match goal with
  | |- context [if ?b then _ else _] => destruct b; [lra |]
  end. lra.
Qed.

Lemma escalation_multiplier_bounds (p : PersonTracker) (now : R) :
  1 <= escalation_multiplier p now <= 1.4.
Proof. unfold escalation_multiplier. destruct (2 <? _)%nat; lra. Qed.


Lemma exp_le_1 (x : R) : x <= 0 -> exp x <= 1.
Proof.
  intros [H | ->]; [| rewrite exp_0; lra].
  pose proof (exp_increasing x 0 H) as Hlt. rewrite exp_0 in Hlt. lra.
Qed.

Lemma exp_le_mono (x y : R) : x <= y -> exp x <= exp y.
Proof.
  intros [H | ->]; [| lra]. pose proof (exp_increasing x y H). lra.
Qed.

Lemma py_max_le_mono (a b c : R) : b <= c -> py_max a b <= py_max a c.
Proof. intros H. unfold py_max. float_cases; lra. Qed.

(** The time factor of an event lies between 0.3 and 1.5 and never grows
    with the current time. *)
Lemma time_factor_bounds_mono (event_time now now' : R) :
  now <= now' ->
  0.3 <= _calculate_time_factor event_time now' <= _calculate_time_factor event_time now
  /\ _calculate_time_factor event_time now <= 1.5.
Proof.
  intros Hle. rename event_time into te.
  assert (forall t, 120 <= t - te ->
            0.3 <= py_max 0.3 (exp (- (t - te) / 300)) <= 1) as Hold.
  { intros t Ht. pose proof (py_max_ge_l 0.3 (exp (- (t - te) / 300))).
    pose proof (exp_le_1 (- (t - te) / 300) ltac:(lra)).
    split; [assumption |]. unfold py_max. float_cases; lra. }
  assert (0.3 <= _calculate_time_factor te now' <= 1.5
          /\ 0.3 <= _calculate_time_factor te now <= 1.5) as [Hb' Hb].
  { split; unfold _calculate_time_factor; cbv zeta;
      float_cases; try lra;
      match goal with
      | |- context [py_max 0.3 (exp (- (?t - te) / 300))] =>
          pose proof (Hold t ltac:(lra)); lra
      end. }
  split; [split; [lra |] | lra].
  unfold _calculate_time_factor. cbv zeta.
  destruct (now' - te <? 10) eqn:E1'.
  { apply Rltb_true in E1'. float_decide. lra. }
  apply Rltb_false in E1'.
  destruct (now' - te <? 30) eqn:E2'.
  { apply Rltb_true in E2'. float_cases; lra. }
  apply Rltb_false in E2'.
  destruct (now' - te <? 120) eqn:E3'.
  { apply Rltb_true in E3'. float_cases; lra. }
  apply Rltb_false in E3'.
  pose proof (Hold now' E3') as H'.
  float_cases; try lra.
  apply py_max_le_mono, exp_le_mono. lra.
Qed.

Lemma event_score_decays (e : RiskEvent) (now now' : R) :
  now <= now' -> event_score e now' <= event_score e now.
Proof.
  intros Hle. rewrite !event_score_factored.
  pose proof (confidence_factor_pos (confidence e)) as Hc.
  apply Rmult_le_compat_l; [lra |].
  unfold event_weight.
  pose proof (base_score_nonneg (event_type e)) as Hb.
  destruct (time_factor_bounds_mono (timestamp e) now now' Hle) as [[H1 H2] H3].
  assert (0 <= (if duration e >? 30 then 1 + py_min (duration e / 60) 2 * 0.3 else 1)) as Hd.
  { destruct (duration e >? 30) eqn:E; [| lra]. apply Rgtb_true in E.
    unfold py_min. float_cases; lra. }
  apply Rmult_le_compat_r; [exact Hd |].
  apply Rmult_le_compat_l; [exact Hb | exact H2].
Qed.

Lemma events_total_decays (events : list RiskEvent) (now now' : R) :
  now <= now' -> events_total now' events <= events_total now events.
Proof.
  intros Hle. induction events as [| e events IH]; cbn [events_total fold_right]; [lra |].
  fold (events_total now' events) (events_total now events).
  pose proof (event_score_decays e now now' Hle). lra.
Qed.

Lemma recent_event_count_decays (p : PersonTracker) (now now' : R) :
  now <= now' -> (recent_event_count p now' <= recent_event_count p now)%nat.
Proof.
  intros Hle. unfold recent_event_count.
  induction (risk_events p) as [| e l IH]; [reflexivity |].
  cbn [filter].
  destruct (now' - timestamp e <? 60) eqn:E'.
  - apply Rltb_true in E'.
    replace (now - timestamp e <? 60) with true by (symmetry; apply Rltb_true; lra).
    cbn [length]. lia.
  - destruct (now - timestamp e <? 60); cbn [length]; lia.
Qed.

(** X4.  Without new events a score only decays.  The time factor of an
    event lies between 0.3 and 1.5 and never grows with the current time, and
    the total score of a track whose events and positions are unchanged is
    never higher at a later time. *)
Theorem score_decays_with_time :
  forall (p : PersonTracker) (now now' : R),
    now <= now' ->
    Forall (fun e =>
              0.3 <= _calculate_time_factor (timestamp e) now'
                  <= _calculate_time_factor (timestamp e) now
              /\ _calculate_time_factor (timestamp e) now <= 1.5)
           (risk_events p)
    /\ fst (calculate_risk_score p now') <= fst (calculate_risk_score p now).
Proof.
  intros p now now' Hle. split.
  - apply Forall_forall. intros e _. apply time_factor_bounds_mono. exact Hle.
  - rewrite !calculate_risk_score_total. apply py_min_mono.
    pose proof (events_total_decays (risk_events p) now now' Hle) as Ht.
    pose proof (events_total_nonneg now' (risk_events p)) as Ht0.
    pose proof (pattern_multiplier_bounds p) as Hp.
    pose proof (escalation_multiplier_bounds p now') as He'.
    assert (escalation_multiplier p now' <= escalation_multiplier p now) as He.
    { unfold escalation_multiplier.
      pose proof (recent_event_count_decays p now now' Hle) as Hc.
      destruct (Nat.ltb_spec 2 (recent_event_count p now'));
        destruct (Nat.ltb_spec 2 (recent_event_count p now)); try lra; lia. }
    assert (events_total now' (risk_events p) * pattern_multiplier p
            <= events_total now (risk_events p) * pattern_multiplier p) as H1
      by (apply Rmult_le_compat_r; lra).
    assert (0 <= events_total now' (risk_events p) * pattern_multiplier p) as H0
      by (apply Rmult_le_pos; lra).
    apply Rmult_le_compat; lra.
Qed.

(** An instance: the intruder, whose event is of time 0, after 5 and after
    200 seconds. *)
Lemma score_decays_with_time_witness :
  fst (calculate_risk_score (intruder 1) 200) <= fst (calculate_risk_score (intruder 1) 5).
Proof. apply (score_decays_with_time (intruder 1) 5 200). lra. Defined.

(** ** Speed *)

Lemma speed_loop_nonneg (ps : list Point) (ts : list R) (l : list nat) (acc : R * R) :
  0 <= fst acc -> 0 <= snd acc ->
  0 <= fst (fold_left (speed_step ps ts) l acc)
  /\ 0 <= snd (fold_left (speed_step ps ts) l acc).
Proof.
  revert acc. induction l as [| i l IH]; intros acc Hd Ht; [split; assumption |].
  cbn [fold_left]. apply IH; unfold speed_step; cbv zeta;
    pose proof (step_length_nonneg (nth (i - 1) ps (0, 0)%Z) (nth i ps (0, 0)%Z));
    destruct (_ >? 0) eqn:E; cbn [fst snd]; try assumption;
    apply Rgtb_true in E; lra.
Qed.

(** X5.  The speed of a track is never negative, and it is 0 for a track
    with fewer than 2 samples. *)
Theorem get_speed_nonneg :
  forall p : PersonTracker,
    0 <= get_speed p
    /\ ((length (positions p) <? 2)%nat = true -> get_speed p = 0).
Proof.
  intros p. unfold get_speed.
  destruct (length (positions p) <? 2)%nat; [split; [lra | reflexivity] |].
  split; [| discriminate].
  destruct (speed_loop_nonneg (positions p) (timestamps p)
              (seq 1 (length (positions p) - 1)) (0, 0)) as [Hd Ht];
    cbn [fst snd]; try lra.
  destruct (fold_left _ _ _) as [d t]. cbn [fst snd] in *.
  destruct (t >? 0) eqn:E; [| lra].
  apply Rgtb_true in E. apply Rmult_le_pos; [exact Hd |].
  left. apply Rinv_0_lt_compat. lra.
Qed.

(** While every time difference is positive, the loop of [get_speed] sums
    the step lengths and telescopes the time differences. *)
Lemma speed_loop_increasing (ps : list Point) (ts : list R) (k start : nat) (d t : R) :
  (1 <= start)%nat ->
  (forall i, (start <= i < start + k)%nat -> nth (i - 1) ts 0 < nth i ts 0) ->
  fold_left (speed_step ps ts) (seq start k) (d, t)
  = (fold_left (fun acc i => acc + step_length (nth (i - 1) ps (0, 0)%Z) (nth i ps (0, 0)%Z))
       (seq start k) d,
     t + (nth (start + k - 1) ts 0 - nth (start - 1) ts 0)).
Proof.
  revert start d t. induction k as [| k IH]; intros start d t Hs Hinc.
  - cbn [seq fold_left]. replace (start + 0 - 1)%nat with (start - 1)%nat by lia.
    f_equal. lra.
  - cbn [seq fold_left]. unfold speed_step at 2. cbv zeta.
    pose proof (Hinc start ltac:(lia)) as H0.
    destruct (_ >? 0) eqn:E; [| apply Rgtb_false in E; lra].
    cbn [fst snd]. rewrite IH; [| lia | intros i Hi; apply Hinc; lia].
    f_equal. replace (S start + k - 1)%nat with (start + S k - 1)%nat by lia.
    replace (S start - 1)%nat with start by lia. lra.
Qed.

Lemma last_nth_pred {A : Type} (l : list A) (d : A) :
  last l d = nth (length l - 1) l d.
Proof.
  induction l as [| a [| b l] IH]; [reflexivity | reflexivity |].
  change (last (a :: b :: l) d) with (last (b :: l) d). rewrite IH.
  cbn [length Nat.sub nth]. rewrite ?Nat.sub_0_r. reflexivity.
Qed.

(** X6.  On a track of at least two samples whose timestamps strictly
    increase, the speed is the length of the stored path divided by the time
    between the first and the last stored sample. *)
Theorem get_speed_path_over_time :
  forall p : PersonTracker,
    length (timestamps p) = length (positions p) ->
    (2 <= length (positions p))%nat ->
    (forall i, (1 <= i < length (timestamps p))%nat ->
               nth (i - 1) (timestamps p) 0 < nth i (timestamps p) 0) ->
    get_speed p
    = total_movement (positions p) / (last (timestamps p) 0 - hd 0 (timestamps p)).
Proof.
  intros p Hlen Hn Hinc. unfold get_speed.
  destruct (Nat.ltb_spec (length (positions p)) 2) as [Hlt | _]; [lia |].
  rewrite speed_loop_increasing; [| lia | intros i Hi; apply Hinc; lia].
  replace (1 + (length (positions p) - 1) - 1)%nat
    with (length (timestamps p) - 1)%nat by lia.
  rewrite <- last_nth_pred.
  replace (nth (1 - 1) (timestamps p) 0) with (hd 0 (timestamps p))
    by (destruct (timestamps p); reflexivity).
  assert (hd 0 (timestamps p) < last (timestamps p) 0) as Hpos.
  { rewrite Hlen in Hinc.
    assert (forall k, (k < length (positions p))%nat ->
              (1 <= k)%nat -> nth 0 (timestamps p) 0 < nth k (timestamps p) 0) as Hk.
    { induction k as [| k IH]; intros Hk H1; [lia |].
      destruct k as [| k].
      - apply (Hinc 1%nat). lia.
      - eapply Rlt_trans; [apply IH; lia |].
        pose proof (Hinc (S (S k)) ltac:(lia)) as H.
        replace (S (S k) - 1)%nat with (S k) in H by lia. exact H. }
    rewrite last_nth_pred.
    replace (hd 0 (timestamps p)) with (nth 0 (timestamps p) 0)
      by (destruct (timestamps p); reflexivity).
    apply Hk; lia. }
  rewrite Rplus_0_l.
  destruct (_ >? 0) eqn:E; [| apply Rgtb_false in E; lra].
  reflexivity.
Qed.

(** An instance: the walk covers 40 px in the 4 seconds between its first and
    its last sample. *)
Lemma get_speed_path_over_time_witness :
  length (timestamps walk) = length (positions walk)
  /\ (2 <= length (positions walk))%nat
  /\ get_speed walk
     = total_movement (positions walk) / (last (timestamps walk) 0 - hd 0 (timestamps walk)).
Proof.
  assert (length (timestamps walk) = length (positions walk)) as Hlen
    by (rewrite walk_positions, walk_timestamps; reflexivity).
  assert (2 <= length (positions walk))%nat as Hn
    by (rewrite walk_positions; cbn [length]; lia).
  split; [exact Hlen |]. split; [exact Hn |].
  apply (get_speed_path_over_time walk Hlen Hn).
  rewrite walk_timestamps. intros i Hi. cbn [length] in Hi.
  do 5 (destruct i as [| i]; [cbn [nth Nat.sub]; lra || lia |]). lia.
Defined.

(** ** The behaviour analysis *)

Lemma check_intrusion_stamp (self : SecurityMonitoringSystem) (p : PersonTracker) (now : R) :
  Forall (fun e => timestamp e = now /\ event_type e = "intrusion")
         (opt_list (check_intrusion self p now)).
Proof.
  destruct (check_intrusion self p now) as [e |] eqn:E; [| constructor].
  apply check_intrusion_event in E. destruct E as (seed & _ & ->).
  repeat constructor.
Qed.

Lemma check_weapons_stamp (self : SecurityMonitoringSystem) (p : PersonTracker) (now : R) :
  Forall (fun e => timestamp e = now /\ event_type e = "armed_person")
         (opt_list (check_weapons self p now)).
Proof.
  unfold check_weapons. cbv zeta.
  destruct (filter _ (detected_objects p)); [constructor |].
  destruct (recent_events _ _ _ _); repeat constructor.
Qed.

Lemma check_loitering_stamp (self : SecurityMonitoringSystem) (p : PersonTracker) (now : R) :
  Forall (fun e => timestamp e = now /\ event_type e = "suspicious_loitering")
         (opt_list (snd (check_loitering self p now))).
Proof.
  unfold check_loitering.
  repeat match goal with
  | |- context [if ?b then _ else _] => destruct b
  | |- context [match ?o with Some _ => _ | None => _ end] => destruct o
  | |- context [match ?l with [] => _ | _ :: _ => _ end] => destruct l
  end; repeat constructor.
Qed.

Lemma check_loitering_person (self : SecurityMonitoringSystem) (p : PersonTracker) (now : R) :
  exists s, fst (check_loitering self p now) = set_stationary_start p s.
Proof.
  assert (p = set_stationary_start p (stationary_start p)) as Hp by (destruct p; reflexivity).
  unfold check_loitering.
  repeat match goal with
  | |- context [if ?b then _ else _] => destruct b
  | |- context [match ?o with Some _ => _ | None => _ end] => destruct o
  | |- context [match ?l with [] => _ | _ :: _ => _ end] => destruct l
  end; cbn [fst]; eauto.
Qed.

Lemma check_movement_patterns_stamp (self : SecurityMonitoringSystem) (p : PersonTracker)
    (now : R) :
  Forall (fun e => timestamp e = now
                   /\ (event_type e = "erratic_movement" \/ event_type e = "running"))
         (opt_list (check_movement_patterns self p now)).
Proof.
  unfold check_movement_patterns. cbv zeta.
  repeat match goal with
  | |- context [if ?b then _ else _] => destruct b
  | |- context [match ?l with [] => _ | _ :: _ => _ end] => destruct l
  end; try apply Forall_nil;
    (apply Forall_cons; [split; [reflexivity | cbn [event_type]; auto] | apply Forall_nil]).
Qed.

Lemma filter_all {A : Type} (f : A -> bool) (l : list A) :
  Forall (fun a => f a = true) l -> filter f l = l.
Proof.
  induction 1 as [| a l Ha _ IH]; [reflexivity |].
  cbn [filter]. rewrite Ha, IH. reflexivity.
Qed.

Lemma analyze_behavior_events (self : SecurityMonitoringSystem) (p : PersonTracker) (now : R) :
  risk_events (analyze_behavior self p now)
  = filter (fun e => now - timestamp e <? 600)
      (risk_events p
       ++ opt_list (check_intrusion self p now) ++ opt_list (check_weapons self p now)
       ++ opt_list (snd (check_loitering self p now))
       ++ opt_list (check_movement_patterns self (fst (check_loitering self p now)) now)).
Proof.
  unfold analyze_behavior.
  destruct (check_loitering_person self p now) as [s Hs].
  destruct (check_loitering self p now) as [p' lo]. cbn [fst snd] in *. subst p'.
  reflexivity.
Qed.

Lemma check_movement_patterns_window (self : SecurityMonitoringSystem) (p : PersonTracker)
    (s : option R) (now : R) :
  check_movement_patterns self (set_stationary_start p s) now
  = check_movement_patterns self p now.
Proof. reflexivity. Qed.

(** X7.  One pass of the behaviour analysis keeps, in their order, exactly
    the events of the track that are younger than 600 seconds, and appends
    what the four checks return on the track as it was, in the order of the
    checks and at most one event per check: an "intrusion" event from
    [check_intrusion], an "armed_person" event from [check_weapons], a
    "suspicious_loitering" event from [check_loitering], and an
    "erratic_movement" or a "running" event from [check_movement_patterns],
    each stamped with the current time.  The position history, the sightings
    and the deduplication state of the track are not touched. *)
Theorem analyze_behavior_retention :
  forall (self : SecurityMonitoringSystem) (p : PersonTracker) (now : R),
    let q := analyze_behavior self p now in
    risk_events q
    = filter (fun e => now - timestamp e <? 600) (risk_events p)
      ++ opt_list (check_intrusion self p now)
      ++ opt_list (check_weapons self p now)
      ++ opt_list (snd (check_loitering self p now))
      ++ opt_list (check_movement_patterns self p now)
    /\ Forall (fun e => timestamp e = now /\ event_type e = "intrusion")
              (opt_list (check_intrusion self p now))
    /\ Forall (fun e => timestamp e = now /\ event_type e = "armed_person")
              (opt_list (check_weapons self p now))
    /\ Forall (fun e => timestamp e = now /\ event_type e = "suspicious_loitering")
              (opt_list (snd (check_loitering self p now)))
    /\ Forall (fun e => timestamp e = now
                        /\ (event_type e = "erratic_movement" \/ event_type e = "running"))
              (opt_list (check_movement_patterns self p now))
    /\ (length (risk_events q)
        <= length (filter (fun e => (now - timestamp e <? 600)%R) (risk_events p)) + 4)%nat
    /\ track_id q = track_id p
    /\ positions q = positions p
    /\ timestamps q = timestamps p
    /\ detected_objects q = detected_objects p
    /\ last_seen q = last_seen p
    /\ last_notified_threat q = last_notified_threat p.
Proof.
  intros self p now q.
  pose proof (check_intrusion_stamp self p now) as Hi.
  pose proof (check_weapons_stamp self p now) as Hw.
  pose proof (check_loitering_stamp self p now) as Hl.
  pose proof (check_movement_patterns_stamp self p now) as Hm.
  assert (risk_events q
          = filter (fun e => now - timestamp e <? 600) (risk_events p)
            ++ opt_list (check_intrusion self p now)
            ++ opt_list (check_weapons self p now)
            ++ opt_list (snd (check_loitering self p now))
            ++ opt_list (check_movement_patterns self p now)) as Hev.
  { subst q. rewrite analyze_behavior_events.
    destruct (check_loitering_person self p now) as [s Hs]. rewrite Hs.
    rewrite check_movement_patterns_window.
    rewrite filter_app. f_equal. apply filter_all.
    repeat (apply Forall_app; split);
      (eapply Forall_impl; [| eassumption]); cbv beta;
      intros e [-> _]; apply Rltb_true; lra. }
  split; [exact Hev |].
  split; [exact Hi |]. split; [exact Hw |]. split; [exact Hl |]. split; [exact Hm |].
  split.
  - rewrite Hev, !length_app.
    destruct (check_intrusion self p now), (check_weapons self p now),
      (snd (check_loitering self p now)), (check_movement_patterns self p now);
      cbn [opt_list length]; lia.
  - subst q. unfold analyze_behavior.
    destruct (check_loitering_person self p now) as [s Hs].
    destruct (check_loitering self p now) as [p' lo]. cbn [fst] in Hs. subst p'.
    repeat split.
Qed.

Lemma max_loop_bounds (cs : list R) (c0 : R) :
  let m := fold_left py_max cs c0 in
  In m (c0 :: cs) /\ Forall (fun c => c <= m) (c0 :: cs).
Proof.
  revert c0. induction cs as [| c cs IH]; intros c0; cbv zeta.
  - cbn [fold_left]. split; [left; reflexivity |].
    apply Forall_cons; [lra | apply Forall_nil].
  - cbn [fold_left]. specialize (IH (py_max c0 c)). cbv zeta in IH.
    destruct IH as [Hin Hall]. inversion Hall as [| x l Hx Hrest]; subst.
    split.
    + destruct Hin as [Hin | Hin]; [| right; right; exact Hin].
      rewrite <- Hin. unfold py_max. destruct (c >? c0); [right; left | left]; reflexivity.
    + assert (c0 <= py_max c0 c /\ c <= py_max c0 c) as [H0 H1]
        by (unfold py_max; float_cases; lra).
      repeat (apply Forall_cons; [lra |]). exact Hrest.
Qed.

(** X8.  [check_weapons] raises an "armed_person" event exactly when the
    track has a weapon-class sighting younger than 30 seconds and no
    "armed_person" event younger than 30 seconds.  The confidence of the
    event is the highest confidence among those sightings; the event carries
    the current time and the last position of the track. *)
Theorem check_weapons_max_confidence :
  forall (self : SecurityMonitoringSystem) (p : PersonTracker) (now : R),
    let recent_weapons :=
      filter (fun obj => (now - DetectedObject.timestamp obj <? 30)
                         && str_in (DetectedObject.object obj) weapon_classes)
             (detected_objects p) in
    match check_weapons self p now with
    | Some e =>
        recent_events "armed_person" 30 p now = []
        /\ In (confidence e) (map DetectedObject.confidence recent_weapons)
        /\ Forall (fun obj => DetectedObject.confidence obj <= confidence e) recent_weapons
        /\ e = mkRiskEvent "armed_person" 0 (confidence e) now 0 (last_position p)
    | None =>
        recent_weapons = [] \/ recent_events "armed_person" 30 p now <> []
    end.
Proof.
  intros self p now recent_weapons. unfold check_weapons. cbv zeta.
  fold recent_weapons. destruct recent_weapons as [| w ws]; [left; reflexivity |].
  destruct (recent_events "armed_person" 30 p now) as [| e0 es]; [| right; discriminate].
  cbn [confidence].
  pose proof (max_loop_bounds (map DetectedObject.confidence ws) (DetectedObject.confidence w))
    as [Hin Hall].
  split; [reflexivity |]. split; [exact Hin |]. split; [| reflexivity].
  change (DetectedObject.confidence w :: map DetectedObject.confidence ws)
    with (map DetectedObject.confidence (w :: ws)) in Hall.
  rewrite Forall_map in Hall. exact Hall.
Qed.

(** ** Zone intrusion *)

Lemma check_intrusion_loop_fires (zones : list SecurityZone) (p : PersonTracker)
    (now : R) (pos : Point) :
  check_intrusion_loop zones p now pos <> None
  <-> recent_events "intrusion" 60 p now = []
      /\ exists zone, In zone zones
           /\ contains_point zone pos = true
           /\ str_in (access_level zone) ["restricted"; "critical"] = true.
Proof.
  induction zones as [| zone zones IH]; cbn [check_intrusion_loop].
  - split; [intros H; contradiction | intros (_ & z & [] & _)].
  - destruct (contains_point zone pos) eqn:Ec;
      [destruct (str_in (access_level zone) ["restricted"; "critical"]) eqn:Ea;
       [destruct (recent_events "intrusion" 60 p now) as [| e0 es] eqn:Er |] |];
      cbn [andb].
    + split; [intros _ | discriminate].
      split; [reflexivity |]. exists zone. cbn [In]. auto.
    + rewrite IH. split; [intros [H _]; discriminate | intros [H _]; discriminate].
    + rewrite IH. split; intros (Hr & z & Hin & Hc & Hs); (split; [exact Hr |]).
      * exists z. cbn [In]. auto.
      * exists z. destruct Hin as [<- | Hin]; [congruence | auto].
    + rewrite IH. split; intros (Hr & z & Hin & Hc & Hs); (split; [exact Hr |]).
      * exists z. cbn [In]. auto.
      * exists z. destruct Hin as [<- | Hin]; [congruence | auto].
Qed.

(** X9.  [check_intrusion] raises an event exactly when the track has a
    position, no "intrusion" event younger than 60 seconds, and its last
    position lies in (or on the border of) some zone whose access level is
    "restricted" or "critical"; zones of any other level never raise one. *)
Theorem check_intrusion_fires_iff :
  forall (self : SecurityMonitoringSystem) (p : PersonTracker) (now : R),
    check_intrusion self p now <> None
    <-> positions p <> []
        /\ recent_events "intrusion" 60 p now = []
        /\ exists zone, In zone (security_zones self)
             /\ contains_point zone (last_position p) = true
             /\ str_in (access_level zone) ["restricted"; "critical"] = true.
Proof.
  intros self p now. unfold check_intrusion, last_position.
  destruct (positions p) as [| a l] eqn:E.
  - split; [intros H; contradiction | intros [H _]; contradiction].
  - rewrite check_intrusion_loop_fires. split.
    + intros H. split; [discriminate | exact H].
    + intros [_ H]. exact H.
Qed.

(** ** From a detection to the score *)

Lemma primary_threat_normal (p : PersonTracker) (now : R) :
  snd (calculate_risk_score p now) = "normal" ->
  Forall (fun e => event_score e now <= 0) (risk_events p).
Proof.
  rewrite primary_threat_exact. unfold primary_threat_computed.
  assert (primary_of (fun e => event_score e now) [] "normal" 0) as H0
    by (left; repeat split; constructor).
  pose proof (score_loop_primary (fun e => event_score e now) (risk_events p) []
                0 "normal" 0 H0) as H.
  cbn [app] in H. cbv beta in H.
  destruct H as [(_ & _ & Hall) | (b & e & a & _ & Hth & Hm & Hpos & _)];
    [intros _; exact Hall |].
  intros Hn. rewrite Hm in Hpos. apply event_score_pos_base in Hpos.
  rewrite Hn in Hth. rewrite <- Hth in Hpos. cbn in Hpos. lra.
Qed.

Lemma events_total_In (now : R) (e : RiskEvent) (l : list RiskEvent) :
  In e l -> event_score e now <= events_total now l.
Proof.
  intros Hin. apply in_split in Hin. destruct Hin as (l1 & l2 & ->).
  rewrite events_total_app.
  change (e :: l2) with ([e] ++ l2). rewrite events_total_app.
  pose proof (events_total_nonneg now l1). pose proof (events_total_nonneg now l2).
  assert (events_total now [e] = event_score e now) as -> by (cbn; lra).
  lra.
Qed.

(** X10.  When [check_intrusion] fires on a track, the track scores at
    least 22.5 right after the behaviour analysis of that frame, whatever else
    it carries, and its primary threat is not "normal": with the default alert
    threshold of 20 a detected intrusion is always significant. *)
Theorem intrusion_scores_at_least_22_5 :
  forall (self : SecurityMonitoringSystem) (p : PersonTracker) (now : R),
    check_intrusion self p now <> None ->
    22.5 <= fst (calculate_risk_score (analyze_behavior self p now) now)
    /\ snd (calculate_risk_score (analyze_behavior self p now) now) <> "normal".
Proof.
  intros self p now Hfire.
  destruct (check_intrusion self p now) as [e |] eqn:E; [clear Hfire | contradiction].
  pose proof (check_intrusion_event _ _ _ _ E) as (seed & _ & He).
  assert (event_score e now = 22.5) as Hscore.
  { rewrite He. unfold event_score. cbn [event_type confidence timestamp duration].
    rewrite confidence_factor_cases.
    change (dict_get base_risk_scores "intrusion" 0) with 15.
    unfold _calculate_time_factor. float_decide. lra. }
  assert (In e (risk_events (analyze_behavior self p now))) as Hin.
  { rewrite analyze_behavior_events, E. apply filter_In. split.
    - apply in_or_app. right. left. reflexivity.
    - rewrite He. cbn [timestamp]. apply Rltb_true. lra. }
  split.
  - rewrite calculate_risk_score_total.
    pose proof (events_total_In now e _ Hin) as Ht. rewrite Hscore in Ht.
    pose proof (pattern_multiplier_bounds (analyze_behavior self p now)) as Hp.
    pose proof (escalation_multiplier_bounds (analyze_behavior self p now) now) as Hm.
    set (s := events_total now _) in *.
    assert (22.5 <= s * pattern_multiplier (analyze_behavior self p now)
                    * escalation_multiplier (analyze_behavior self p now) now) as Hs.
    { assert (s <= s * pattern_multiplier (analyze_behavior self p now)) by nra.
      assert (s * pattern_multiplier (analyze_behavior self p now)
              <= s * pattern_multiplier (analyze_behavior self p now)
                 * escalation_multiplier (analyze_behavior self p now) now) by nra.
      lra. }
    unfold py_min. float_cases; lra.
  - intros Hn. apply primary_threat_normal in Hn.
    rewrite Forall_forall in Hn. specialize (Hn e Hin). lra.
Qed.

(** An instance: a person first seen at (5, 5), inside the restricted zone
    of the lab. *)
Lemma intrusion_scores_at_least_22_5_witness :
  22.5 <= fst (calculate_risk_score
                 (analyze_behavior (lab_system [])
                    (add_position (new_tracker 1) (5, 5)%Z 0 [3; 3; 7; 7]%Z) 0) 0)
  /\ snd (calculate_risk_score
            (analyze_behavior (lab_system [])
               (add_position (new_tracker 1) (5, 5)%Z 0 [3; 3; 7; 7]%Z) 0) 0) <> "normal".
Proof.
  apply (intrusion_scores_at_least_22_5 (lab_system [])
           (add_position (new_tracker 1) (5, 5)%Z 0 [3; 3; 7; 7]%Z) 0).
  assert (check_intrusion (lab_system [])
            (add_position (new_tracker 1) (5, 5)%Z 0 [3; 3; 7; 7]%Z) 0
          = Some (mkRiskEvent "intrusion" 12 0.9 0 0 (5, 5)%Z)) as -> by reflexivity.
  discriminate.
Defined.

(** ** Carried objects *)

Lemma set_detected_objects_same (p : PersonTracker) :
  set_detected_objects p (detected_objects p) = p.
Proof. destruct p; reflexivity. Qed.

Lemma detect_carried_loop_sightings (clock : nat -> R) (px1 py1 px2 py2 : Z)
    (detections : list Detection.t) (k : nat) (tracker : PersonTracker) :
  (length (detected_objects tracker) <= 10)%nat ->
  detect_carried_loop clock k px1 py1 px2 py2 tracker detections
  = set_detected_objects tracker
      (last_n 10 (detected_objects tracker
                  ++ carried_sightings clock k px1 py1 px2 py2 detections)).
Proof.
  revert k tracker. induction detections as [| d ds IH]; intros k tracker Hlen.
  - cbn [detect_carried_loop carried_sightings]. rewrite app_nil_r, last_n_all by exact Hlen.
    symmetry. apply set_detected_objects_same.
  - cbn [detect_carried_loop carried_sightings].
    assert (forall o,
              detect_carried_loop clock (S k) px1 py1 px2 py2
                (set_detected_objects tracker (deque_append 10 (detected_objects tracker) o)) ds
              = set_detected_objects tracker
                  (last_n 10 (detected_objects tracker
                              ++ [o] ++ carried_sightings clock (S k) px1 py1 px2 py2 ds)))
      as Hadd.
    { intros o. rewrite IH.
      - cbn [detected_objects set_detected_objects].
        rewrite deque_append_last_n by exact Hlen.
        rewrite last_n_app_l, <- app_assoc. reflexivity.
      - cbn [detected_objects set_detected_objects].
        rewrite deque_append_length by exact Hlen. lia. }
    destruct (str_in (Detection.class d) weapon_classes); [| apply IH; exact Hlen].
    destruct (Detection.bbox d) as [| dx1 [| dy1 [| dx2 [| dy2 [| ? ?]]]]];
      try (apply IH; exact Hlen).
    destruct (negb _); [apply Hadd | apply IH; exact Hlen].
Qed.

Lemma carried_sightings_weapons (clock : nat -> R) (px1 py1 px2 py2 : Z)
    (detections : list Detection.t) (k : nat) :
  Forall (fun o => str_in (DetectedObject.object o) weapon_classes = true
                   /\ exists d, In d detections
                        /\ DetectedObject.object o = Detection.class d
                        /\ DetectedObject.confidence o = Detection.confidence d)
         (carried_sightings clock k px1 py1 px2 py2 detections).
Proof.
  revert k. induction detections as [| d ds IH]; intros k; [constructor |].
  cbn [carried_sightings]. apply Forall_app. split.
  - destruct (str_in (Detection.class d) weapon_classes) eqn:E; [| constructor].
    destruct (Detection.bbox d) as [| dx1 [| dy1 [| dx2 [| dy2 [| ? ?]]]]];
      try constructor.
    destruct (negb _); constructor; [| constructor].
    cbn [DetectedObject.object DetectedObject.confidence].
    split; [exact E |]. exists d. cbn [In]. auto.
  - eapply Forall_impl; [| apply IH]. cbv beta.
    intros o (Hw & d' & Hin & Ho & Hc). split; [exact Hw |].
    exists d'. cbn [In]. auto.
Qed.

(** X11.  [detect_carried_objects] leaves on a track the last 10 of: the
    sightings it had, followed by one sighting per detection, in order, whose
    class is a weapon class and whose box meets the person's box enlarged by 20
    pixels on every side.  Every sighting it adds has a weapon class and the
    confidence of its detection, the track never holds more than 10 sightings,
    and no other field of the track changes. *)
Theorem detect_carried_objects_sightings :
  forall (clock : nat -> R) (tracker : PersonTracker) (detections : list Detection.t)
         (px1 py1 px2 py2 : Z),
    (length (detected_objects tracker) <= 10)%nat ->
    let added :=
      carried_sightings clock 0 (px1 - 20) (py1 - 20) (px2 + 20) (py2 + 20) detections in
    detect_carried_objects clock tracker detections [px1; py1; px2; py2]
    = set_detected_objects tracker (last_n 10 (detected_objects tracker ++ added))
    /\ (length (detected_objects
                  (detect_carried_objects clock tracker detections [px1; py1; px2; py2]))
        <= 10)%nat
    /\ Forall (fun o => str_in (DetectedObject.object o) weapon_classes = true
                        /\ exists d, In d detections
                             /\ DetectedObject.object o = Detection.class d
                             /\ DetectedObject.confidence o = Detection.confidence d)
              added.
Proof.
  intros clock tracker detections px1 py1 px2 py2 Hlen added.
  assert (detect_carried_objects clock tracker detections [px1; py1; px2; py2]
          = set_detected_objects tracker (last_n 10 (detected_objects tracker ++ added)))
    as Heq.
  { unfold detect_carried_objects. cbv zeta.
    apply detect_carried_loop_sightings. exact Hlen. }
  split; [exact Heq |]. split.
  - rewrite Heq. cbn [detected_objects set_detected_objects].
    rewrite last_n_length. lia.
  - apply carried_sightings_weapons.
Qed.

(** An instance: the knife seen over the box of the notified intruder. *)
Lemma detect_carried_objects_sightings_witness :
  detect_carried_objects (fun _ => 3) notified_intruder [knife] [3; 3; 7; 7]%Z
  = set_detected_objects notified_intruder
      (last_n 10 (detected_objects notified_intruder
                  ++ carried_sightings (fun _ => 3) 0 (3 - 20) (3 - 20) (7 + 20) (7 + 20)
                       [knife])).
Proof.
  apply (detect_carried_objects_sightings (fun _ => 3) notified_intruder [knife] 3%Z 3%Z 7%Z 7%Z).
  rewrite notified_intruder_state. cbn [detected_objects length]. lia.
Defined.

(** ** What [process_alerts] returns *)

Section AlertsAndIncidents.

Variable score : PersonTracker -> R -> result (R * string).
Variable self : SecurityMonitoringSystem.
Variable now : R.

Lemma dispatch_person_outputs (p : PersonTracker) :
  Forall (logged_incident score self now [p]) (snd (fst (dispatch_person score self now p)))
  /\ Forall (backed_alert self [p] (snd (fst (dispatch_person score self now p))))
            (snd (dispatch_person score self now p))
  /\ (length (snd (dispatch_person score self now p))
      <= length (snd (fst (dispatch_person score self now p))) <= 1)%nat.
Proof.
  assert (forall q : PersonTracker,
            Forall (logged_incident score self now [p]) (snd (fst (q, @nil Incident.t, @nil Alert.t)))
            /\ Forall (backed_alert self [p] (snd (fst (q, @nil Incident.t, @nil Alert.t))))
                      (snd (q, @nil Incident.t, @nil Alert.t))
            /\ (length (snd (q, @nil Incident.t, @nil Alert.t))
                <= length (snd (fst (q, @nil Incident.t, @nil Alert.t))) <= 1)%nat) as Hnone.
  { intros q. cbn [fst snd length]. split; [apply Forall_nil |].
    split; [apply Forall_nil | lia]. }
  unfold dispatch_person.
  destruct (alerts_skip p now) eqn:Eskip; [apply Hnone |].
  destruct (score p now) as [[risk threat] | msg] eqn:Escore; [| apply Hnone].
  cbv zeta.
  destruct (risk >=? risk_alert_threshold self) eqn:Esig;
    [| destruct (negb _); apply Hnone].
  apply Rgeb_true in Esig.
  assert (logged_incident score self now [p]
            (make_incident (set_status p threat) now risk threat)) as Hinc.
  { unfold logged_incident. cbn [make_incident Incident.timestamp Incident.risk_score
      Incident.track_id Incident.primary_threat].
    split; [reflexivity |]. split; [exact Esig |].
    exists p. cbn [In]. repeat split; auto. }
  destruct (negb _) eqn:Enew; cbn [fst snd length].
  - split; [apply Forall_cons; [exact Hinc | apply Forall_nil] |].
    split; [| lia].
    apply Forall_cons; [| apply Forall_nil]. unfold backed_alert.
    cbn [make_alert Alert.track_id Alert.risk_score Alert.threat_type Alert.timestamp
         Alert.level].
    split; [| split; [| reflexivity]].
    + eexists. split; [left; reflexivity |]. repeat split.
    + exists p. cbn [In]. split; [auto |]. split; [reflexivity |].
      apply negb_true_iff in Enew. apply String.eqb_neq in Enew. exact Enew.
  - split; [apply Forall_cons; [exact Hinc | apply Forall_nil] |].
    split; [apply Forall_nil | lia].
Qed.

Lemma logged_incident_incl (l l' : list PersonTracker) (i : Incident.t) :
  incl l l' -> logged_incident score self now l i -> logged_incident score self now l' i.
Proof.
  intros Hl (H1 & H2 & p & Hin & H). split; [exact H1 |]. split; [exact H2 |].
  exists p. split; [apply Hl; exact Hin | exact H].
Qed.

Lemma backed_alert_incl (l l' : list PersonTracker) (incs incs' : list Incident.t) (a : Alert.t) :
  incl l l' -> incl incs incs' -> backed_alert self l incs a -> backed_alert self l' incs' a.
Proof.
  intros Hl His ((i & Hi & H) & (p & Hp & H') & Hlev).
  split; [| split; [| exact Hlev]].
  - exists i. split; [apply His; exact Hi | exact H].
  - exists p. split; [apply Hl; exact Hp | exact H'].
Qed.

Lemma process_alerts_loop_outputs (persons : list PersonTracker) :
  Forall (logged_incident score self now persons)
         (snd (fst (process_alerts_loop score self now persons)))
  /\ Forall (backed_alert self persons (snd (fst (process_alerts_loop score self now persons))))
            (snd (process_alerts_loop score self now persons))
  /\ (length (snd (process_alerts_loop score self now persons))
      <= length (snd (fst (process_alerts_loop score self now persons)))
      <= length persons)%nat.
Proof.
  induction persons as [| p persons IH].
  { cbn [process_alerts_loop fst snd length].
    split; [apply Forall_nil |]. split; [apply Forall_nil | lia]. }
  cbn [process_alerts_loop].
  pose proof (dispatch_person_outputs p) as Hp.
  destruct (dispatch_person score self now p) as [[p' incs] als].
  destruct (process_alerts_loop score self now persons) as [[rest incs'] als'].
  cbn [fst snd] in *.
  destruct Hp as (Hp1 & Hp2 & Hp3). destruct IH as (IH1 & IH2 & IH3).
  split; [| split].
  - apply Forall_app. split; (eapply Forall_impl; [| eassumption]); intros i;
      apply logged_incident_incl.
    + intros x [<- | []]. left. reflexivity.
    + intros x Hx. right. exact Hx.
  - apply Forall_app. split; (eapply Forall_impl; [| eassumption]); intros a;
      apply backed_alert_incl.
    + intros x [<- | []]. left. reflexivity.
    + apply incl_appl, incl_refl.
    + intros x Hx. right. exact Hx.
    + apply incl_appr, incl_refl.
  - rewrite !length_app. cbn [length]. lia.
Qed.

End AlertsAndIncidents.

(** X12.  Whatever the scoring call does (it may raise), every alert of a
    call of [process_alerts] repeats an incident row of the same call (same
    track, score, threat and time), names a threat other than the one last
    notified for its track, and is "CRITICAL" exactly from the critical
    threshold on; every incident row has the time of the call and a score at
    or above the alert threshold, and belongs to a track last seen at most 5
    seconds before; and there are no more alerts than rows, and no more rows
    than tracks. *)
Theorem process_alerts_alerts_are_logged :
  forall (score : PersonTracker -> R -> result (R * string))
         (self : SecurityMonitoringSystem) (now : R),
    let incidents := snd (fst (process_alerts_with score self now)) in
    let alerts := snd (process_alerts_with score self now) in
    Forall (logged_incident score self now (person_trackers self)) incidents
    /\ Forall (backed_alert self (person_trackers self) incidents) alerts
    /\ (length alerts <= length incidents <= length (person_trackers self))%nat.
Proof.
  intros score self now. cbv zeta. unfold process_alerts_with.
  pose proof (process_alerts_loop_outputs score self now (person_trackers self)) as H.
  destruct (process_alerts_loop score self now (person_trackers self)) as [[ps incs] als].
  exact H.
Qed.

Lemma dispatch_person_writes (score : PersonTracker -> R -> result (R * string))
    (self : SecurityMonitoringSystem) (now : R) (p : PersonTracker) :
  let p' := fst (fst (dispatch_person score self now p)) in
  p' = set_last_notified_threat (set_status p (status p')) (last_notified_threat p')
  /\ (alerts_skip p now = true -> p' = p)
  /\ (forall msg, score p now = Raise msg -> p' = p).
Proof.
  assert (p = set_last_notified_threat (set_status p (status p)) (last_notified_threat p))
    as Hp by (destruct p; reflexivity).
  cbv zeta. unfold dispatch_person.
  destruct (alerts_skip p now); [repeat split; auto |].
  destruct (score p now) as [[risk threat] | msg];
    [| cbn [fst]; repeat split; auto].
  cbv zeta.
  destruct (risk >=? risk_alert_threshold self); destruct (negb _); cbn [fst];
    (split; [destruct p; reflexivity |]); split; discriminate.
Qed.

(** X13.  [process_alerts] keeps the dict of trackers as it is, key by key
    and in order, and writes on a tracker nothing but [status] and
    [last_notified_threat]; a tracker last seen more than 5 seconds before, or
    on which the scoring call raises, is not written at all; the other fields
    of the system are not touched. *)
Theorem process_alerts_writes_status_only :
  forall (score : PersonTracker -> R -> result (R * string))
         (self : SecurityMonitoringSystem) (now : R),
    let self' := fst (fst (process_alerts_with score self now)) in
    self' = set_person_trackers self (person_trackers self')
    /\ map track_id (person_trackers self') = map track_id (person_trackers self)
    /\ Forall2 (fun p p' =>
                  p' = set_last_notified_threat (set_status p (status p'))
                         (last_notified_threat p')
                  /\ (alerts_skip p now = true -> p' = p)
                  /\ (forall msg, score p now = Raise msg -> p' = p))
               (person_trackers self) (person_trackers self').
Proof.
  intros score self now. cbv zeta. unfold process_alerts_with.
  assert (forall persons,
            map track_id (fst (fst (process_alerts_loop score self now persons)))
            = map track_id persons
            /\ Forall2 (fun p p' =>
                  p' = set_last_notified_threat (set_status p (status p'))
                         (last_notified_threat p')
                  /\ (alerts_skip p now = true -> p' = p)
                  /\ (forall msg, score p now = Raise msg -> p' = p))
                 persons (fst (fst (process_alerts_loop score self now persons)))) as Hloop.
  { induction persons as [| p persons [IH1 IH2]]; [split; constructor |].
    cbn [process_alerts_loop].
    pose proof (dispatch_person_writes score self now p) as Hw.
    pose proof (dispatch_person_track_id score self now p) as Hid.
    destruct (dispatch_person score self now p) as [[p' incs] als].
    destruct (process_alerts_loop score self now persons) as [[rest incs'] als'].
    cbn [fst snd map] in *. split; [rewrite Hid, IH1; reflexivity |].
    constructor; [exact Hw | exact IH2]. }
  specialize (Hloop (person_trackers self)).
  destruct (process_alerts_loop score self now (person_trackers self)) as [[ps incs] als].
  cbn [fst snd set_person_trackers person_trackers] in *.
  destruct Hloop as [H1 H2]. split; [reflexivity |]. split; assumption.
Qed.

(** ** Re-arming of the alert *)

Lemma significant_not_normal (p : PersonTracker) (now thr : R) :
  0 < thr -> thr <= fst (calculate_risk_score p now) ->
  snd (calculate_risk_score p now) <> "normal".
Proof.
  intros Hthr Hsig Hn. apply primary_threat_normal in Hn.
  assert (events_total now (risk_events p) <= 0) as Hle.
  { induction Hn as [| e l He _ IH]; [cbn; lra |].
    change (e :: l) with ([e] ++ l). rewrite events_total_app.
    assert (events_total now [e] = event_score e now) as -> by (cbn; lra). lra. }
  pose proof (events_total_nonneg now (risk_events p)) as Hge.
  rewrite calculate_risk_score_total in Hsig.
  replace (events_total now (risk_events p)) with 0 in Hsig by lra.
  rewrite !Rmult_0_l in Hsig. unfold py_min in Hsig.
  destruct (100 <? 0) eqn:E; [apply Rltb_true in E |]; lra.
Qed.

Lemma dispatch_quiet (self : SecurityMonitoringSystem) (now : R) (p : PersonTracker) :
  alerts_skip p now = false ->
  fst (calculate_risk_score p now) < risk_alert_threshold self ->
  snd (fst (dispatch_person (fun q t => Ok (calculate_risk_score q t)) self now p)) = []
  /\ snd (dispatch_person (fun q t => Ok (calculate_risk_score q t)) self now p) = []
  /\ last_notified_threat
       (fst (fst (dispatch_person (fun q t => Ok (calculate_risk_score q t)) self now p)))
     = "normal".
Proof.
  intros Hskip Hq. unfold dispatch_person. rewrite Hskip.
  destruct (calculate_risk_score p now) as [risk threat]. cbn [fst] in Hq.
  cbv zeta.
  assert ((risk >=? risk_alert_threshold self) = false) as -> by (apply Rgeb_false; lra).
  cbn [set_status last_notified_threat].
  destruct (String.eqb (last_notified_threat p) "normal") eqn:E; cbn [negb fst snd];
    repeat split.
  apply String.eqb_eq in E. exact E.
Qed.

(** X14.  A frame in which an active track scores below the (positive)
    alert threshold produces no incident row and no alert for it and leaves
    "normal" as its last notified threat; and on an active track whose last
    notified threat is "normal", a score at or above the threshold always
    produces one incident row and one alert.  So a threat that was notified,
    went quiet for a frame and comes back is notified again. *)
Theorem quiet_frame_rearms_alert :
  forall (self : SecurityMonitoringSystem) (p q : PersonTracker) (t t' : R),
    0 < risk_alert_threshold self ->
    alerts_skip p t = false ->
    fst (calculate_risk_score p t) < risk_alert_threshold self ->
    alerts_skip q t' = false ->
    risk_alert_threshold self <= fst (calculate_risk_score q t') ->
    last_notified_threat q
    = last_notified_threat
        (fst (fst (dispatch_person (fun r s => Ok (calculate_risk_score r s)) self t p))) ->
    let quiet := dispatch_person (fun r s => Ok (calculate_risk_score r s)) self t p in
    let back := dispatch_person (fun r s => Ok (calculate_risk_score r s)) self t' q in
    snd (fst quiet) = [] /\ snd quiet = []
    /\ length (snd (fst back)) = 1%nat
    /\ map Alert.threat_type (snd back) = [snd (calculate_risk_score q t')]
    /\ last_notified_threat (fst (fst back)) = snd (calculate_risk_score q t').
Proof.
  intros self p q t t' Hthr Hskip Hquiet Hskip' Hsig Hstate quiet back.
  destruct (dispatch_quiet self t p Hskip Hquiet) as (H1 & H2 & H3).
  split; [exact H1 |]. split; [exact H2 |].
  rewrite H3 in Hstate.
  pose proof (significant_not_normal q t' _ Hthr Hsig) as Hne.
  subst back.
  rewrite (dispatch_significant self t' q Hskip' ltac:(lra)). cbv zeta.
  rewrite Hstate.
  destruct (String.eqb (snd (calculate_risk_score q t')) "normal") eqn:E;
    [apply String.eqb_eq in E; contradiction |].
  cbn [fst snd length map make_alert Alert.threat_type set_last_notified_threat
       last_notified_threat].
  repeat split.
Qed.

(** An instance: the notified intruder with its events cleared, at time 1,
    and the intruder again at time 2. *)
Lemma quiet_frame_rearms_alert_witness :
  let quiet := dispatch_person (fun r s => Ok (calculate_risk_score r s)) (lab_system []) 1
                 (set_risk_events notified_intruder []) in
  let back := dispatch_person (fun r s => Ok (calculate_risk_score r s)) (lab_system []) 2
                (intruder 1) in
  snd (fst quiet) = [] /\ snd quiet = []
  /\ length (snd (fst back)) = 1%nat
  /\ map Alert.threat_type (snd back) = [snd (calculate_risk_score (intruder 1) 2)]
  /\ last_notified_threat (fst (fst back)) = snd (calculate_risk_score (intruder 1) 2).
Proof.
  assert (alerts_skip (set_risk_events notified_intruder []) 1 = false) as Hskip.
  { rewrite notified_intruder_state. unfold alerts_skip. cbn [set_risk_events last_seen].
    apply Rgtb_false. lra. }
  assert (fst (calculate_risk_score (set_risk_events notified_intruder []) 1)
          < risk_alert_threshold (lab_system [])) as Hquiet.
  { rewrite calculate_risk_score_total. cbn [set_risk_events risk_events events_total fold_left
      lab_system risk_alert_threshold].
    unfold events_total. cbn [fold_left]. rewrite !Rmult_0_l. unfold py_min.
    float_decide. lra. }
  assert (alerts_skip (intruder 1) 2 = false) as Hskip'.
  { rewrite intruder_state. unfold alerts_skip. cbn [last_seen]. apply Rgtb_false. lra. }
  assert (risk_alert_threshold (lab_system []) <= fst (calculate_risk_score (intruder 1) 2))
    as Hsig.
  { rewrite intruder_score by lra. cbn [fst lab_system risk_alert_threshold]. lra. }
  apply (quiet_frame_rearms_alert (lab_system []) (set_risk_events notified_intruder [])
           (intruder 1) 1 2); try assumption.
  - cbn [lab_system risk_alert_threshold]. lra.
  - destruct (dispatch_quiet (lab_system []) 1 _ Hskip Hquiet) as (_ & _ & ->).
    rewrite intruder_state. reflexivity.
Defined.

(** ** Statistics *)

Lemma distribution_loop (now : R) (persons : list PersonTracker) (d : RiskDistribution) :
  let d' := fold_left (distribution_step now) persons d in
  low d' = (low d + count_in_band now "low" persons)%nat
  /\ medium d' = (medium d + count_in_band now "medium" persons)%nat
  /\ high d' = (high d + count_in_band now "high" persons)%nat
  /\ critical d' = (critical d + count_in_band now "critical" persons)%nat.
Proof.
  revert d. induction persons as [| p persons IH]; intros d; cbv zeta.
  - unfold count_in_band. cbn [fold_left filter length]. repeat split; lia.
  - cbn [fold_left]. specialize (IH (distribution_step now d p)). cbv zeta in IH.
    destruct IH as (Hl & Hm & Hh & Hc). rewrite Hl, Hm, Hh, Hc.
    unfold count_in_band. cbn [filter]. unfold distribution_step, risk_band. cbv zeta.
    destruct (_ <? 10); [| destruct (_ <? 25); [| destruct (_ <? 50)]];
      cbn [low medium high critical]; string_decide; cbn [length]; repeat split; lia.
Qed.

Lemma risk_band_cases (risk : R) :
  In (risk_band risk) ["low"; "medium"; "high"; "critical"].
Proof.
  unfold risk_band.
  destruct (risk <? 10); [| destruct (risk <? 25); [| destruct (risk <? 50)]];
    cbn [In]; auto 6.
Qed.

Lemma count_in_band_total (now : R) (persons : list PersonTracker) :
  (count_in_band now "low" persons + count_in_band now "medium" persons
   + count_in_band now "high" persons + count_in_band now "critical" persons)%nat
  = length persons.
Proof.
  unfold count_in_band. induction persons as [| p l IH]; [reflexivity |].
  cbn [filter length].
  destruct (risk_band_cases (fst (calculate_risk_score p now)))
    as [H | [H | [H | [H | []]]]]; rewrite <- H; string_decide; cbn [length]; lia.
Qed.

(** X15.  In the dict of [get_system_statistics] the four counters of the
    risk distribution count the active trackers (seen less than 5 seconds
    before) by the band of their score: below 10, from 10 to below 25, from 25
    to below 50, and from 50 on.  They add up to [active_trackers], which is at
    most [total_trackers]; and [fps] is never negative. *)
Theorem statistics_distribution_counts_active :
  forall (self : SecurityMonitoringSystem) (now : R),
    let s := get_system_statistics self now in
    let d := Statistics.risk_distribution s in
    low d = count_in_band now "low" (active_trackers self now)
    /\ medium d = count_in_band now "medium" (active_trackers self now)
    /\ high d = count_in_band now "high" (active_trackers self now)
    /\ critical d = count_in_band now "critical" (active_trackers self now)
    /\ (low d + medium d + high d + critical d)%nat = Statistics.active_trackers s
    /\ (Statistics.active_trackers s <= Statistics.total_trackers s)%nat
    /\ 0 <= Statistics.fps s.
Proof.
  intros self now. cbv zeta. unfold get_system_statistics. cbv zeta.
  cbn [Statistics.risk_distribution Statistics.active_trackers Statistics.total_trackers
       Statistics.fps].
  pose proof (distribution_loop now (active_trackers self now) (mkRiskDistribution 0 0 0 0))
    as H. cbv zeta in H. cbn [low medium high critical Nat.add] in H.
  destruct H as (Hl & Hm & Hh & Hc). rewrite Hl, Hm, Hh, Hc.
  do 4 (split; [reflexivity |]).
  split; [| split].
  - apply count_in_band_total.
  - unfold active_trackers. apply filter_length_le.
  - unfold calculate_fps.
    destruct (fps_counter self) as [| t0 ts]; [lra |].
    destruct (length (t0 :: ts) <? 2)%nat; [lra |]. cbv zeta.
    destruct (_ <=? 0) eqn:E; [lra |]. apply Rleb_false in E.
    apply Rmult_le_pos; [apply pos_INR | left; apply Rinv_0_lt_compat; exact E].
Qed.

(** ** The tracker update *)

Lemma find_tracker_none (tid : Z) (persons : list PersonTracker) :
  find_tracker tid persons = None <-> ~ In tid (map track_id persons).
Proof.
  unfold find_tracker. induction persons as [| q persons IH]; cbn [find map In].
  - split; [intros _ [] | reflexivity].
  - destruct (Z.eqb_spec (track_id q) tid) as [Heq | Hne].
    + split; [discriminate | intros H; exfalso; apply H; left; exact Heq].
    + rewrite IH. split; [intros H [H' | H']; contradiction | intros H H'; apply H; right; exact H'].
Qed.

Lemma update_tracker_row_ids (t : R) (persons : list PersonTracker) (track : Track.t) :
  map track_id (update_tracker_row t persons track)
  = map track_id persons
    ++ match find_tracker (Track.track_id track) persons with
       | Some _ => []
       | None => [Track.track_id track]
       end.
Proof.
  unfold update_tracker_row. cbv zeta. rewrite map_map.
  rewrite (map_ext _ track_id)
    by (intros q; destruct (track_id q =? Track.track_id track)%Z; reflexivity).
  destruct (find_tracker (Track.track_id track) persons);
    [rewrite app_nil_r; reflexivity | rewrite map_app; reflexivity].
Qed.

Lemma update_tracker_row_keys (t : R) (persons : list PersonTracker) (track : Track.t) :
  NoDup (map track_id persons) -> NoDup (map track_id (update_tracker_row t persons track)).
Proof.
  intros Hnd. rewrite update_tracker_row_ids.
  destruct (find_tracker (Track.track_id track) persons) eqn:E;
    [rewrite app_nil_r; exact Hnd |].
  apply find_tracker_none in E.
  apply NoDup_app; [exact Hnd | constructor; [intros [] | constructor] |].
  intros x Hx [<- | []]. contradiction.
Qed.

Lemma add_position_seen_at (p : PersonTracker) (pos : Point) (t : R) (bbox : list Z) :
  seen_at t (add_position p pos t bbox).
Proof.
  unfold seen_at, add_position. cbn [set_history last_seen positions timestamps].
  split; [reflexivity |].
  split; unfold deque_append;
    destruct (_ <? 30)%nat; intros H; apply app_eq_nil in H; destruct H; discriminate.
Qed.

Lemma update_tracker_row_seen (t : R) (persons : list PersonTracker) (track : Track.t)
    (tid : Z) :
  tid = Track.track_id track
  \/ (exists p, find_tracker tid persons = Some p /\ seen_at t p) ->
  exists p, find_tracker tid (update_tracker_row t persons track) = Some p /\ seen_at t p.
Proof.
  intros H. unfold update_tracker_row. cbv zeta.
  rewrite find_tracker_map
    by (intros q; destruct (track_id q =? Track.track_id track)%Z; reflexivity).
  destruct H as [-> | (p & Hfind & Hseen)].
  - assert (exists p, find_tracker (Track.track_id track)
                        match find_tracker (Track.track_id track) persons with
                        | Some _ => persons
                        | None => persons ++ [new_tracker (Track.track_id track)]
                        end = Some p /\ track_id p = Track.track_id track) as (p & -> & Hid).
    { destruct (find_tracker (Track.track_id track) persons) as [p |] eqn:E.
      - exists p. split; [exact E |].
        unfold find_tracker in E. apply find_some in E. destruct E as [_ E].
        apply Z.eqb_eq in E. exact E.
      - exists (new_tracker (Track.track_id track)). split; [| reflexivity].
        clear -E. unfold find_tracker in *.
        induction persons as [| q persons IH]; cbn [app find] in *;
          [cbn [new_tracker track_id]; rewrite Z.eqb_refl; reflexivity |].
        destruct (track_id q =? Track.track_id track)%Z; [discriminate | exact (IH E)]. }
    cbn [option_map]. rewrite Hid, Z.eqb_refl. eexists. split; [reflexivity |].
    apply add_position_seen_at.
  - assert (find_tracker tid
              match find_tracker (Track.track_id track) persons with
              | Some _ => persons
              | None => persons ++ [new_tracker (Track.track_id track)]
              end = Some p) as ->.
    { destruct (find_tracker (Track.track_id track) persons);
        [exact Hfind | apply find_tracker_app_l; exact Hfind]. }
    cbn [option_map]. eexists. split; [reflexivity |].
    destruct (track_id p =? Track.track_id track)%Z;
      [apply add_position_seen_at | exact Hseen].
Qed.

Lemma update_tracker_row_untouched (t : R) (persons : list PersonTracker) (track : Track.t)
    (p : PersonTracker) :
  In p persons -> track_id p <> Track.track_id track ->
  In p (update_tracker_row t persons track).
Proof.
  intros Hin Hne. unfold update_tracker_row. cbv zeta.
  apply in_map_iff. exists p. split.
  - destruct (Z.eqb_spec (track_id p) (Track.track_id track)); [contradiction | reflexivity].
  - destruct (find_tracker (Track.track_id track) persons);
      [exact Hin | apply in_or_app; left; exact Hin].
Qed.

Lemma update_loop_facts (t : R) (tracks : list Track.t) (persons : list PersonTracker) :
  NoDup (map track_id persons) ->
  let persons' := fold_left (update_tracker_row t) tracks persons in
  NoDup (map track_id persons')
  /\ (exists fresh, map track_id persons' = map track_id persons ++ fresh)
  /\ (forall tid, In tid (map Track.track_id tracks)
                  \/ (exists p, find_tracker tid persons = Some p /\ seen_at t p) ->
                  exists p, find_tracker tid persons' = Some p /\ seen_at t p)
  /\ (forall p, In p persons -> ~ In (track_id p) (map Track.track_id tracks) ->
                In p persons').
Proof.
  revert persons. induction tracks as [| track tracks IH]; intros persons Hnd; cbv zeta.
  - cbn [fold_left map In]. split; [exact Hnd |].
    split; [exists []; rewrite app_nil_r; reflexivity |].
    split; [intros tid [[] | H]; exact H | intros p Hp _; exact Hp].
  - cbn [fold_left].
    destruct (IH (update_tracker_row t persons track)
                (update_tracker_row_keys t persons track Hnd)) as (H1 & (fresh & H2) & H3 & H4).
    split; [exact H1 |]. split; [| split].
    + rewrite H2, update_tracker_row_ids, <- app_assoc. eexists. reflexivity.
    + intros tid Htid. apply H3.
      cbn [map In] in Htid.
      destruct Htid as [[Heq | Hin] | Hold].
      * right. apply update_tracker_row_seen. left. symmetry. exact Heq.
      * left. exact Hin.
      * right. apply update_tracker_row_seen. right. exact Hold.
    + intros p Hp Hnot. cbn [map In] in Hnot. apply H4.
      * apply update_tracker_row_untouched; [exact Hp |].
        intros Heq. apply Hnot. left. symmetry. exact Heq.
      * intros Hin. apply Hnot. right. exact Hin.
Qed.

(** X16.  On a dict with one tracker per id, [update_trackers] leaves one
    tracker per id; it keeps every id the dict had, in order, and appends the
    new ones; every id the external tracker reported for the frame is then in
    the dict, on a tracker last seen at the time of the frame, with a position
    and a timestamp; and a tracker whose id was not reported is left as it
    was. *)
Theorem update_trackers_registers_tracks :
  forall (self : SecurityMonitoringSystem) (tracks : list Track.t) (now : R),
    well_keyed self ->
    let self' := update_trackers self tracks now in
    well_keyed self'
    /\ (exists fresh,
          map track_id (person_trackers self') = map track_id (person_trackers self) ++ fresh)
    /\ Forall (fun track =>
                 exists p, find_tracker (Track.track_id track) (person_trackers self') = Some p
                           /\ last_seen p = now /\ positions p <> [] /\ timestamps p <> [])
              tracks
    /\ (forall p, In p (person_trackers self) ->
                  ~ In (track_id p) (map Track.track_id tracks) ->
                  In p (person_trackers self')).
Proof.
  intros self tracks now Hkeys self'. subst self'. unfold well_keyed, update_trackers in *.
  cbn [person_trackers set_person_trackers].
  destruct (update_loop_facts now tracks (person_trackers self) Hkeys) as (H1 & H2 & H3 & H4).
  split; [exact H1 |]. split; [exact H2 |]. split; [| exact H4].
  apply Forall_forall. intros track Hin. apply H3. left.
  apply in_map. exact Hin.
Qed.

(** An instance: the lab with the intruder, when the external tracker reports
    the intruder again and a second person. *)
Lemma update_trackers_registers_tracks_witness :
  well_keyed (update_trackers (lab_system [intruder 1])
                [Track.mk 3 3 7 7 1; Track.mk 20 20 24 24 2] 1)
  /\ Forall (fun track =>
               exists p,
                 find_tracker (Track.track_id track)
                   (person_trackers
                      (update_trackers (lab_system [intruder 1])
                         [Track.mk 3 3 7 7 1; Track.mk 20 20 24 24 2] 1)) = Some p
                 /\ last_seen p = 1 /\ positions p <> [] /\ timestamps p <> [])
            [Track.mk 3 3 7 7 1; Track.mk 20 20 24 24 2].
Proof.
  destruct (update_trackers_registers_tracks (lab_system [intruder 1])
              [Track.mk 3 3 7 7 1; Track.mk 20 20 24 24 2] 1
              (lab_frame_keys (intruder 1) 0)) as (H1 & _ & H3 & _).
  split; [exact H1 | exact H3].
Defined.

(** ** The invariant of the monitoring loop *)

Lemma add_position_bounded (p : PersonTracker) (pos : Point) (t : R) (bbox : list Z) :
  tracker_bounded p -> tracker_bounded (add_position p pos t bbox).
Proof.
  intros (Hlen & Hp & Hd). unfold tracker_bounded, add_position.
  cbn [set_history positions timestamps detected_objects].
  rewrite !deque_append_length by lia. repeat split; lia.
Qed.

Lemma update_tracker_row_bounded (t : R) (persons : list PersonTracker) (track : Track.t) :
  Forall tracker_bounded persons ->
  Forall tracker_bounded (update_tracker_row t persons track).
Proof.
  intros H. unfold update_tracker_row. cbv zeta. apply Forall_map.
  assert (Forall tracker_bounded
            match find_tracker (Track.track_id track) persons with
            | Some _ => persons
            | None => persons ++ [new_tracker (Track.track_id track)]
            end) as H'.
  { destruct (find_tracker _ persons); [exact H |].
    apply Forall_app. split; [exact H |].
    apply Forall_cons; [| apply Forall_nil].
    unfold tracker_bounded. cbn. repeat split; lia. }
  eapply Forall_impl; [| exact H']. cbv beta. intros p Hp.
  destruct (track_id p =? Track.track_id track)%Z;
    [apply add_position_bounded; exact Hp | exact Hp].
Qed.

Lemma analyze_behavior_fields (self : SecurityMonitoringSystem) (p : PersonTracker) (t : R) :
  positions (analyze_behavior self p t) = positions p
  /\ timestamps (analyze_behavior self p t) = timestamps p
  /\ detected_objects (analyze_behavior self p t) = detected_objects p
  /\ last_seen (analyze_behavior self p t) = last_seen p
  /\ last_bbox (analyze_behavior self p t) = last_bbox p.
Proof.
  unfold analyze_behavior.
  destruct (check_loitering_person self p t) as [s Hs].
  destruct (check_loitering self p t) as [p' lo]. cbn [fst] in Hs. subst p'.
  repeat split.
Qed.

Lemma detect_carried_objects_bounded (clock : nat -> R) (p : PersonTracker)
    (detections : list Detection.t) (bbox : list Z) :
  tracker_bounded p -> tracker_bounded (detect_carried_objects clock p detections bbox).
Proof.
  intros (Hlen & Hp & Hd). unfold detect_carried_objects.
  destruct bbox as [| a [| b [| c [| d [| ? ?]]]]]; try (repeat split; assumption).
  cbv zeta. rewrite detect_carried_loop_sightings by exact Hd.
  unfold tracker_bounded. cbn [set_detected_objects positions timestamps detected_objects].
  rewrite last_n_length. repeat split; try assumption. lia.
Qed.

Lemma analyze_person_bounded (self : SecurityMonitoringSystem) (clock : nat -> R)
    (detections : list Detection.t) (t : R) (p : PersonTracker) :
  tracker_bounded p -> tracker_bounded (analyze_person self clock detections t p).
Proof.
  intros Hb. unfold analyze_person. destruct (is_active p t); [| exact Hb].
  assert (tracker_bounded (analyze_behavior self p t)) as Hb'.
  { destruct (analyze_behavior_fields self p t) as (H1 & H2 & H3 & _).
    unfold tracker_bounded. rewrite H1, H2, H3. exact Hb. }
  cbv zeta. destruct (last_bbox (analyze_behavior self p t)); [exact Hb' |].
  apply detect_carried_objects_bounded. exact Hb'.
Qed.

Lemma process_alerts_loop_bounded (score : PersonTracker -> R -> result (R * string))
    (self : SecurityMonitoringSystem) (now : R) (persons : list PersonTracker) :
  map track_id (fst (fst (process_alerts_loop score self now persons))) = map track_id persons
  /\ (Forall tracker_bounded persons ->
      Forall tracker_bounded (fst (fst (process_alerts_loop score self now persons)))).
Proof.
  induction persons as [| p persons [IH1 IH2]]; [split; [reflexivity | intros H; exact H] |].
  cbn [process_alerts_loop].
  pose proof (dispatch_person_writes score self now p) as [Hw _].
  pose proof (dispatch_person_track_id score self now p) as Hid.
  destruct (dispatch_person score self now p) as [[p' incs] als].
  destruct (process_alerts_loop score self now persons) as [[rest incs'] als'].
  cbn [fst snd map] in *. split; [rewrite Hid, IH1; reflexivity |].
  intros H. inversion H as [| ? ? Hp Hrest]; subst.
  apply Forall_cons; [| apply IH2; exact Hrest].
  rewrite Hw. exact Hp.
Qed.

(** X17.  One iteration of the monitoring loop ([process_alerts], the
    tracker update, the analysis of every tracker) always returns on the
    model, and it maintains the state the methods rely on: one tracker per id,
    position and timestamp histories of one length (so that [get_speed] reads
    both at the same indices) of at most 30 entries, and at most 10 sightings
    per tracker.  Its incidents and alerts are those of [process_alerts] on
    the state it started from. *)
Theorem loop_iteration_keeps_state_bounded :
  forall (self : SecurityMonitoringSystem) (now : R) (tracks : list Track.t)
         (detections : list Detection.t) (clock : nat -> R),
    system_bounded self ->
    exists self',
      loop_iteration self now tracks detections clock
      = Ok (self', snd (fst (process_alerts self now)), snd (process_alerts self now))
      /\ system_bounded self'.
Proof.
  intros self now tracks detections clock [Hkeys Hb].
  unfold loop_iteration, process_alerts, process_alerts_with.
  destruct (process_alerts_loop_bounded (fun person t => Ok (calculate_risk_score person t))
              self now (person_trackers self)) as [Hid Hb1].
  specialize (Hb1 Hb).
  destruct (process_alerts_loop _ self now (person_trackers self)) as [[ps incs] als].
  cbn [fst snd] in *.
  unfold process_frame_analysis, process_frame_analysis_with.
  rewrite for_each_unguarded_total.
  eexists. split; [reflexivity |].
  unfold system_bounded, well_keyed, update_trackers.
  cbn [person_trackers set_person_trackers].
  assert (NoDup (map track_id ps)) as Hkeys1 by (rewrite Hid; exact Hkeys).
  destruct (update_loop_facts now tracks ps Hkeys1) as (Hk2 & _).
  assert (Forall tracker_bounded (fold_left (update_tracker_row now) tracks ps)) as Hb2.
  { clear -Hb1. revert ps Hb1. induction tracks as [| track tracks IH]; intros ps Hb1;
      [exact Hb1 |].
    cbn [fold_left]. apply IH. apply update_tracker_row_bounded. exact Hb1. }
  split.
  - rewrite map_map.
    rewrite (map_ext _ track_id) by (intros q; apply analyze_person_notified).
    exact Hk2.
  - apply Forall_map. eapply Forall_impl; [| exact Hb2]. cbv beta.
    intros p. apply analyze_person_bounded.
Qed.

(** An instance: the lab with the intruder, at time 1, when the external
    tracker reports the intruder again and a knife is detected. *)
Lemma loop_iteration_keeps_state_bounded_witness :
  exists self',
    loop_iteration (lab_system [intruder 1]) 1 [Track.mk 3 3 7 7 1] [knife] (fun _ => 1)
    = Ok (self', snd (fst (process_alerts (lab_system [intruder 1]) 1)),
          snd (process_alerts (lab_system [intruder 1]) 1))
    /\ system_bounded self'.
Proof.
  apply (loop_iteration_keeps_state_bounded (lab_system [intruder 1]) 1
           [Track.mk 3 3 7 7 1] [knife] (fun _ => 1)).
  split; [exact (lab_frame_keys (intruder 1) 0) |].
  cbn [lab_system person_trackers]. rewrite intruder_state.
  apply Forall_cons; [| apply Forall_nil].
  unfold tracker_bounded. cbn [timestamps positions detected_objects length].
  repeat split; lia.
Defined.

(** ** Removal of inactive trackers *)

Lemma dict_del_loop (ids : list Z) (persons : list PersonTracker) :
  fold_left dict_del ids persons
  = filter (fun p => negb (existsb (Z.eqb (track_id p)) ids)) persons.
Proof.
  revert persons. induction ids as [| tid ids IH]; intros persons.
  - cbn [fold_left existsb negb]. induction persons as [| p persons IHp]; [reflexivity |].
    cbn [filter]. rewrite <- IHp. reflexivity.
  - cbn [fold_left]. rewrite IH. unfold dict_del.
    induction persons as [| p persons IHp]; [reflexivity |].
    cbn [filter existsb]. destruct (track_id p =? tid)%Z; cbn [negb orb filter];
      rewrite IHp; reflexivity.
Qed.

Lemma keys_injective (persons : list PersonTracker) (p q : PersonTracker) :
  NoDup (map track_id persons) -> In p persons -> In q persons ->
  track_id p = track_id q -> p = q.
Proof.
  induction persons as [| a persons IH]; intros Hnd Hp Hq Heq; [destruct Hp |].
  cbn [map] in Hnd. inversion Hnd as [| ? ? Hnot Hnd']; subst.
  destruct Hp as [<- | Hp], Hq as [<- | Hq].
  - reflexivity.
  - exfalso. apply Hnot. rewrite Heq. apply in_map. exact Hq.
  - exfalso. apply Hnot. rewrite <- Heq. apply in_map. exact Hp.
  - apply IH; assumption.
Qed.

Lemma filter_sublist_keys (f : PersonTracker -> bool) (persons : list PersonTracker) :
  NoDup (map track_id persons) -> NoDup (map track_id (filter f persons)).
Proof.
  induction persons as [| p persons IH]; intros Hnd; [constructor |].
  cbn [map] in Hnd. inversion Hnd as [| ? ? Hnot Hnd']; subst.
  cbn [filter]. destruct (f p); [| apply IH; exact Hnd'].
  cbn [map]. constructor; [| apply IH; exact Hnd'].
  intros Hin. apply Hnot. apply in_map_iff in Hin. destruct Hin as (q & Hq & Hin).
  apply filter_In in Hin. rewrite <- Hq. apply in_map. apply Hin.
Qed.

Lemma active_among_recent (now : R) (persons : list PersonTracker) :
  filter (fun p => is_active p now) (filter (fun p => now - last_seen p <=? 30) persons)
  = filter (fun p => is_active p now) persons.
Proof.
  induction persons as [| p l IH]; [reflexivity |].
  cbn [filter]. destruct (now - last_seen p <=? 30) eqn:E30.
  - cbn [filter]. rewrite IH. reflexivity.
  - rewrite IH. apply Rleb_false in E30.
    assert (is_active p now = false) as -> by (unfold is_active; apply Rltb_false; lra).
    reflexivity.
Qed.

(** X18.  On a dict with one tracker per id, [cleanup_trackers] keeps, in
    order, exactly the trackers seen at most 30 seconds before, whatever the
    reset of the external tracker does (it may raise); the dict still has one
    tracker per id, and the trackers active at that time (seen less than 5
    seconds before) are all kept, so the active count and the risk
    distribution of the statistics are the same before and after. *)
Theorem cleanup_trackers_keeps_recent :
  forall (reset : tracker_reset) (last_reset : option R)
         (self : SecurityMonitoringSystem) (now : R),
    well_keyed self ->
    let self' := fst (cleanup_trackers reset last_reset self (Some now)) in
    person_trackers self'
    = filter (fun p => now - last_seen p <=? 30) (person_trackers self)
    /\ well_keyed self'
    /\ active_trackers self' now = active_trackers self now
    /\ Statistics.active_trackers (get_system_statistics self' now)
       = Statistics.active_trackers (get_system_statistics self now)
    /\ Statistics.risk_distribution (get_system_statistics self' now)
       = Statistics.risk_distribution (get_system_statistics self now).
Proof.
  intros reset last_reset self now Hkeys self'. subst self'.
  unfold cleanup_trackers. cbv zeta. cbn [fst person_trackers set_person_trackers].
  assert (fold_left dict_del
            (map track_id (filter (fun tracker => now - last_seen tracker >? 30)
                             (person_trackers self)))
            (person_trackers self)
          = filter (fun p => now - last_seen p <=? 30) (person_trackers self)) as Heq.
  { rewrite dict_del_loop. apply filter_ext_in. intros p Hp.
    destruct (now - last_seen p <=? 30) eqn:E.
    - apply Rleb_true in E. apply negb_true_iff.
      destruct (existsb _ _) eqn:Ex; [| reflexivity].
      apply existsb_exists in Ex. destruct Ex as (tid & Hin & Hid).
      apply Z.eqb_eq in Hid. apply in_map_iff in Hin. destruct Hin as (q & Hq & Hin).
      apply filter_In in Hin. destruct Hin as [Hin Hold]. apply Rgtb_true in Hold.
      assert (p = q) as -> by (apply (keys_injective _ _ _ Hkeys Hp Hin); congruence).
      lra.
    - apply Rleb_false in E. apply negb_false_iff. apply existsb_exists.
      exists (track_id p). split; [| apply Z.eqb_refl].
      apply in_map. apply filter_In. split; [exact Hp |]. apply Rgtb_true. lra. }
  rewrite Heq.
  assert (active_trackers
            (set_person_trackers self
               (filter (fun p => now - last_seen p <=? 30) (person_trackers self))) now
          = active_trackers self now) as Hact.
  { unfold active_trackers. cbn [person_trackers set_person_trackers].
    apply active_among_recent. }
  split; [reflexivity |].
  split; [unfold well_keyed; cbn [person_trackers set_person_trackers];
          apply filter_sublist_keys; exact Hkeys |].
  split; [exact Hact |].
  unfold get_system_statistics. cbv zeta.
  cbn [Statistics.active_trackers Statistics.risk_distribution].
  rewrite Hact. split; reflexivity.
Qed.

(** An instance: the intruder, last seen at time 0, survives a cleanup at
    time 29.5 in which the reset of the external tracker raises. *)
Lemma cleanup_trackers_keeps_recent_witness :
  person_trackers (fst (cleanup_trackers ResetRaises (Some 0) (lab_system [intruder 1])
                          (Some 29.5)))
  = filter (fun p => 29.5 - last_seen p <=? 30) (person_trackers (lab_system [intruder 1])).
Proof.
  apply (cleanup_trackers_keeps_recent ResetRaises (Some 0) (lab_system [intruder 1]) 29.5
           (lab_frame_keys (intruder 1) 0)).
Defined.

(** ** Fallback assignment of track ids *)

Lemma assign_loop_nearest (center : Point) (rest seen : list PersonTracker)
    (acc : option R * option Z) :
  nearest_of center seen acc ->
  nearest_of center (seen ++ rest) (fold_left (assign_step center) rest acc).
Proof.
  revert seen acc. induction rest as [| q rest IH]; intros seen acc Hinv.
  - rewrite app_nil_r. exact Hinv.
  - cbn [fold_left]. replace (seen ++ q :: rest) with ((seen ++ [q]) ++ rest)
      by (rewrite <- app_assoc; reflexivity).
    apply IH. unfold assign_step.
    destruct (positions q) as [| a l] eqn:Epos.
    { destruct Hinv as [(Hacc & Hall) | (p & Hin & Hacc & Hpos & Hd & Hall)].
      - left. split; [exact Hacc |]. apply Forall_app. split; [exact Hall |].
        apply Forall_cons; [left; exact Epos | apply Forall_nil].
      - right. exists p. split; [apply in_or_app; left; exact Hin |].
        repeat (split; [assumption |]).
        apply Forall_app. split; [exact Hall |].
        apply Forall_cons; [left; exact Epos | apply Forall_nil]. }
    cbv zeta.
    assert (positions q <> []) as Hq by (rewrite Epos; discriminate).
    destruct Hinv as [(Hacc & Hall) | (p & Hin & Hacc & Hpos & Hd & Hall)];
      rewrite Hacc; cbn [fst andb].
    + destruct (distance_to center q <? 100) eqn:E;
        [apply Rltb_true in E | apply Rltb_false in E].
      * right. exists q. split; [apply in_or_app; right; left; reflexivity |].
        split; [reflexivity |]. split; [exact Hq |]. split; [exact E |].
        apply Forall_app. split.
        -- eapply Forall_impl; [| exact Hall]. cbv beta. intros x [Hx | Hx]; [left; exact Hx |].
           right. lra.
        -- apply Forall_cons; [right; lra | apply Forall_nil].
      * left. split; [reflexivity |]. apply Forall_app. split; [exact Hall |].
        apply Forall_cons; [right; exact E | apply Forall_nil].
    + destruct (distance_to center q <? distance_to center p) eqn:Em;
        [apply Rltb_true in Em | apply Rltb_false in Em]; cbn [andb].
      * destruct (distance_to center q <? 100) eqn:E;
          [apply Rltb_true in E | apply Rltb_false in E; lra].
        right. exists q. split; [apply in_or_app; right; left; reflexivity |].
        split; [reflexivity |]. split; [exact Hq |]. split; [exact E |].
        apply Forall_app. split.
        -- eapply Forall_impl; [| exact Hall]. cbv beta. intros x [Hx | Hx]; [left; exact Hx |].
           right. lra.
        -- apply Forall_cons; [right; lra | apply Forall_nil].
      * right. exists p. split; [apply in_or_app; left; exact Hin |].
        split; [reflexivity |]. split; [exact Hpos |]. split; [exact Hd |].
        apply Forall_app. split; [exact Hall |].
        apply Forall_cons; [right; exact Em | apply Forall_nil].
Qed.

Lemma max_loop_ge (ks : list Z) (k : Z) :
  (k <= fold_left Z.max ks k)%Z /\ Forall (fun x => (x <= fold_left Z.max ks k)%Z) ks.
Proof.
  revert k. induction ks as [| x ks IH]; intros k; cbn [fold_left].
  - split; [lia | constructor].
  - destruct (IH (Z.max k x)) as [H1 H2]. split; [lia |].
    constructor; [lia | exact H2].
Qed.

Lemma max_key_ge (persons : list PersonTracker) :
  Forall (fun p => (track_id p <= max_key persons)%Z) persons.
Proof.
  unfold max_key. destruct persons as [| p persons]; [constructor |].
  cbn [map]. destruct (max_loop_ge (map track_id persons) (track_id p)) as [H1 H2].
  constructor; [exact H1 |]. rewrite Forall_map in H2. exact H2.
Qed.

(** X19.  [assign_track_id] returns the id of a tracker of the dict that
    has a position less than 100 pixels from the centre of the detection and
    is nearest to it among the trackers with a position; when there is no such
    tracker it returns an id above every id of the dict, hence a new one (1 on
    an empty dict). *)
Theorem assign_track_id_nearest_or_new :
  forall (self : SecurityMonitoringSystem) (detection : Detection.t),
    let center := Detection.center detection in
    let id := assign_track_id self detection in
    (exists p, In p (person_trackers self)
       /\ id = track_id p
       /\ positions p <> []
       /\ distance_to center p < 100
       /\ Forall (fun q => positions q = [] \/ distance_to center p <= distance_to center q)
                 (person_trackers self))
    \/ (Forall (fun q => positions q = [] \/ 100 <= distance_to center q)
               (person_trackers self)
        /\ Forall (fun q => (track_id q < id)%Z) (person_trackers self)
        /\ ~ In id (map track_id (person_trackers self))
        /\ (person_trackers self = [] -> id = 1%Z)).
Proof.
  intros self detection center id. subst id. unfold assign_track_id. cbv zeta.
  fold center.
  assert (nearest_of center [] (None, None)) as H0 by (left; split; [reflexivity | constructor]).
  pose proof (assign_loop_nearest center (person_trackers self) [] (None, None) H0) as H.
  cbn [app] in H.
  destruct H as [(Hacc & Hall) | (p & Hin & Hacc & Hpos & Hd & Hall)]; rewrite Hacc; cbn [snd].
  - right. split; [exact Hall |].
    assert (Forall (fun q => (track_id q < max_key (person_trackers self) + 1)%Z)
              (person_trackers self)) as Hlt.
    { eapply Forall_impl; [| apply max_key_ge]. cbv beta. intros q Hq. lia. }
    split; [exact Hlt |]. split.
    + intros Hin. apply in_map_iff in Hin. destruct Hin as (q & Hq & Hin).
      rewrite Forall_forall in Hlt. specialize (Hlt q Hin). lia.
    + intros ->. reflexivity.
  - left. exists p. repeat (split; [assumption || reflexivity |]). exact Hall.
Qed.

(** ** The overlay and the incident log *)

Lemma process_alerts_loop_incident_count (self : SecurityMonitoringSystem) (now : R)
    (persons : list PersonTracker) :
  length (snd (fst (process_alerts_loop (fun q t => Ok (calculate_risk_score q t))
                      self now persons)))
  = length (filter (fun p => negb (alerts_skip p now)
                             && (fst (calculate_risk_score p now)
                                 >=? risk_alert_threshold self))
                   persons).
Proof.
  induction persons as [| p persons IH]; [reflexivity |].
  cbn [process_alerts_loop filter].
  assert (length (snd (fst (dispatch_person (fun q t => Ok (calculate_risk_score q t))
                              self now p)))
          = if negb (alerts_skip p now)
               && (fst (calculate_risk_score p now) >=? risk_alert_threshold self)
            then 1%nat else 0%nat) as Hp.
  { unfold dispatch_person. destruct (alerts_skip p now); [reflexivity |].
    destruct (calculate_risk_score p now) as [risk threat]. cbv zeta. cbn [fst negb andb].
    destruct (risk >=? risk_alert_threshold self); destruct (negb _); reflexivity. }
  destruct (dispatch_person _ self now p) as [[p' incs] als].
  destruct (process_alerts_loop _ self now persons) as [[rest incs'] als'].
  cbn [fst snd] in *. rewrite length_app, Hp, IH.
  destruct (negb (alerts_skip p now) && _); reflexivity.
Qed.

Lemma filter_length_implies {A : Type} (f g : A -> bool) (l : list A) :
  (forall a, f a = true -> g a = true) ->
  (length (filter f l) <= length (filter g l))%nat.
Proof.
  intros H. induction l as [| a l IH]; [reflexivity |].
  cbn [filter]. destruct (f a) eqn:E.
  - rewrite (H a E). cbn [length]. lia.
  - destruct (g a); cbn [length]; lia.
Qed.

Lemma filter_length_split {A : Type} (f g h : A -> bool) (l : list A) :
  (forall a, f a = g a || h a /\ g a && h a = false) ->
  length (filter f l) = (length (filter g l) + length (filter h l))%nat.
Proof.
  intros H. induction l as [| a l IH]; [reflexivity |].
  cbn [filter]. destruct (H a) as [Hf Hd]. rewrite Hf.
  destruct (g a), (h a); cbn [orb andb length] in *; try discriminate; lia.
Qed.

(** X20.  On one state and time, the incident rows that [process_alerts]
    logs are as many as the count behind the "ALERTS: n" line of the overlay
    plus the trackers that are logged and not counted; each of these has a
    score equal to the alert threshold or was last seen exactly 5 seconds
    before.  The overlay count is also at most the number of active
    trackers. *)
Theorem overlay_count_and_incidents :
  forall (self : SecurityMonitoringSystem) (now : R),
    length (snd (fst (process_alerts self now)))
    = (high_risk_count self now
       + length (filter (logged_not_counted self now) (person_trackers self)))%nat
    /\ Forall (fun p => fst (calculate_risk_score p now) = risk_alert_threshold self
                        \/ now - last_seen p = 5)
              (filter (logged_not_counted self now) (person_trackers self))
    /\ (high_risk_count self now <= length (active_trackers self now))%nat.
Proof.
  intros self now. unfold process_alerts, process_alerts_with.
  pose proof (process_alerts_loop_incident_count self now (person_trackers self)) as Hc.
  destruct (process_alerts_loop _ self now (person_trackers self)) as [[ps incs] als].
  cbn [fst snd] in *. rewrite Hc. unfold high_risk_count, active_trackers.
  split; [| split].
  - apply filter_length_split. intros p. unfold logged_not_counted, alerts_skip.
    destruct (now - last_seen p >? 5) eqn:E1;
      [apply Rgtb_true in E1 | apply Rgtb_false in E1];
      (destruct (fst (calculate_risk_score p now) >=? risk_alert_threshold self) eqn:E2;
       [apply Rgeb_true in E2 | apply Rgeb_false in E2]);
      (destruct (fst (calculate_risk_score p now) >? risk_alert_threshold self) eqn:E3;
       [apply Rgtb_true in E3 | apply Rgtb_false in E3]);
      (destruct (now - last_seen p <? 5) eqn:E4;
       [apply Rltb_true in E4 | apply Rltb_false in E4]);
      try lra; split; reflexivity.
  - apply Forall_forall. intros p Hp. apply filter_In in Hp. destruct Hp as [_ Hp].
    unfold logged_not_counted, alerts_skip in Hp.
    apply andb_true_iff in Hp. destruct Hp as [Hp Hn].
    apply andb_true_iff in Hp. destruct Hp as [Hs Hr].
    apply negb_true_iff in Hs. apply Rgtb_false in Hs. apply Rgeb_true in Hr.
    apply negb_true_iff in Hn. apply andb_false_iff in Hn.
    destruct Hn as [Hn | Hn]; [apply Rgtb_false in Hn; left | apply Rltb_false in Hn; right];
      lra.
  - apply filter_length_implies. intros p Hp.
    apply andb_true_iff in Hp. destruct Hp as [_ Ha]. exact Ha.
Qed.

(** ** Movement and the loitering clock *)








(** ** The first frame of a threat *)

Lemma no_events_score (p : PersonTracker) (now : R) :
  risk_events p = [] -> calculate_risk_score p now = (0, "normal").
Proof.
  intros He. unfold calculate_risk_score, recent_event_count. rewrite He.
  cbn [fold_left filter length Nat.ltb Nat.leb]. rewrite andb_false_r.
  assert (py_min 0 100 = 0) as H0 by (unfold py_min; float_decide; reflexivity).
  destruct (String.eqb _ "erratic");
    [| destruct (String.eqb _ "running")];
    rewrite ?Rmult_0_l, H0; reflexivity.
Qed.

Lemma dispatch_clean (self : SecurityMonitoringSystem) (now : R) (p : PersonTracker) :
  0 < risk_alert_threshold self -> clean_tracker p ->
  snd (fst (dispatch_person (fun q t => Ok (calculate_risk_score q t)) self now p)) = []
  /\ snd (dispatch_person (fun q t => Ok (calculate_risk_score q t)) self now p) = []
  /\ status (fst (fst (dispatch_person (fun q t => Ok (calculate_risk_score q t)) self now p)))
     = "normal".
Proof.
  intros Hthr [He Hs]. unfold dispatch_person.
  destruct (alerts_skip p now); [cbn [fst snd]; auto |].
  rewrite (no_events_score p now He). cbv zeta.
  assert ((0 >=? risk_alert_threshold self) = false) as -> by (apply Rgeb_false; exact Hthr).
  destruct (negb _); cbn [fst snd set_status set_last_notified_threat status]; auto.
Qed.

Lemma process_alerts_loop_clean (self : SecurityMonitoringSystem) (now : R)
    (persons : list PersonTracker) :
  0 < risk_alert_threshold self -> Forall clean_tracker persons ->
  snd (fst (process_alerts_loop (fun q t => Ok (calculate_risk_score q t)) self now persons))
  = []
  /\ snd (process_alerts_loop (fun q t => Ok (calculate_risk_score q t)) self now persons) = []
  /\ Forall (fun p => status p = "normal")
       (fst (fst (process_alerts_loop (fun q t => Ok (calculate_risk_score q t))
                    self now persons))).
Proof.
  intros Hthr Hall. induction Hall as [| p persons Hp _ IH]; [repeat split; constructor |].
  cbn [process_alerts_loop].
  destruct (dispatch_clean self now p Hthr Hp) as (H1 & H2 & H3).
  destruct (dispatch_person _ self now p) as [[p' incs] als].
  destruct IH as (I1 & I2 & I3).
  destruct (process_alerts_loop _ self now persons) as [[rest incs'] als'].
  cbn [fst snd] in *. subst. repeat split. constructor; assumption.
Qed.

Lemma update_tracker_row_status (t : R) (persons : list PersonTracker) (track : Track.t) :
  Forall (fun p => status p = "normal") persons ->
  Forall (fun p => status p = "normal") (update_tracker_row t persons track).
Proof.
  intros H. unfold update_tracker_row. cbv zeta. apply Forall_map.
  assert (Forall (fun p => status p = "normal")
            match find_tracker (Track.track_id track) persons with
            | Some _ => persons
            | None => persons ++ [new_tracker (Track.track_id track)]
            end) as H'.
  { destruct (find_tracker _ persons); [exact H |].
    apply Forall_app. split; [exact H |].
    apply Forall_cons; [reflexivity | apply Forall_nil]. }
  eapply Forall_impl; [| exact H']. cbv beta. intros p Hp.
  destruct (track_id p =? Track.track_id track)%Z; exact Hp.
Qed.

Lemma detect_carried_loop_status (clock : nat -> R) (detections : list Detection.t)
    (k : nat) (a b c d : Z) (p : PersonTracker) :
  status (detect_carried_loop clock k a b c d p detections) = status p.
Proof.
  revert k p. induction detections as [| det detections IH]; intros k p; [reflexivity |].
  cbn [detect_carried_loop]. rewrite IH.
  repeat match goal with
  | |- context [if ?b then _ else _] => destruct b
  | |- context [match ?l with [] => _ | _ :: _ => _ end] => destruct l
  end; reflexivity.
Qed.

Lemma analyze_person_status (self : SecurityMonitoringSystem) (clock : nat -> R)
    (detections : list Detection.t) (t : R) (p : PersonTracker) :
  status (analyze_person self clock detections t p) = status p.
Proof.
  unfold analyze_person. destruct (is_active p t); [| reflexivity].
  assert (status (analyze_behavior self p t) = status p) as Hs.
  { unfold analyze_behavior.
    destruct (check_loitering_person self p t) as [s Hs].
    destruct (check_loitering self p t) as [p' lo]. cbn [fst] in Hs. subst p'. reflexivity. }
  cbv zeta. destruct (last_bbox (analyze_behavior self p t)) as [| x l]; [exact Hs |].
  unfold detect_carried_objects.
  repeat match goal with
  | |- context [match ?l with [] => _ | _ :: _ => _ end] => destruct l
  end; try exact Hs.
  cbv zeta. rewrite detect_carried_loop_status. exact Hs.
Qed.

Lemma all_normal_draws_nothing (self : SecurityMonitoringSystem) (now : R) :
  Forall (fun p => status p = "normal") (person_trackers self) ->
  active_alerts_to_draw self now = [].
Proof.
  unfold active_alerts_to_draw. intros H.
  induction H as [| p l Hp _ IH]; [reflexivity |].
  cbn [flat_map]. rewrite Hp, IH. reflexivity.
Qed.

(** X22.  A threat is neither logged nor drawn in the frame that finds it.
    When the alert threshold is positive and every tracker is clean when an
    iteration of the monitoring loop begins (no event, status "normal"), the
    iteration returns no incident row and no alert, and step 5 of
    [process_frame] draws no notification, whatever the analysis of the
    iteration finds: [process_alerts] runs before the analysis, and the
    notifications are drawn only for trackers whose status it has set. *)
Theorem first_frame_of_a_threat_is_silent :
  forall (self : SecurityMonitoringSystem) (now : R) (tracks : list Track.t)
         (detections : list Detection.t) (clock : nat -> R),
    0 < risk_alert_threshold self ->
    Forall clean_tracker (person_trackers self) ->
    exists self',
      loop_iteration self now tracks detections clock = Ok (self', [], [])
      /\ active_alerts_to_draw self' now = [].
Proof.
  intros self now tracks detections clock Hthr Hclean.
  unfold loop_iteration, process_alerts, process_alerts_with.
  destruct (process_alerts_loop_clean self now (person_trackers self) Hthr Hclean)
    as (H1 & H2 & H3).
  destruct (process_alerts_loop _ self now (person_trackers self)) as [[ps incs] als].
  cbn [fst snd] in *. subst incs als.
  unfold process_frame_analysis, process_frame_analysis_with.
  rewrite for_each_unguarded_total.
  eexists. split; [reflexivity |].
  apply all_normal_draws_nothing.
  unfold update_trackers. cbn [person_trackers set_person_trackers].
  assert (Forall (fun p => status p = "normal")
            (fold_left (update_tracker_row now) tracks ps)) as Hs.
  { clear -H3. revert ps H3. induction tracks as [| track tracks IH]; intros ps H3;
      [exact H3 |].
    cbn [fold_left]. apply IH. apply update_tracker_row_status. exact H3. }
  apply Forall_map. eapply Forall_impl; [| exact Hs]. cbv beta.
  intros p Hp. rewrite analyze_person_status. exact Hp.
Qed.

(** An instance: the empty lab, when a person enters the restricted zone.
    The iteration creates the tracker and raises the intrusion event, which
    scores 22.5 (threshold 20); nothing is logged or drawn. *)
Lemma first_frame_of_a_threat_is_silent_witness :
  (exists self',
     loop_iteration (lab_system []) 0 [Track.mk 3 3 7 7 1] [] (fun _ => 0) = Ok (self', [], [])
     /\ active_alerts_to_draw self' 0 = [])
  /\ loop_iteration (lab_system []) 0 [Track.mk 3 3 7 7 1] [] (fun _ => 0)
     = Ok (lab_system [intruder 1], [], [])
  /\ calculate_risk_score (intruder 1) 0 = (22.5, "intrusion").
Proof.
  split; [| split].
  - apply (first_frame_of_a_threat_is_silent (lab_system []) 0 [Track.mk 3 3 7 7 1] []
             (fun _ => 0)).
    + cbn [lab_system risk_alert_threshold]. lra.
    + apply Forall_nil.
  - unfold loop_iteration, process_alerts, process_alerts_with.
    cbn [lab_system person_trackers process_alerts_loop].
    unfold process_frame_analysis, process_frame_analysis_with.
    rewrite for_each_unguarded_total.
    unfold update_trackers. cbn [person_trackers set_person_trackers fold_left].
    unfold update_tracker_row, find_tracker. cbn [find app map Track.track_id new_tracker
      track_id Z.eqb Pos.eqb Track.x1 Track.x2 Track.y1 Track.y2].
    change (Z.quot (3 + 7) 2) with 5%Z.
    set (p0 := add_position (new_tracker 1) (5, 5)%Z 0 [3; 3; 7; 7]%Z).
    set (sys := set_person_trackers (set_person_trackers (lab_system []) []) [p0]).
    assert (analyze_behavior sys p0 0 = intruder 1) as Hab.
    { rewrite intruder_state. unfold analyze_behavior.
      assert (check_intrusion sys p0 0 = Some (mkRiskEvent "intrusion" 12 0.9 0 0 (5, 5)%Z))
        as -> by reflexivity.
      assert (check_weapons sys p0 0 = None) as -> by reflexivity.
      assert (check_loitering sys p0 0 = (p0, None)) as -> by reflexivity.
      assert (check_movement_patterns sys p0 0 = None) as -> by reflexivity.
      subst p0.
      cbn [opt_list app add_position new_tracker set_history risk_events filter timestamp
           set_risk_events positions timestamps deque_append length Nat.ltb Nat.leb
           track_id detected_objects total_risk_score max_risk_score status last_seen
           zone_entry_time stationary_start last_bbox last_notified_threat].
      float_decide. reflexivity. }
    assert (analyze_person sys (fun _ => 0) [] 0 p0 = intruder 1) as ->.
    { unfold analyze_person, is_active.
      assert (last_seen p0 = 0) as -> by reflexivity.
      float_decide. cbv zeta. rewrite Hab, intruder_state. reflexivity. }
    reflexivity.
  - apply intruder_score. lra.
Defined.

(** ** One more event *)

Lemma pattern_of_events (p : PersonTracker) (events : list RiskEvent) :
  get_movement_pattern (set_risk_events p events) = get_movement_pattern p.
Proof. reflexivity. Qed.

(** X23.  One more event never lowers the score of a track: whatever the
    event appended to the events of a track, the total score at any time is at
    least what it was without it. *)
Theorem one_more_event_never_lowers_score :
  forall (p : PersonTracker) (e : RiskEvent) (now : R),
    fst (calculate_risk_score p now)
    <= fst (calculate_risk_score (set_risk_events p (risk_events p ++ [e])) now).
Proof.
  intros p e now. rewrite !calculate_risk_score_total. apply py_min_mono.
  cbn [risk_events set_risk_events]. rewrite events_total_app.
  pose proof (events_total_nonneg now (risk_events p)) as Ht.
  pose proof (events_total_nonneg now [e]) as Hte.
  set (q := set_risk_events p (risk_events p ++ [e])).
  pose proof (pattern_multiplier_bounds p) as Hp.
  pose proof (pattern_multiplier_bounds q) as Hq.
  pose proof (escalation_multiplier_bounds p now) as He.
  pose proof (escalation_multiplier_bounds q now) as Heq.
  assert (events_total now (risk_events p) = 0
          \/ pattern_multiplier p <= pattern_multiplier q) as Hpm.
  { unfold pattern_multiplier. subst q. rewrite pattern_of_events.
    cbn [risk_events set_risk_events]. rewrite length_app. cbn [length].
    destruct (String.eqb (get_movement_pattern p) "erratic"); [right; lra |].
    destruct (String.eqb (get_movement_pattern p) "running"); [right; lra |].
    destruct (String.eqb (get_movement_pattern p) "stationary"); cbn [andb]; [| right; lra].
    destruct (risk_events p) as [| e0 l]; [left; reflexivity |].
    right. cbn [length Nat.add Nat.ltb Nat.leb].
    destruct (0 <? S (length l + 1))%nat; lra. }
  assert (escalation_multiplier p now <= escalation_multiplier q now) as Hem.
  { unfold escalation_multiplier, recent_event_count. subst q.
    cbn [risk_events set_risk_events]. rewrite filter_app, length_app.
    destruct (Nat.ltb_spec 2 (length (filter (fun e0 => now - timestamp e0 <? 60)
                                        (risk_events p))));
      destruct (Nat.ltb_spec 2 (length (filter (fun e0 => now - timestamp e0 <? 60)
                                          (risk_events p))
                                + length (filter (fun e0 => now - timestamp e0 <? 60) [e])));
      try lra; lia. }
  destruct Hpm as [H0 | Hpm].
  - rewrite H0, !Rmult_0_l, Rplus_0_l.
    apply Rmult_le_pos; [apply Rmult_le_pos |]; lra.
  - assert (events_total now (risk_events p) * pattern_multiplier p
            <= (events_total now (risk_events p) + events_total now [e])
               * pattern_multiplier q) as H1
      by (apply Rmult_le_compat; lra).
    apply Rmult_le_compat; try lra.
    apply Rmult_le_pos; lra.
Qed.

(** ** The notification of a notified threat *)

Lemma detect_carried_loop_frame (clock : nat -> R) (detections : list Detection.t)
    (k : nat) (a b c d : Z) (p : PersonTracker) :
  exists objs, detect_carried_loop clock k a b c d p detections = set_detected_objects p objs.
Proof.
  revert k p. induction detections as [| det detections IH]; intros k p.
  - exists (detected_objects p). symmetry. apply set_detected_objects_same.
  - cbn [detect_carried_loop].
    match goal with
    | |- context [detect_carried_loop clock (S k) a b c d ?q detections] =>
        destruct (IH (S k) q) as [objs Hobjs]; rewrite Hobjs
    end.
    exists objs.
    repeat match goal with
    | |- context [if ?b then _ else _] => destruct b
    | |- context [match ?l with [] => _ | _ :: _ => _ end] => destruct l
    end; reflexivity.
Qed.

Lemma analyze_person_frame (self : SecurityMonitoringSystem) (clock : nat -> R)
    (detections : list Detection.t) (t : R) (p : PersonTracker) :
  exists s events objs,
    analyze_person self clock detections t p
    = set_detected_objects (set_risk_events (set_stationary_start p s) events) objs.
Proof.
  assert (forall q : PersonTracker,
            q = set_detected_objects
                  (set_risk_events (set_stationary_start q (stationary_start q))
                     (risk_events q)) (detected_objects q)) as Hsame
    by (intros q; destruct q; reflexivity).
  unfold analyze_person. destruct (is_active p t); [| eauto].
  assert (exists s events,
            analyze_behavior self p t = set_risk_events (set_stationary_start p s) events)
    as (s & events & Hab).
  { unfold analyze_behavior.
    destruct (check_loitering_person self p t) as [s Hs].
    destruct (check_loitering self p t) as [p' lo]. cbn [fst] in Hs. subst p'. eauto. }
  cbv zeta. rewrite Hab.
  destruct (last_bbox (set_risk_events (set_stationary_start p s) events)) as [| x l].
  - exists s, events, (detected_objects p). reflexivity.
  - unfold detect_carried_objects.
    destruct l as [| y [| z [| w [| ? ?]]]];
      try (exists s, events, (detected_objects p); reflexivity).
    cbv zeta.
    match goal with
    | |- context [detect_carried_loop ?ck ?k ?a ?b ?c ?d ?q ?ds] =>
        destruct (detect_carried_loop_frame ck ds k a b c d q) as [objs Hobjs];
        rewrite Hobjs
    end.
    eauto.
Qed.

(** X24.  A threat that [process_alerts] has found is drawn.  When the
    alert threshold is positive and [process_alerts] finds an active track at
    or above it, the status it writes is the primary threat, which is not
    "normal", and the analysis that follows keeps it; so step 5 of
    [process_frame] draws the track in that frame exactly when its score after
    the analysis is still at or above the threshold, with the level "CRITICAL"
    from the critical threshold on and "HIGH" below. *)
Theorem notified_threat_is_drawn :
  forall (self : SecurityMonitoringSystem) (clock : nat -> R)
         (detections : list Detection.t) (now : R) (p : PersonTracker),
    0 < risk_alert_threshold self ->
    is_active p now = true ->
    risk_alert_threshold self <= fst (calculate_risk_score p now) ->
    let p1 := fst (fst (dispatch_person (fun q t => Ok (calculate_risk_score q t))
                          self now p)) in
    let p2 := analyze_person self clock detections now p1 in
    status p2 = snd (calculate_risk_score p now)
    /\ status p2 <> "normal"
    /\ active_alerts_to_draw (set_person_trackers self [p2]) now
       = if fst (calculate_risk_score p2 now) >=? risk_alert_threshold self
         then [Notification.mk
                 (if fst (calculate_risk_score p2 now) >=? critical_alert_threshold self
                  then "CRITICAL" else "HIGH")
                 (track_id p) (snd (calculate_risk_score p2 now))
                 (fst (calculate_risk_score p2 now))]
         else [].
Proof.
  intros self clock detections now p Hthr Hact Hsig p1 p2.
  pose proof (significant_not_normal p now _ Hthr Hsig) as Hne.
  assert (status p1 = snd (calculate_risk_score p now)
          /\ last_seen p1 = last_seen p /\ track_id p1 = track_id p) as (Hs1 & Hl1 & Hi1).
  { subst p1.
    rewrite (dispatch_significant self now p (active_not_skipped _ _ Hact) ltac:(lra)).
    cbv zeta. destruct (String.eqb _ _); repeat split. }
  destruct (analyze_person_frame self clock detections now p1) as (s & events & objs & H2).
  fold p2 in H2.
  assert (status p2 = status p1 /\ last_seen p2 = last_seen p1 /\ track_id p2 = track_id p1)
    as (Hs2 & Hl2 & Hi2) by (rewrite H2; repeat split).
  split; [congruence |]. split; [congruence |].
  unfold active_alerts_to_draw. cbn [person_trackers set_person_trackers flat_map
    risk_alert_threshold critical_alert_threshold].
  rewrite app_nil_r.
  assert (String.eqb (status p2) "normal" = false) as ->
    by (apply String.eqb_neq; congruence).
  assert ((now - last_seen p2 <? 5) = true) as ->
    by (rewrite Hl2, Hl1; exact Hact).
  cbn [negb andb]. rewrite Hi2, Hi1.
  destruct (calculate_risk_score p2 now) as [risk threat]. cbn [fst snd]. reflexivity.
Qed.

(** An instance: the intruder at time 1, with no detection in the frame. *)
Lemma notified_threat_is_drawn_witness :
  status (analyze_person (lab_system []) (fun _ => 1) [] 1
            (fst (fst (dispatch_person (fun q t => Ok (calculate_risk_score q t))
                         (lab_system []) 1 (intruder 1)))))
  = snd (calculate_risk_score (intruder 1) 1)
  /\ snd (calculate_risk_score (intruder 1) 1) = "intrusion".
Proof.
  assert (is_active (intruder 1) 1 = true) as Hact.
  { rewrite intruder_state. unfold is_active. cbn [last_seen]. apply Rltb_true. lra. }
  assert (risk_alert_threshold (lab_system []) <= fst (calculate_risk_score (intruder 1) 1))
    as Hsig.
  { rewrite intruder_score by lra. cbn [fst lab_system risk_alert_threshold]. lra. }
  assert (0 < risk_alert_threshold (lab_system [])) as Hthr
    by (cbn [lab_system risk_alert_threshold]; lra).
  split.
  - apply (notified_threat_is_drawn (lab_system []) (fun _ => 1) [] 1 (intruder 1)
             Hthr Hact Hsig).
  - rewrite intruder_score by lra. reflexivity.
Defined.
